(** * predictor-agent: consensus aggregation, risk stabilizer, governance bridge

    Shallow embedding of [src/governance_bridge.py], [src/stabilizer.py],
    [src/signals.py] and the signal converter of [src/live_trader.py], the
    properties the specification states about them, and further properties of
    the code.

    Numbers.  Python [float]s are embedded as exact rationals ([Q]); Python
    [int]s as [Z].  [int(x)] on a float truncates toward zero ([py_int]).
    A call that can raise returns an [Outcome].
    Time.  [datetime.utcnow()] is an input: every reading the code makes in
    one call is a field of the environment record of that call, in
    microseconds.  [uuid.uuid4()] and the measured latency are inputs too.
    Text.  An f-string is embedded as the list of its fragments, the
    formatted values kept unformatted next to their format specifier. *)

From Stdlib Require Import Reals Qreals.
From Stdlib Require Import ZArith QArith Qabs Qround Qminmax List String Bool Lia Lqa.
From Stdlib Require Import Sorted Permutation Ascii.
Import ListNotations.

Local Open Scope Q_scope.

(** ** Python numerics *)

(** What a call does: it returns, or an exception escapes it. *)
Inductive Outcome (A : Type) : Type :=
| Returned (a : A)
| Raised (exn : string).

Arguments Returned {A} a.
Arguments Raised {A} exn.

Definition Qlt_bool (x y : Q) : bool := negb (Qle_bool y x).

(** [int(x)] for a float [x]: truncation toward zero. *)
Definition py_int (x : Q) : Z := Z.quot (Qnum x) (Zpos (Qden x)).

(** [max(a, b)]: the first argument wins unless the second is strictly larger. *)
Definition py_max (a b : Q) : Q := if Qlt_bool a b then b else a.

(** [min(a, b)]: the first argument wins unless the second is strictly smaller. *)
Definition py_min (a b : Q) : Q := if Qlt_bool b a then b else a.

(** [sum(xs)] over floats. *)
Definition py_sum (xs : list Q) : Q := fold_left Qplus xs 0.

(** [sum(xs)] over ints. *)
Definition py_sum_int (xs : list Z) : Z := fold_left Z.add xs 0%Z.

(** True division of floats. *)
Definition py_div (a b : Q) : Outcome Q :=
  if Qeq_bool b 0 then Raised "ZeroDivisionError" else Returned (a / b).

(** ** Formatted text and dictionary values *)

Inductive Frag : Type :=
| Lit (s : string)                  (* literal text *)
| FmtF (spec : string) (x : Q)      (* a float under a format specifier *)
| FmtI (n : Z)                      (* an int *)
| FmtL (l : list string).           (* a list of strings *)

Definition Text := list Frag.

Inductive Value : Type :=
| VBool (b : bool)
| VInt (n : Z)
| VNum (x : Q)
| VStr (s : string)
| VStrs (l : list string).

Definition Dict := list (string * Value).

(** ** governance_bridge.py *)

Module Governance.

Record PredictorSignal := {
  signal_id : string;
  market_slug : string;
  market_title : string;
  direction : string;
  conviction : Q;
  num_traders : Z;
  total_size : Q;
  avg_entry_price : Q;
  current_price : Q;
  expected_edge : Q;
  entry_quality : string;
  ars_score : Q;
  recommended_size : Q;
  traders : list string;
  generated_at : string
}.

Inductive GovernanceDecision :=
| APPROVED | BLOCKED | REQUIRES_APPROVAL | KILL_SWITCHED.

Definition decision_value (d : GovernanceDecision) : string :=
  match d with
  | APPROVED => "approved"
  | BLOCKED => "blocked"
  | REQUIRES_APPROVAL => "requires_approval"
  | KILL_SWITCHED => "kill_switched"
  end.

Definition decision_eqb (a b : GovernanceDecision) : bool :=
  match a, b with
  | APPROVED, APPROVED | BLOCKED, BLOCKED
  | REQUIRES_APPROVAL, REQUIRES_APPROVAL | KILL_SWITCHED, KILL_SWITCHED => true
  | _, _ => false
  end.

Record RuleEvaluation := {
  rule_id : string;
  rule_name : string;
  rule_type : string;
  passed : bool;
  reason : Text;
  details : Dict
}.

(** The order request built by [evaluate_signal]; the key of the price entry
    is [f"{signal.direction}_price"]. *)
Record OrderRequest := {
  ticker : string;
  side : string;
  action : string;
  count : Z;
  type_ : string;
  price_key : string;
  price : Z;
  total_cost_cents : Z;
  order_signal_id : string
}.

Record ExecutionResult := {
  status : string;
  order_id : string;
  filled_at : Z;
  cost_cents : Z
}.

(** [SpendTracker.get_state]. *)
Record WalletState := {
  ws_current_balance : Q;
  ws_peak_balance : Q;
  ws_total_pnl : Q;
  ws_daily_spend_cents : Z;
  ws_weekly_spend_cents : Z;
  ws_drawdown : Q;            (* the argument of [round(. * 100, 1)] *)
  ws_consecutive_losses : Z;
  ws_total_transactions : nat
}.

Record GovernanceResult := {
  evaluation_id : string;
  signal : PredictorSignal;
  decision : GovernanceDecision;
  rules_evaluated : list RuleEvaluation;
  order_request : option OrderRequest;
  execution_result : option ExecutionResult;
  wallet_state : WalletState;
  timestamp : Z;
  latency_ms : Q
}.

Inductive AuditEntry :=
| AuditEvaluation (eid : string) (ts : Z) (sid market dir dec : string)
    (rules_checked rules_failed : nat) (blocking_rules : list string)
    (order_value_cents : option Z) (latency : Q)
| AuditKillSwitchActivated (eid : string) (ts : Z) (why : string)
| AuditKillSwitchReset (eid : string) (ts : Z) (authorized_by : string).

Definition to_audit_entry (r : GovernanceResult) : AuditEntry :=
  AuditEvaluation
    (evaluation_id r) (timestamp r)
    (signal_id (signal r)) (market_title (signal r)) (direction (signal r))
    (decision_value (decision r))
    (List.length (rules_evaluated r))
    (List.length (filter (fun e => negb (passed e)) (rules_evaluated r)))
    (map rule_name (filter (fun e => negb (passed e)) (rules_evaluated r)))
    (match order_request r with
     | Some o => Some (total_cost_cents o)
     | None => None
     end)
    (latency_ms r).

(** *** SpendTracker *)

Record Transaction := {
  tx_timestamp : Z;
  tx_amount_cents : Z;
  tx_pnl : Q
}.

Record SpendTracker := {
  transactions : list Transaction;
  peak_balance : Q;
  current_balance : Q;
  total_pnl : Q;
  consecutive_losses : Z
}.

Definition microseconds_per_day : Z := 86400000000.
Definition microseconds_per_hour : Z := 3600000000.

Definition record_trade (now : Z) (t : SpendTracker) (amount_cents : Z) (pnl : Q)
  : SpendTracker :=
  let txs := transactions t ++ [ {| tx_timestamp := now;
                                     tx_amount_cents := amount_cents;
                                     tx_pnl := pnl |} ] in
  let balance := current_balance t - (inject_Z amount_cents / 100) in
  {| transactions := txs;
     peak_balance := if Qlt_bool (peak_balance t) balance then balance
                     else peak_balance t;
     current_balance := balance;
     total_pnl := total_pnl t + pnl;
     consecutive_losses := if Qlt_bool pnl 0
                           then (consecutive_losses t + 1)%Z else 0%Z |}.

Definition get_spend_since (t : SpendTracker) (since : Z) : Z :=
  py_sum_int
    (map tx_amount_cents
         (filter (fun x => (since <=? tx_timestamp x)%Z) (transactions t))).

Definition get_daily_spend (now : Z) (t : SpendTracker) : Z :=
  get_spend_since t (now - 1 * microseconds_per_day)%Z.

Definition get_weekly_spend (now : Z) (t : SpendTracker) : Z :=
  get_spend_since t (now - 7 * microseconds_per_day)%Z.

Definition get_drawdown (t : SpendTracker) : Q :=
  if Qle_bool (peak_balance t) 0 then 0
  else (peak_balance t - current_balance t) / peak_balance t.

Definition get_state (now_daily now_weekly : Z) (t : SpendTracker) : WalletState :=
  {| ws_current_balance := current_balance t;
     ws_peak_balance := peak_balance t;
     ws_total_pnl := total_pnl t;
     ws_daily_spend_cents := get_daily_spend now_daily t;
     ws_weekly_spend_cents := get_weekly_spend now_weekly t;
     ws_drawdown := get_drawdown t;
     ws_consecutive_losses := consecutive_losses t;
     ws_total_transactions := List.length (transactions t) |}.

(** *** GovernanceEngine *)

Record Config := {
  initial_balance : Q;
  max_per_trade_cents : Z;
  max_daily_spend_cents : Z;
  max_weekly_spend_cents : Z;
  max_position_contracts : Z;
  min_entry_quality : string;
  min_ars_score : Q;
  min_conviction : Q;
  allowed_signal_strengths : list string;
  drawdown_kill_switch_pct : Q;
  consecutive_loss_limit : Z;
  trading_hours_start : Z;
  trading_hours_end : Z;
  blocked_categories : list string
}.

Definition _default_config : Config :=
  {| initial_balance := 500;
     max_per_trade_cents := 2000;
     max_daily_spend_cents := 5000;
     max_weekly_spend_cents := 15000;
     max_position_contracts := 50;
     min_entry_quality := "fair";
     min_ars_score := 3 # 10;
     min_conviction := 5 # 100;
     allowed_signal_strengths := ["good"; "fair"]%string;
     drawdown_kill_switch_pct := 20 # 100;
     consecutive_loss_limit := 5;
     trading_hours_start := 6;
     trading_hours_end := 23;
     blocked_categories := [] |}.

Record Engine := {
  config : Config;
  spend_tracker : SpendTracker;
  audit_log : list AuditEntry;
  kill_switch_active : bool;
  kill_switch_reason : Text;
  total_signals_processed : Z;
  total_blocked : Z;
  total_approved : Z
}.

(** [GovernanceEngine.__init__]. *)
Definition new_engine (cfg : option Config) : Engine :=
  let c := match cfg with Some c => c | None => _default_config end in
  {| config := c;
     spend_tracker := {| transactions := [];
                         peak_balance := initial_balance c;
                         current_balance := initial_balance c;
                         total_pnl := 0;
                         consecutive_losses := 0 |};
     audit_log := [];
     kill_switch_active := false;
     kill_switch_reason := [];
     total_signals_processed := 0;
     total_blocked := 0;
     total_approved := 0 |}.

(** The readings of the outside world made by one call of [evaluate_signal],
    in the order the code makes them. *)
Record Env := {
  now_daily : Z;          (* get_daily_spend in _check_daily_limit *)
  now_weekly : Z;         (* get_weekly_spend in _check_weekly_limit *)
  now_hours : Z;          (* _check_trading_hours *)
  now_state_daily : Z;    (* get_state: daily spend *)
  now_state_weekly : Z;   (* get_state: weekly spend *)
  now_stamp : Z;          (* the result's timestamp *)
  fresh_uuid : string;    (* uuid.uuid4() *)
  measured_latency_ms : Q
}.

Definition cents_to_dollars (c : Z) : Q := inject_Z c / 100.

Definition _check_kill_switch (e : Engine) : RuleEvaluation :=
  {| rule_id := "kill_switch";
     rule_name := "Kill Switch";
     rule_type := "KILL_SWITCH";
     passed := negb (kill_switch_active e);
     reason := if kill_switch_active e then kill_switch_reason e
               else [Lit "Kill switch not active"];
     details := [("active"%string, VBool (kill_switch_active e))] |}.

Definition _check_entry_quality (e : Engine) (s : PredictorSignal) : RuleEvaluation :=
  let allowed := allowed_signal_strengths (config e) in
  let ok := existsb (String.eqb (entry_quality s)) allowed in
  {| rule_id := "entry_quality_filter";
     rule_name := "Entry Quality Filter";
     rule_type := "SIGNAL_FILTER";
     passed := ok;
     reason := [Lit "Entry quality '"; Lit (entry_quality s); Lit "' ";
                Lit (if ok then "is" else "not in"); Lit " allowed: ";
                FmtL allowed];
     details := [("entry_quality"%string, VStr (entry_quality s));
                 ("allowed"%string, VStrs allowed)] |}.

Definition _check_ars_score (e : Engine) (s : PredictorSignal) : RuleEvaluation :=
  let min_score := min_ars_score (config e) in
  let ok := Qle_bool min_score (ars_score s) in
  {| rule_id := "ars_score_minimum";
     rule_name := "ARS Score Minimum";
     rule_type := "SIGNAL_FILTER";
     passed := ok;
     reason := [Lit "ARS score "; FmtF ".2f" (ars_score s); Lit " ";
                Lit (if ok then "≥" else "<"); Lit " minimum ";
                FmtF "" min_score];
     details := [("ars_score"%string, VNum (ars_score s));
                 ("minimum"%string, VNum min_score)] |}.

Definition _check_conviction (e : Engine) (s : PredictorSignal) : RuleEvaluation :=
  let min_conv := min_conviction (config e) in
  let ok := Qle_bool min_conv (conviction s) in
  {| rule_id := "conviction_minimum";
     rule_name := "Trader Conviction Minimum";
     rule_type := "SIGNAL_FILTER";
     passed := ok;
     reason := [Lit "Conviction "; FmtF ".0%" (conviction s); Lit " ";
                Lit (if ok then "≥" else "<"); Lit " minimum ";
                FmtF ".0%" min_conv];
     details := [("conviction"%string, VNum (conviction s));
                 ("minimum"%string, VNum min_conv)] |}.

Definition _check_per_trade_limit (e : Engine) (cost : Z) : RuleEvaluation :=
  let limit := max_per_trade_cents (config e) in
  let ok := (cost <=? limit)%Z in
  {| rule_id := "per_trade_limit";
     rule_name := "Per-Trade Spend Limit";
     rule_type := "PER_TRANSACTION_LIMIT";
     passed := ok;
     reason := [Lit "Trade cost $"; FmtF ".2f" (cents_to_dollars cost); Lit " ";
                Lit (if ok then "≤" else ">"); Lit " limit $";
                FmtF ".2f" (cents_to_dollars limit)];
     details := [("cost_cents"%string, VInt cost);
                 ("limit_cents"%string, VInt limit)] |}.

Definition _check_daily_limit (now : Z) (e : Engine) (cost : Z) : RuleEvaluation :=
  let limit := max_daily_spend_cents (config e) in
  let current := get_daily_spend now (spend_tracker e) in
  let projected := (current + cost)%Z in
  let ok := (projected <=? limit)%Z in
  {| rule_id := "daily_spend_limit";
     rule_name := "Daily Spend Limit";
     rule_type := "DAILY_LIMIT";
     passed := ok;
     reason := [Lit "Daily spend $"; FmtF ".2f" (cents_to_dollars projected);
                Lit " "; Lit (if ok then "≤" else ">"); Lit " limit $";
                FmtF ".2f" (cents_to_dollars limit); Lit " (current: $";
                FmtF ".2f" (cents_to_dollars current); Lit ")"];
     details := [("current_cents"%string, VInt current);
                 ("projected_cents"%string, VInt projected);
                 ("limit_cents"%string, VInt limit)] |}.

Definition _check_weekly_limit (now : Z) (e : Engine) (cost : Z) : RuleEvaluation :=
  let limit := max_weekly_spend_cents (config e) in
  let current := get_weekly_spend now (spend_tracker e) in
  let projected := (current + cost)%Z in
  let ok := (projected <=? limit)%Z in
  {| rule_id := "weekly_spend_limit";
     rule_name := "Weekly Spend Limit";
     rule_type := "WEEKLY_LIMIT";
     passed := ok;
     reason := [Lit "Weekly spend $"; FmtF ".2f" (cents_to_dollars projected);
                Lit " "; Lit (if ok then "≤" else ">"); Lit " limit $";
                FmtF ".2f" (cents_to_dollars limit)];
     details := [("current_cents"%string, VInt current);
                 ("projected_cents"%string, VInt projected);
                 ("limit_cents"%string, VInt limit)] |}.

(** [_check_drawdown] reads the tracker and may latch the kill switch: it
    returns the engine after the call next to the evaluation. *)
Definition _check_drawdown (e : Engine) : Engine * RuleEvaluation :=
  let threshold := drawdown_kill_switch_pct (config e) in
  let current_dd := get_drawdown (spend_tracker e) in
  let ok := Qlt_bool current_dd threshold in
  let e' :=
    if negb ok && negb (kill_switch_active e) then
      {| config := config e;
         spend_tracker := spend_tracker e;
         audit_log := audit_log e;
         kill_switch_active := true;
         kill_switch_reason :=
           [Lit "Drawdown "; FmtF ".1%" current_dd;
            Lit " exceeded threshold "; FmtF ".0%" threshold];
         total_signals_processed := total_signals_processed e;
         total_blocked := total_blocked e;
         total_approved := total_approved e |}
    else e in
  (e',
   {| rule_id := "drawdown_monitor";
      rule_name := "Drawdown Kill Switch";
      rule_type := "KILL_SWITCH";
      passed := ok;
      reason := [Lit "Drawdown "; FmtF ".1%" current_dd; Lit " ";
                 Lit (if ok then "<" else "≥"); Lit " threshold ";
                 FmtF ".0%" threshold];
      details := [("drawdown"%string, VNum current_dd);
                  ("threshold"%string, VNum threshold)] |}).

Definition _check_consecutive_losses (e : Engine) : RuleEvaluation :=
  let limit := consecutive_loss_limit (config e) in
  let current := consecutive_losses (spend_tracker e) in
  let ok := (current <? limit)%Z in
  {| rule_id := "consecutive_losses";
     rule_name := "Consecutive Loss Limit";
     rule_type := "KILL_SWITCH";
     passed := ok;
     reason := [FmtI current; Lit " consecutive losses ";
                Lit (if ok then "<" else "≥"); Lit " limit of "; FmtI limit];
     details := [("consecutive_losses"%string, VInt current);
                 ("limit"%string, VInt limit)] |}.

(** [datetime.hour] of a reading in microseconds. *)
Definition hour_of (now : Z) : Z := ((now / microseconds_per_hour) mod 24)%Z.

Definition _check_trading_hours (now : Z) (e : Engine) : RuleEvaluation :=
  let current_hour := hour_of now in
  let ok := ((trading_hours_start (config e) <=? current_hour)
             && (current_hour <? trading_hours_end (config e)))%Z in
  {| rule_id := "trading_hours";
     rule_name := "Trading Hours Window";
     rule_type := "TIME_WINDOW";
     passed := ok;
     reason := [Lit "Current hour "; FmtI current_hour; Lit " ";
                Lit (if ok then "within" else "outside"); Lit " ";
                FmtI (trading_hours_start (config e)); Lit ":00-";
                FmtI (trading_hours_end (config e)); Lit ":00"];
     details := [("current_hour"%string, VInt current_hour);
                 ("start"%string, VInt (trading_hours_start (config e)));
                 ("end"%string, VInt (trading_hours_end (config e)))] |}.

Definition _check_balance (e : Engine) (cost : Z) : RuleEvaluation :=
  let balance_cents := py_int (current_balance (spend_tracker e) * 100) in
  let ok := (cost <=? balance_cents)%Z in
  {| rule_id := "sufficient_balance";
     rule_name := "Sufficient Balance";
     rule_type := "BALANCE_CHECK";
     passed := ok;
     reason := [Lit "Balance $"; FmtF ".2f" (cents_to_dollars balance_cents);
                Lit " "; Lit (if ok then "≥" else "<"); Lit " cost $";
                FmtF ".2f" (cents_to_dollars cost)];
     details := [("balance_cents"%string, VInt balance_cents);
                 ("cost_cents"%string, VInt cost)] |}.

(** *** Main evaluation pipeline *)

Definition failed_kill_switch (ev : RuleEvaluation) : bool :=
  String.eqb (rule_type ev) "KILL_SWITCH" && negb (passed ev).

Definition order_price_cents (s : PredictorSignal) : Z :=
  py_int (current_price s * 100).

Definition order_contracts (e : Engine) (s : PredictorSignal) : Z :=
  Z.max 1
    (Z.min
       (py_int (recommended_size s * current_balance (spend_tracker e)
                / py_max (current_price s) (1 # 100)))
       (max_position_contracts (config e))).

Definition build_order_request (e : Engine) (s : PredictorSignal) : OrderRequest :=
  let price_cents := order_price_cents s in
  let contracts := order_contracts e s in
  {| ticker := market_slug s;
     side := direction s;
     action := "buy";
     count := contracts;
     type_ := "limit";
     price_key := direction s ++ "_price";
     price := price_cents;
     total_cost_cents := (price_cents * contracts)%Z;
     order_signal_id := signal_id s |}.

Definition decide (evaluations : list RuleEvaluation) : GovernanceDecision :=
  let failed_rules := filter (fun ev => negb (passed ev)) evaluations in
  let kill_switched := existsb failed_kill_switch evaluations in
  if kill_switched then KILL_SWITCHED
  else match failed_rules with
       | _ :: _ => BLOCKED
       | [] => APPROVED
       end.

Definition evaluate_signal (e0 : Engine) (env : Env) (s : PredictorSignal)
  : Engine * GovernanceResult :=
  let order := build_order_request e0 s in
  let cost := total_cost_cents order in
  (* 1. kill switch, 2. drawdown monitor (may latch the switch) *)
  let ev1 := _check_kill_switch e0 in
  let '(e, ev2) := _check_drawdown e0 in
  let evaluations :=
    [ ev1; ev2;
      _check_consecutive_losses e;
      _check_entry_quality e s;
      _check_ars_score e s;
      _check_conviction e s;
      _check_per_trade_limit e cost;
      _check_daily_limit (now_daily env) e cost;
      _check_weekly_limit (now_weekly env) e cost;
      _check_balance e cost;
      _check_trading_hours (now_hours env) e ] in
  let d := decide evaluations in
  let result :=
    {| evaluation_id := fresh_uuid env;
       signal := s;
       decision := d;
       rules_evaluated := evaluations;
       order_request := if decision_eqb d APPROVED then Some order else None;
       execution_result := None;
       wallet_state := get_state (now_state_daily env) (now_state_weekly env)
                                 (spend_tracker e);
       timestamp := now_stamp env;
       latency_ms := measured_latency_ms env |} in
  ({| config := config e;
      spend_tracker := spend_tracker e;
      audit_log := audit_log e ++ [to_audit_entry result];
      kill_switch_active := kill_switch_active e;
      kill_switch_reason := kill_switch_reason e;
      total_signals_processed := (total_signals_processed e + 1)%Z;
      total_blocked := if decision_eqb d APPROVED then total_blocked e
                       else (total_blocked e + 1)%Z;
      total_approved := if decision_eqb d APPROVED then (total_approved e + 1)%Z
                        else total_approved e |},
   result).

(** The readings of the outside world made by [execute_approved_trade]. *)
Record ExecEnv := {
  now_trade : Z;        (* the timestamp of the recorded transaction *)
  exec_uuid : string;   (* the order id *)
  now_filled : Z
}.

Definition with_spend_tracker (e : Engine) (t : SpendTracker) : Engine :=
  {| config := config e;
     spend_tracker := t;
     audit_log := audit_log e;
     kill_switch_active := kill_switch_active e;
     kill_switch_reason := kill_switch_reason e;
     total_signals_processed := total_signals_processed e;
     total_blocked := total_blocked e;
     total_approved := total_approved e |}.

Definition with_execution (r : GovernanceResult) (x : ExecutionResult)
  : GovernanceResult :=
  {| evaluation_id := evaluation_id r;
     signal := signal r;
     decision := decision r;
     rules_evaluated := rules_evaluated r;
     order_request := order_request r;
     execution_result := Some x;
     wallet_state := wallet_state r;
     timestamp := timestamp r;
     latency_ms := latency_ms r |}.

(** [execute_approved_trade].  Subscripting a missing order request raises
    [TypeError]; nothing has been mutated at that point. *)
Definition execute_approved_trade (e : Engine) (x : ExecEnv) (r : GovernanceResult)
  : Outcome (Engine * GovernanceResult) :=
  if negb (decision_eqb (decision r) APPROVED) then Returned (e, r)
  else match order_request r with
       | None => Raised "TypeError"
       | Some o =>
           let cost := total_cost_cents o in
           Returned
             (with_spend_tracker e
                (record_trade (now_trade x) (spend_tracker e) cost 0),
              with_execution r
                {| status := "executed";
                   order_id := exec_uuid x;
                   filled_at := now_filled x;
                   cost_cents := cost |})
       end.

(** *** Kill switch controls *)

Definition activate_kill_switch (e : Engine) (uuid : string) (now : Z)
  (why : string) : Engine :=
  {| config := config e;
     spend_tracker := spend_tracker e;
     audit_log := audit_log e ++ [AuditKillSwitchActivated uuid now why];
     kill_switch_active := true;
     kill_switch_reason := [Lit why];
     total_signals_processed := total_signals_processed e;
     total_blocked := total_blocked e;
     total_approved := total_approved e |}.

Definition reset_kill_switch (e : Engine) (uuid : string) (now : Z)
  (authorized_by : string) : Engine :=
  {| config := config e;
     spend_tracker := spend_tracker e;
     audit_log := audit_log e ++ [AuditKillSwitchReset uuid now authorized_by];
     kill_switch_active := false;
     kill_switch_reason := [];
     total_signals_processed := total_signals_processed e;
     total_blocked := total_blocked e;
     total_approved := total_approved e |}.

(** *** The engine as a state machine

    The operations a caller performs on one engine instance: the methods of
    the engine, and the two direct accesses [live_trader.py] makes to its
    tracker ([spend_tracker.record_trade], and the balance refresh). *)

Inductive Op :=
| OpEvaluate (env : Env) (s : PredictorSignal)
| OpExecute (x : ExecEnv) (r : GovernanceResult)
| OpActivate (uuid : string) (now : Z) (why : string)
| OpReset (uuid : string) (now : Z) (authorized_by : string)
| OpRecordTrade (now : Z) (amount_cents : Z) (pnl : Q)
| OpSetBalance (balance : Q).

Definition is_reset (o : Op) : bool :=
  match o with OpReset _ _ _ => true | _ => false end.

Definition set_balance (t : SpendTracker) (b : Q) : SpendTracker :=
  {| transactions := transactions t;
     peak_balance := peak_balance t;
     current_balance := b;
     total_pnl := total_pnl t;
     consecutive_losses := consecutive_losses t |}.

(** One operation: the engine afterwards, and the result when the operation
    is an evaluation.  A raising call leaves the engine as it was. *)
Definition step (e : Engine) (o : Op) : Engine * option GovernanceResult :=
  match o with
  | OpEvaluate env s =>
      let '(e', r) := evaluate_signal e env s in (e', Some r)
  | OpExecute x r =>
      match execute_approved_trade e x r with
      | Returned (e', _) => (e', None)
      | Raised _ => (e, None)
      end
  | OpActivate uuid now why => (activate_kill_switch e uuid now why, None)
  | OpReset uuid now by_ => (reset_kill_switch e uuid now by_, None)
  | OpRecordTrade now amount pnl =>
      (with_spend_tracker e (record_trade now (spend_tracker e) amount pnl), None)
  | OpSetBalance b =>
      (with_spend_tracker e (set_balance (spend_tracker e) b), None)
  end.

(** A sequence of operations: the final engine and the results of the
    evaluations, in call order. *)
Fixpoint run (e : Engine) (ops : list Op) : Engine * list GovernanceResult :=
  match ops with
  | [] => (e, [])
  | o :: rest =>
      let '(e', r) := step e o in
      let '(e'', rs) := run e' rest in
      (e'', match r with Some x => x :: rs | None => rs end)
  end.

(** *** Vocabulary of the specification and concrete scenarios *)

(** The fixed battery, by rule identifier, in evaluation order. *)
Definition rule_battery : list string :=
  [ "kill_switch"; "drawdown_monitor"; "consecutive_losses";
    "entry_quality_filter"; "ars_score_minimum"; "conviction_minimum";
    "per_trade_limit"; "daily_spend_limit"; "weekly_spend_limit";
    "sufficient_balance"; "trading_hours" ]%string.

(** Some evaluation of type KILL_SWITCH failed. *)
Definition kill_switch_failure (evs : list RuleEvaluation) : Prop :=
  exists ev, In ev evs /\ rule_type ev = "KILL_SWITCH"%string /\ passed ev = false.

(** Some evaluation failed. *)
Definition some_failure (evs : list RuleEvaluation) : Prop :=
  exists ev, In ev evs /\ passed ev = false.

(** The drawdown reported by the tracker has reached the configured threshold. *)
Definition drawdown_reached (e : Engine) : Prop :=
  drawdown_kill_switch_pct (config e) <= get_drawdown (spend_tracker e).

Definition no_reset (ops : list Op) : Prop :=
  Forall (fun o => is_reset o = false) ops.

Definition all_kill_switched (rs : list GovernanceResult) : Prop :=
  Forall (fun r => decision r = KILL_SWITCHED) rs.

(** A fixed environment and signals for the concrete scenarios: 10:00 UTC on
    the first day of the epoch. *)
Definition env_10h : Env :=
  {| now_daily := 36000000000;
     now_weekly := 36000000000;
     now_hours := 36000000000;
     now_state_daily := 36000000000;
     now_state_weekly := 36000000000;
     now_stamp := 36000000000;
     fresh_uuid := "00000000-0000-4000-8000-000000000001";
     measured_latency_ms := 1 # 10 |}.

Definition signal_at (price : Q) : PredictorSignal :=
  {| signal_id := "sig_001";
     market_slug := "KXBTC-26FEB-B100K";
     market_title := "Bitcoin above $100k on Feb 28?";
     direction := "yes";
     conviction := 35 # 100;
     num_traders := 7;
     total_size := 45000;
     avg_entry_price := 52 # 100;
     current_price := price;
     expected_edge := 115 # 1000;
     entry_quality := "good";
     ars_score := 72 # 100;
     recommended_size := 4 # 100;
     traders := ["whale_01"; "shark_02"; "prof_03"]%string;
     generated_at := "1970-01-01T10:00:00" |}.

(** The first demo signal of [run_demo]. *)
Definition demo_signal : PredictorSignal := signal_at (58 # 100).

Definition default_engine : Engine := new_engine None.

(** An engine whose balance fell from 500 to [b] (the balance refresh of
    [live_trader.py]). *)
Definition engine_with_balance (b : Q) : Engine :=
  fst (step default_engine (OpSetBalance b)).

(** The engine after its balance fell from 500 to 375: a drawdown of 25%
    against the default threshold of 20%. *)
Definition engine_in_drawdown : Engine := engine_with_balance 375.

Definition exec_env_10h : ExecEnv :=
  {| now_trade := 36000000000;
     exec_uuid := "00000000-0000-4000-8000-000000000002";
     now_filled := 36000000000 |}.

(** A later stretch of activity on the engine, without a reset: the balance
    recovers, a trade is recorded, the switch is activated again by hand and
    two more signals are evaluated. *)
Definition later_activity : list Op :=
  [ OpSetBalance 500;
    OpEvaluate env_10h demo_signal;
    OpRecordTrade 36000000000 500 0;
    OpActivate "00000000-0000-4000-8000-000000000003" 36000000000 "manual";
    OpEvaluate env_10h (signal_at (73 # 100)) ].



Definition clamp (v lo hi : Z) : Z := Z.max lo (Z.min v hi).

(** The contract count before clamping, as a rational. *)
Definition affordable_contracts (e : Engine) (s : PredictorSignal) : Q :=
  recommended_size s * current_balance (spend_tracker e)
  / Qmax (current_price s) (1 # 100).




(** Recording an execution is refused with an exception. *)
Definition execution_rejected (e : Engine) (x : ExecEnv) (r : GovernanceResult)
  : Prop :=
  exists exn, execute_approved_trade e x r = Raised exn.

(** The third demo signal of [run_demo], blocked for its entry quality and
    its ARS score. *)
Definition late_signal : PredictorSignal :=
  {| signal_id := "sig_003";
     market_slug := "KXAI-26FEB-GPT5";
     market_title := "GPT-5 released before March 2026?";
     direction := "yes";
     conviction := 10 # 100;
     num_traders := 2;
     total_size := 12000;
     avg_entry_price := 15 # 100;
     current_price := 82 # 100;
     expected_edge := 447 # 100;
     entry_quality := "very_late";
     ars_score := 18 # 100;
     recommended_size := 1 # 100;
     traders := ["tech_bet_01"]%string;
     generated_at := "1970-01-01T10:00:00" |}.

Definition blocked_result : GovernanceResult :=
  snd (evaluate_signal default_engine env_10h late_signal).

(** Five losing trades in a row, each of no cost. *)
Definition losing_streak : list Op :=
  [ OpRecordTrade 36000000000 0 (-1);
    OpRecordTrade 36000000000 0 (-1);
    OpRecordTrade 36000000000 0 (-1);
    OpRecordTrade 36000000000 0 (-1);
    OpRecordTrade 36000000000 0 (-1) ].

Definition engine_after_losses : Engine := fst (run default_engine losing_streak).

(** The signal of the specification's scenarios: three participants on YES,
    conviction 0.3, ARS score 0.8, price 0.50. *)
Definition scenario_signal (quality : string) (size_fraction : Q) : PredictorSignal :=
  {| signal_id := "sig_scenario";
     market_slug := "MARKET-M";
     market_title := "Market M";
     direction := "yes";
     conviction := 3 # 10;
     num_traders := 3;
     total_size := 9000;
     avg_entry_price := 48 # 100;
     current_price := 1 # 2;
     expected_edge := 4 # 100;
     entry_quality := quality;
     ars_score := 8 # 10;
     recommended_size := size_fraction;
     traders := ["p1"; "p2"; "p3"]%string;
     generated_at := "1970-01-01T10:00:00" |}.

(** The rules that failed, by identifier. *)
Definition failed_rule_ids (r : GovernanceResult) : list string :=
  map rule_id (filter (fun ev => negb (passed ev)) (rules_evaluated r)).

(** The engine after $48 were spent within the last day. *)
Definition engine_after_spending : Engine :=
  fst (step default_engine (OpRecordTrade 35000000000 4800 0)).

(** The balance recovers, the switch is reset, a signal is evaluated. *)
Definition recovery_with_reset : list Op :=
  [ OpSetBalance 500;
    OpReset "00000000-0000-4000-8000-000000000004" 36000000000 "risk_officer";
    OpEvaluate env_10h demo_signal ].

(** The evaluations of one call, spelled out. *)
Definition battery (e : Engine) (env : Env) (s : PredictorSignal)
  : list RuleEvaluation :=
  let cost := total_cost_cents (build_order_request e s) in
  let e1 := fst (_check_drawdown e) in
  [ _check_kill_switch e;
    snd (_check_drawdown e);
    _check_consecutive_losses e1;
    _check_entry_quality e1 s;
    _check_ars_score e1 s;
    _check_conviction e1 s;
    _check_per_trade_limit e1 cost;
    _check_daily_limit (now_daily env) e1 cost;
    _check_weekly_limit (now_weekly env) e1 cost;
    _check_balance e1 cost;
    _check_trading_hours (now_hours env) e1 ].

(** *** Further operations of the engine and their vocabulary *)

(** [get_stats]; the three config entries are formatted amounts. *)
Record Stats := {
  st_signals_processed : Z;
  st_approved : Z;
  st_blocked : Z;
  st_approval_rate : Q;
  st_kill_switch_active : bool;
  st_wallet : WalletState;
  st_max_per_trade : Text;
  st_max_daily : Text;
  st_drawdown_threshold : Text
}.

Definition get_stats (now_daily now_weekly : Z) (e : Engine) : Stats :=
  {| st_signals_processed := total_signals_processed e;
     st_approved := total_approved e;
     st_blocked := total_blocked e;
     st_approval_rate :=
       inject_Z (total_approved e)
       / inject_Z (Z.max (total_signals_processed e) 1);
     st_kill_switch_active := kill_switch_active e;
     st_wallet := get_state now_daily now_weekly (spend_tracker e);
     st_max_per_trade :=
       [Lit "$"; FmtF ".0f" (cents_to_dollars (max_per_trade_cents (config e)))];
     st_max_daily :=
       [Lit "$"; FmtF ".0f" (cents_to_dollars (max_daily_spend_cents (config e)))];
     st_drawdown_threshold :=
       [FmtF ".0%" (drawdown_kill_switch_pct (config e))] |}.

(** A recorded trade: the clock reading, the amount in cents, the P&L. *)
Record TradeRecord := {
  tr_now : Z;
  tr_amount_cents : Z;
  tr_pnl : Q
}.

(** [record_trade] called for each trade in turn. *)
Definition record_trades (t : SpendTracker) (trades : list TradeRecord) : SpendTracker :=
  fold_left (fun t tr => record_trade (tr_now tr) t (tr_amount_cents tr) (tr_pnl tr))
            trades t.

Definition transaction_of (tr : TradeRecord) : Transaction :=
  {| tx_timestamp := tr_now tr;
     tx_amount_cents := tr_amount_cents tr;
     tx_pnl := tr_pnl tr |}.

Definition is_loss (pnl : Q) : bool := Qlt_bool pnl 0.

(** The number of losses at the head of a list. *)
Fixpoint leading_losses (pnls : list Q) : nat :=
  match pnls with
  | p :: rest => if is_loss p then S (leading_losses rest) else 0%nat
  | [] => 0%nat
  end.

(** The number of losses since the last trade that was not one. *)
Definition trailing_losses (pnls : list Q) : nat := leading_losses (rev pnls).

(** The amounts recorded at or after [since]. *)
Definition amounts_since (since : Z) (trades : list TradeRecord) : list Z :=
  map tr_amount_cents (filter (fun tr => (since <=? tr_now tr)%Z) trades).

Definition nonnegative_ledger (t : SpendTracker) : Prop :=
  Forall (fun x => (0 <= tx_amount_cents x)%Z) (transactions t).

(** The eleven conditions of the battery, as conditions on the engine, the
    clock and the signal. *)
Definition approvable (e : Engine) (env : Env) (s : PredictorSignal) : Prop :=
  let cost := total_cost_cents (build_order_request e s) in
  kill_switch_active e = false /\
  get_drawdown (spend_tracker e) < drawdown_kill_switch_pct (config e) /\
  (consecutive_losses (spend_tracker e) < consecutive_loss_limit (config e))%Z /\
  In (entry_quality s) (allowed_signal_strengths (config e)) /\
  min_ars_score (config e) <= ars_score s /\
  min_conviction (config e) <= conviction s /\
  (cost <= max_per_trade_cents (config e))%Z /\
  (get_daily_spend (now_daily env) (spend_tracker e) + cost
   <= max_daily_spend_cents (config e))%Z /\
  (get_weekly_spend (now_weekly env) (spend_tracker e) + cost
   <= max_weekly_spend_cents (config e))%Z /\
  (cost <= py_int (current_balance (spend_tracker e) * 100))%Z /\
  (trading_hours_start (config e) <= hour_of (now_hours env)
   < trading_hours_end (config e))%Z.

(** The counters of the engine add up. *)
Definition counters_consistent (e : Engine) : Prop :=
  (total_approved e + total_blocked e = total_signals_processed e)%Z /\
  (0 <= total_approved e)%Z /\ (0 <= total_blocked e)%Z.

Definition is_evaluate (o : Op) : bool :=
  match o with OpEvaluate _ _ => true | _ => false end.

(** The operations that write to the audit log. *)
Definition is_audited (o : Op) : bool :=
  match o with
  | OpEvaluate _ _ | OpActivate _ _ _ | OpReset _ _ _ => true
  | _ => false
  end.

Definition is_evaluation_entry (a : AuditEntry) : bool :=
  match a with AuditEvaluation _ _ _ _ _ _ _ _ _ _ _ => true | _ => false end.

(** Fields of an evaluation entry of the audit log. *)
Definition entry_rules_checked (a : AuditEntry) : option nat :=
  match a with
  | AuditEvaluation _ _ _ _ _ _ checked _ _ _ _ => Some checked
  | _ => None
  end.

Definition entry_rules_failed (a : AuditEntry) : option nat :=
  match a with
  | AuditEvaluation _ _ _ _ _ _ _ failed _ _ _ => Some failed
  | _ => None
  end.

Definition entry_blocking_rules (a : AuditEntry) : option (list string) :=
  match a with
  | AuditEvaluation _ _ _ _ _ _ _ _ blocking _ _ => Some blocking
  | _ => None
  end.

Definition entry_order_value (a : AuditEntry) : option Z :=
  match a with
  | AuditEvaluation _ _ _ _ _ _ _ _ _ value _ => value
  | _ => None
  end.

Definition entry_decision (a : AuditEntry) : option string :=
  match a with
  | AuditEvaluation _ _ _ _ _ dec _ _ _ _ _ => Some dec
  | _ => None
  end.

End Governance.

(** ** stabilizer.py *)

(** *** numpy on one-dimensional arrays

    Arrays are lists.  numpy's elementwise division does not raise on a zero
    divisor (it yields inf or nan); the embedding then yields [0].  Indexing
    an empty array raises; the embedding then reads [0].  The theorems about
    [detect_market_regime] are stated for series of positive prices and
    windows of at least two prices, where neither happens. *)

(** [xs[start:]]. *)
Definition py_slice_from {A : Type} (start : Z) (xs : list A) : list A :=
  let len := Z.of_nat (List.length xs) in
  let i := if (start <? 0)%Z then Z.max (start + len) 0 else Z.min start len in
  skipn (Z.to_nat i) xs.

(** [np.diff(xs)]: [xs[1:] - xs[:-1]]. *)
Definition np_diff (xs : list Q) : list Q :=
  map (fun '(b, a) => b - a) (combine (tl xs) (removelast xs)).

(** [xs / ys], elementwise. *)
Definition np_divide (xs ys : list Q) : list Q :=
  map (fun '(x, y) => x / y) (combine xs ys).

Definition np_mean (xs : list Q) : Q :=
  py_sum xs / inject_Z (Z.of_nat (List.length xs)).

(** [np.var(xs)]: the mean of the squared deviations from the mean. *)
Definition np_var (xs : list Q) : Q :=
  let m := np_mean xs in
  np_mean (map (fun x => (x - m) * (x - m)) xs).

(** [np.std(xs) > t].  [np.std] is the non-negative square root of [np_var];
    the comparison is decided on the squares (see [np_std_gt_sqrt]). *)
Definition np_std_gt (xs : list Q) (t : Q) : bool :=
  Qlt_bool t 0 || Qlt_bool (t * t) (np_var xs).

(** [np.sign]. *)
Definition np_sign (x : Q) : Z :=
  match Qcompare x 0 with
  | Lt => (-1)%Z
  | Eq => 0%Z
  | Gt => 1%Z
  end.

(** [np.diff] on an integer array. *)
Definition np_diff_int (xs : list Z) : list Z :=
  map (fun '(b, a) => (b - a)%Z) (combine (tl xs) (removelast xs)).

(** [np.sum(xs != 0)]. *)
Definition np_count_nonzero (xs : list Z) : nat :=
  List.length (filter (fun x => negb (x =? 0)%Z) xs).

Module Stabilizer.

Inductive MarketRegime := CALM | VOLATILE | TRENDING | CHOPPY.

Record ARSConfig := {
  outlier_std_threshold : Q;
  min_sample_size : Z;
  consistency_lookback_days : Z;
  min_trades_for_consistency : Z;
  consistency_decay_rate : Q;
  base_position_size : Q;
  max_position_size : Q;
  min_position_size : Q;
  conviction_scaling : Q;
  max_daily_drawdown : Q;
  max_total_drawdown : Q;
  drawdown_reduction_rate : Q;
  volatility_lookback_periods : Z;
  high_volatility_threshold : Q;
  (* a dict read with [.get(regime, 1.0)] *)
  regime_position_adjustments : MarketRegime -> option Q
}.

(** [ARSConfig()] with [__post_init__] applied. *)
Definition default_config : ARSConfig :=
  {| outlier_std_threshold := 2;
     min_sample_size := 5;
     consistency_lookback_days := 90;
     min_trades_for_consistency := 20;
     consistency_decay_rate := 95 # 100;
     base_position_size := 5 # 100;
     max_position_size := 15 # 100;
     min_position_size := 1 # 100;
     conviction_scaling := 2;
     max_daily_drawdown := 10 # 100;
     max_total_drawdown := 25 # 100;
     drawdown_reduction_rate := 1 # 2;
     volatility_lookback_periods := 20;
     high_volatility_threshold := 3 # 10;
     regime_position_adjustments := fun r =>
       match r with
       | CALM => Some 1
       | VOLATILE => Some (1 # 2)
       | TRENDING => Some (12 # 10)
       | CHOPPY => Some (3 # 10)
       end |}.

Definition regime_factor_of (cfg : ARSConfig) (regime : MarketRegime) : Q :=
  match regime_position_adjustments cfg regime with
  | Some f => f
  | None => 1
  end.

(** [detect_market_regime]. *)
Definition detect_market_regime (cfg : ARSConfig) (prices : list Q) : MarketRegime :=
  if (Z.of_nat (List.length prices) <? volatility_lookback_periods cfg)%Z then CALM
  else
    let prices := py_slice_from (- volatility_lookback_periods cfg) prices in
    let returns := np_divide (np_diff prices) (removelast prices) in
    (* volatility = np.std(returns), compared below *)
    let trend := (last prices 0 - hd 0 prices) / hd 0 prices in
    let trend_strength := Qabs trend in
    let direction_changes := np_count_nonzero (np_diff_int (map np_sign returns)) in
    let choppiness := inject_Z (Z.of_nat direction_changes)
                      / inject_Z (Z.of_nat (List.length returns)) in
    if np_std_gt returns (high_volatility_threshold cfg) then VOLATILE
    else if Qlt_bool (1 # 10) trend_strength && Qlt_bool choppiness (3 # 10)
         then TRENDING
    else if Qlt_bool (6 # 10) choppiness then CHOPPY
    else CALM.

(** Step 4 of [process_signal]: the regime used for a signal. *)
Definition process_signal_regime (cfg : ARSConfig) (market_prices : option (list Q))
  : MarketRegime :=
  match market_prices with
  | Some ((_ :: _) as prices) =>
      if (10 <=? Z.of_nat (List.length prices))%Z
      then detect_market_regime cfg prices
      else CALM
  | _ => CALM
  end.

(** [calculate_position_size]; [current_drawdown] is the stabilizer's field. *)
Definition calculate_position_size (cfg : ARSConfig) (current_drawdown : Q)
  (conviction : Q) (regime : MarketRegime) (current_exposure : Q) : Outcome Q :=
  let base := base_position_size cfg in
  let conviction_adjusted :=
    base * (1 + (conviction - (1 # 2)) * conviction_scaling cfg) in
  let regime_factor := regime_factor_of cfg regime in
  let regime_adjusted := conviction_adjusted * regime_factor in
  let drawdown_factor :=
    if Qlt_bool (max_daily_drawdown cfg / 2) current_drawdown then
      match py_div current_drawdown (max_total_drawdown cfg) with
      | Raised exn => Raised exn
      | Returned d => Returned (py_max (1 - d) (drawdown_reduction_rate cfg))
      end
    else Returned 1 in
  match drawdown_factor with
  | Raised exn => Raised exn
  | Returned drawdown_factor =>
      let remaining_capacity := 1 - current_exposure in
      let final_size := regime_adjusted * drawdown_factor in
      let final_size :=
        py_min (py_min final_size remaining_capacity) (max_position_size cfg) in
      let final_size := py_max final_size (min_position_size cfg) in
      Returned final_size
  end.

(** *** The regime classification as the specification words it *)







(** *** Vocabulary of the specification and concrete scenarios *)

(** The sizing invariant as the specification states it: a size is returned,
    inside the configured band and within the remaining exposure capacity. *)
Definition sizing_as_specified (cfg : ARSConfig) (current_drawdown conviction : Q)
  (regime : MarketRegime) (current_exposure : Q) : Prop :=
  exists size,
    calculate_position_size cfg current_drawdown conviction regime current_exposure
    = Returned size /\
    min_position_size cfg <= size <= max_position_size cfg /\
    size <= 1 - current_exposure.





(** *** The other operations of the stabilizer *)

(** The mutable fields of the stabilizer; [last_reset] is a clock reading in
    microseconds. *)
Record RiskState := {
  current_drawdown : Q;
  daily_pnl : Q;
  last_reset : Z
}.

(** [datetime.date()] of a reading, as a day number. *)
Definition date_of (now : Z) : Z := (now / 86400000000)%Z.

(** [np.clip(x, lo, hi)]. *)
Definition np_clip (x lo hi : Q) : Q := py_min (py_max x lo) hi.

(** [np.abs((x - mean) / std) < t] for [std] the square root of a positive
    [var], decided on the squares (see [z_score_below_sqrt]). *)
Definition z_score_below (x mean var t : Q) : bool :=
  Qlt_bool 0 t && Qlt_bool ((x - mean) * (x - mean)) (t * t * var).

(** [filter_outliers].  [labels] is [None] when the argument is omitted;
    indexing [labels] past its end raises.  On an empty array the mean and the
    deviation are nan, which equals nothing, and the mask is empty. *)
Definition filter_outliers (cfg : ARSConfig) (values : list Q)
  (labels : option (list string)) : Outcome (list Q * list string) :=
  let labels_or_empty := match labels with Some l => l | None => [] end in
  if (Z.of_nat (List.length values) <? min_sample_size cfg)%Z
  then Returned (values, labels_or_empty)
  else
    match values with
    | [] => Returned ([], [])
    | _ :: _ =>
    let mean := np_mean values in
    let var := np_var values in
    if Qeq_bool var 0 then Returned (values, labels_or_empty)
    else
      let mask :=
        map (fun x => z_score_below x mean var (outlier_std_threshold cfg)) values in
      let filtered_values :=
        map fst (filter snd (combine values mask)) in
      match labels_or_empty with
      | [] => Returned (filtered_values, [])
      | _ :: _ =>
          let kept := map fst (filter snd (combine (seq 0 (List.length mask)) mask)) in
          if forallb (fun i => (i <? List.length labels_or_empty)%nat) kept
          then Returned (filtered_values,
                         map (fun i => nth i labels_or_empty ""%string) kept)
          else Raised "IndexError"
      end
    end.

(** One supporting trader: a dict read with [.get]. *)
Record SupportingTrader := {
  st_wallet : option string;
  st_position_size : option Q;
  st_pnl : option Q;
  st_win_rate : option Q
}.

Definition get_or {A : Type} (o : option A) (default : A) : A :=
  match o with Some x => x | None => default end.

(** [x in xs] for [x] the result of [.get("wallet")], [None] when missing. *)
Definition wallet_in (w : option string) (ws : list string) : bool :=
  match w with
  | Some w => existsb (String.eqb w) ws
  | None => false
  end.

(** The ARS-processed signal. *)
Record Signal := {
  market_id : string;
  market_title : string;
  direction : string;
  raw_conviction : Q;
  ars_conviction : Q;
  recommended_size : Q;
  source_traders : list string;
  avg_trader_consistency : Q;
  regime_adjustment : Q;
  expires_at : Z;
  meta_regime : MarketRegime;
  meta_num_traders_original : Z;
  meta_num_traders_filtered : Z;
  meta_outliers_removed : Z
}.

Definition consistency_of (t : SupportingTrader) : Q :=
  get_or (st_win_rate t) (1 # 2) * (6 # 10)
  + (if Qlt_bool 0 (get_or (st_pnl t) 0) then 4 # 10 else 0).

(** [process_signal]; [now] is the reading behind [expires_at]. *)
Definition process_signal (cfg : ARSConfig) (state : RiskState) (now : Z)
  (market_id_ market_title_ direction_ : string)
  (supporting_traders : list SupportingTrader)
  (market_prices : option (list Q)) (current_exposure : Q) : Outcome Signal :=
  let num_traders := Z.of_nat (List.length supporting_traders) in
  let raw := py_min (inject_Z num_traders / 10) 1 in
  let position_sizes := map (fun t => get_or (st_position_size t) 0) supporting_traders in
  let wallets := map (fun t => get_or (st_wallet t) ""%string) supporting_traders in
  match filter_outliers cfg position_sizes (Some wallets) with
  | Raised exn => Raised exn
  | Returned (_, filtered_wallets) =>
      let consistency_scores :=
        map consistency_of
            (filter (fun t => wallet_in (st_wallet t) filtered_wallets)
                    supporting_traders) in
      let avg_consistency :=
        match consistency_scores with
        | [] => 1 # 2
        | _ :: _ => np_mean consistency_scores
        end in
      let regime := process_signal_regime cfg market_prices in
      let regime_factor := regime_factor_of cfg regime in
      let ars := raw * avg_consistency in
      let ars := ars * ((1 # 2) + (1 # 2) * regime_factor) in
      let ars := np_clip ars 0 1 in
      match calculate_position_size cfg (current_drawdown state) ars regime
                                    current_exposure with
      | Raised exn => Raised exn
      | Returned size_ =>
          Returned
            {| market_id := market_id_;
               market_title := market_title_;
               direction := direction_;
               raw_conviction := raw;
               ars_conviction := ars;
               recommended_size := size_;
               source_traders := filtered_wallets;
               avg_trader_consistency := avg_consistency;
               regime_adjustment := regime_factor;
               expires_at := (now + 24 * 3600000000)%Z;
               meta_regime := regime;
               meta_num_traders_original := num_traders;
               meta_num_traders_filtered := Z.of_nat (List.length filtered_wallets);
               meta_outliers_removed :=
                 (num_traders - Z.of_nat (List.length filtered_wallets))%Z |}
      end
  end.

(** [update_drawdown]; [now_check] and [now_reset] are the two readings of
    the clock. *)
Definition update_drawdown (state : RiskState) (now_check now_reset : Z) (pnl : Q)
  : RiskState :=
  let daily := daily_pnl state + pnl in
  let '(daily, reset) :=
    if (date_of (last_reset state) <? date_of now_check)%Z
    then (pnl, now_reset) else (daily, last_reset state) in
  {| current_drawdown :=
       if Qlt_bool daily 0 then Qabs daily
       else py_max 0 (current_drawdown state - pnl);
     daily_pnl := daily;
     last_reset := reset |}.

(** [should_stop_trading]. *)
Definition should_stop_trading (cfg : ARSConfig) (state : RiskState) : bool * Text :=
  if Qle_bool (max_daily_drawdown cfg) (current_drawdown state)
  then (true, [Lit "Daily drawdown limit reached ("; FmtF ".1%" (current_drawdown state);
               Lit ")"])
  else if Qle_bool (max_total_drawdown cfg) (current_drawdown state)
  then (true, [Lit "Total drawdown limit reached ("; FmtF ".1%" (current_drawdown state);
               Lit ")"])
  else (false, []).

(** [AdaptiveRiskStabilizer.__init__]: the state of a new stabilizer. *)
Definition new_state (now : Z) : RiskState :=
  {| current_drawdown := 0; daily_pnl := 0; last_reset := now |}.

(** [create_ars]: the configuration chosen. *)
Definition create_ars (conservative aggressive : bool) : ARSConfig :=
  let d := default_config in
  if conservative then
    {| outlier_std_threshold := outlier_std_threshold d;
       min_sample_size := min_sample_size d;
       consistency_lookback_days := consistency_lookback_days d;
       min_trades_for_consistency := min_trades_for_consistency d;
       consistency_decay_rate := consistency_decay_rate d;
       base_position_size := 3 # 100;
       max_position_size := 10 # 100;
       min_position_size := min_position_size d;
       conviction_scaling := 15 # 10;
       max_daily_drawdown := 5 # 100;
       max_total_drawdown := 15 # 100;
       drawdown_reduction_rate := drawdown_reduction_rate d;
       volatility_lookback_periods := volatility_lookback_periods d;
       high_volatility_threshold := high_volatility_threshold d;
       regime_position_adjustments := regime_position_adjustments d |}
  else if aggressive then
    {| outlier_std_threshold := outlier_std_threshold d;
       min_sample_size := min_sample_size d;
       consistency_lookback_days := consistency_lookback_days d;
       min_trades_for_consistency := min_trades_for_consistency d;
       consistency_decay_rate := consistency_decay_rate d;
       base_position_size := 8 # 100;
       max_position_size := 20 # 100;
       min_position_size := min_position_size d;
       conviction_scaling := 25 # 10;
       max_daily_drawdown := 15 # 100;
       max_total_drawdown := 35 # 100;
       drawdown_reduction_rate := drawdown_reduction_rate d;
       volatility_lookback_periods := volatility_lookback_periods d;
       high_volatility_threshold := high_volatility_threshold d;
       regime_position_adjustments := regime_position_adjustments d |}
  else d.

(** The demo of the module: five traders, the last one far larger. *)
Definition demo_traders : list SupportingTrader :=
  [ {| st_wallet := Some "0x1..."%string; st_position_size := Some 1000;
       st_pnl := Some 5000; st_win_rate := Some (62 # 100) |};
    {| st_wallet := Some "0x2..."%string; st_position_size := Some 800;
       st_pnl := Some 3000; st_win_rate := Some (58 # 100) |};
    {| st_wallet := Some "0x3..."%string; st_position_size := Some 1200;
       st_pnl := Some 8000; st_win_rate := Some (65 # 100) |};
    {| st_wallet := Some "0x4..."%string; st_position_size := Some 500;
       st_pnl := Some 1500; st_win_rate := Some (55 # 100) |};
    {| st_wallet := Some "0x5..."%string; st_position_size := Some 50000;
       st_pnl := Some 100; st_win_rate := Some (51 # 100) |} ].

Definition demo_prices : list Q :=
  [45 # 100; 47 # 100; 46 # 100; 48 # 100; 50 # 100;
   49 # 100; 52 # 100; 55 # 100; 54 # 100; 56 # 100].

(** Which values [filter_outliers] keeps, one flag per value. *)
Definition keep_mask (cfg : ARSConfig) (values : list Q) : list bool :=
  if (Z.of_nat (List.length values) <? min_sample_size cfg)%Z
  then map (fun _ => true) values
  else if Qeq_bool (np_var values) 0 then map (fun _ => true) values
  else map (fun x => z_score_below x (np_mean values) (np_var values)
                                   (outlier_std_threshold cfg)) values.

(** The entries of a list whose flag is set. *)
Definition select {A : Type} (xs : list A) (mask : list bool) : list A :=
  map fst (filter snd (combine xs mask)).

(** The drawdown factor of [calculate_position_size], when it is defined. *)
Definition drawdown_factor (cfg : ARSConfig) (dd : Q) : Q :=
  if Qlt_bool (max_daily_drawdown cfg / 2) dd
  then py_max (1 - dd / max_total_drawdown cfg) (drawdown_reduction_rate cfg)
  else 1.

(** The size before the clamps. *)
Definition unclamped_size (cfg : ARSConfig) (dd conviction : Q) (regime : MarketRegime)
  : Q :=
  base_position_size cfg * (1 + (conviction - (1 # 2)) * conviction_scaling cfg)
  * regime_factor_of cfg regime * drawdown_factor cfg dd.

(** The message of the daily limit. *)
Definition daily_limit_message (state : RiskState) : Text :=
  [Lit "Daily drawdown limit reached ("; FmtF ".1%" (current_drawdown state); Lit ")"].

(** The squared deviation of a value from the mean. *)
Definition squared_deviation (m x : Q) : Q := (x - m) * (x - m).

(** Seven position sizes, the last one far from the others. *)
Definition sizes_with_outlier : list Q := [1; 1; 1; 1; 1; 1; 100].

End Stabilizer.

(** ** signals.py *)

Module Signals.

(** [polymarket.Position]. *)
Record Position := {
  wallet : string;
  market_slug : string;
  market_title : string;
  outcome : string;
  size : Q;
  avg_price : Q;
  current_price : Q;
  initial_value : Q;
  current_value : Q;
  pnl : Q;
  pnl_percent : Q
}.

Record TraderScore := {
  ts_wallet : string;
  ts_username : string;
  ts_pnl : Q;
  ts_volume : Q;
  ts_win_rate : Q;
  ts_consistency : Q;
  ts_final_score : Q
}.

Record Signal := {
  sig_market_slug : string;
  sig_market_title : string;
  sig_direction : string;
  sig_conviction : Q;
  sig_num_traders : Z;
  sig_total_size : Q;
  sig_avg_entry_price : Q;
  sig_current_price : Q;
  sig_expected_edge : Q;
  sig_traders : list string;
  sig_ars_score : Q;
  sig_recommended_size : Q;
  sig_entry_quality : string
}.

(** One entry of a group: [{'trader': trader, 'position': pos}]. *)
Record Holding := {
  trader : TraderScore;
  position : Position
}.

(** [self.positions]: a dict from wallet to positions, in insertion order. *)
Definition Positions := list (string * list Position).

Definition GroupKey := (string * string)%type.

Definition key_eqb (a b : GroupKey) : bool :=
  String.eqb (fst a) (fst b) && String.eqb (snd a) (snd b).

(** [market_positions]: a [defaultdict(list)], in insertion order. *)
Definition Groups := list (GroupKey * list Holding).

(** [market_positions[key].append(h)]. *)
Fixpoint group_append (key : GroupKey) (h : Holding) (groups : Groups) : Groups :=
  match groups with
  | [] => [(key, [h])]
  | (k, hs) :: rest =>
      if key_eqb k key then (k, hs ++ [h]) :: rest
      else (k, hs) :: group_append key h rest
  end.

(** [next((t for t in self.trader_scores if t.wallet == wallet), None)]. *)
Definition find_trader (trader_scores : list TraderScore) (w : string)
  : option TraderScore :=
  find (fun t => String.eqb (ts_wallet t) w) trader_scores.

(** The first loop of [aggregate_signals]. *)
Definition group_positions (trader_scores : list TraderScore) (positions : Positions)
  : Groups :=
  fold_left
    (fun groups '(w, ps) =>
       match find_trader trader_scores w with
       | None => groups
       | Some t =>
           fold_left
             (fun groups pos =>
                group_append (market_slug pos, outcome pos)
                             {| trader := t; position := pos |} groups)
             ps groups
       end)
    positions [].

(** The body of the second loop: [None] where the loop says [continue]. *)
Definition signal_of_group (total_traders : Z) (min_traders : Z) (min_conviction : Q)
  (g : GroupKey * list Holding) : Outcome (option Signal) :=
  let '((slug, outcome_), holdings) := g in
  let num_traders := Z.of_nat (List.length holdings) in
  if (num_traders <? min_traders)%Z then Returned None
  else
    match py_div (inject_Z num_traders) (inject_Z total_traders) with
    | Raised exn => Raised exn
    | Returned conviction =>
        if Qlt_bool conviction min_conviction then Returned None
        else
          let total_size :=
            py_sum (map (fun h => current_value (position h)) holdings) in
          let total_shares := py_sum (map (fun h => size (position h)) holdings) in
          let avg_entry :=
            if Qlt_bool 0 total_shares
            then py_sum (map (fun h => avg_price (position h) * size (position h))
                             holdings) / total_shares
            else 0 in
          match holdings with
          | [] => Raised "IndexError"
          | h0 :: _ =>
              let current := current_price (position h0) in
              let expected_edge :=
                if Qlt_bool 0 avg_entry then (current - avg_entry) / avg_entry
                else 0 in
              Returned (Some
                {| sig_market_slug := slug;
                   sig_market_title := market_title (position h0);
                   sig_direction := outcome_;
                   sig_conviction := conviction;
                   sig_num_traders := num_traders;
                   sig_total_size := total_size;
                   sig_avg_entry_price := avg_entry;
                   sig_current_price := current;
                   sig_expected_edge := expected_edge;
                   sig_traders := map (fun h => ts_username (trader h)) holdings;
                   sig_ars_score := 0;
                   sig_recommended_size := 0;
                   sig_entry_quality := "unknown" |})
          end
    end.

(** The second loop: the signals in group order, or the first exception. *)
Fixpoint signals_of_groups (total_traders min_traders : Z) (min_conviction : Q)
  (groups : Groups) : Outcome (list Signal) :=
  match groups with
  | [] => Returned []
  | g :: rest =>
      match signal_of_group total_traders min_traders min_conviction g with
      | Raised exn => Raised exn
      | Returned o =>
          match signals_of_groups total_traders min_traders min_conviction rest with
          | Raised exn => Raised exn
          | Returned sigs =>
              Returned (match o with Some s => s :: sigs | None => sigs end)
          end
      end
  end.

(** [(a1, a2) < (b1, b2)] on tuples of floats. *)
Definition key_lt (a b : Q * Q) : bool :=
  Qlt_bool (fst a) (fst b) || (Qeq_bool (fst a) (fst b) && Qlt_bool (snd a) (snd b)).

Definition sort_key (s : Signal) : Q * Q := (sig_conviction s, sig_total_size s).

(** [sorted(signals, key=..., reverse=True)]: descending and stable. *)
Fixpoint insert_desc (s : Signal) (sorted : list Signal) : list Signal :=
  match sorted with
  | [] => [s]
  | y :: rest =>
      if key_lt (sort_key s) (sort_key y) then y :: insert_desc s rest
      else s :: y :: rest
  end.

Definition sorted_desc (signals : list Signal) : list Signal :=
  fold_right insert_desc [] signals.

(** [aggregate_signals]. *)
Definition aggregate_signals (trader_scores : list TraderScore) (positions : Positions)
  (min_traders : Z) (min_conviction : Q) : Outcome (list Signal) :=
  let market_positions := group_positions trader_scores positions in
  let total_traders := Z.of_nat (List.length positions) in
  match signals_of_groups total_traders min_traders min_conviction market_positions with
  | Raised exn => Raised exn
  | Returned signals => Returned (sorted_desc signals)
  end.

(** *** Vocabulary of the specification and concrete scenarios *)

(** The key under which a position is grouped. *)
Definition position_key (pos : Position) : GroupKey := (market_slug pos, outcome pos).

Definition holding_key (h : Holding) : GroupKey := position_key (position h).

(** The entries one wallet contributes to the groups. *)
Definition holdings_of (trader_scores : list TraderScore) (wp : string * list Position)
  : list Holding :=
  match find_trader trader_scores (fst wp) with
  | None => []
  | Some t => map (fun pos => {| trader := t; position := pos |}) (snd wp)
  end.

(** All entries, in the order the first loop meets them. *)
Definition all_holdings (trader_scores : list TraderScore) (positions : Positions)
  : list Holding :=
  flat_map (holdings_of trader_scores) positions.

(** Grouping a list of entries, one [append] after the other. *)
Definition regroup (hs : list Holding) (groups : Groups) : Groups :=
  fold_left (fun groups h => group_append (holding_key h) h groups) hs groups.

(** [market_positions[k]], empty when the key is absent. *)
Definition holdings_at (k : GroupKey) (groups : Groups) : list Holding :=
  match find (fun g => key_eqb (fst g) k) groups with
  | Some g => snd g
  | None => []
  end.

Definition in_group (k : GroupKey) (h : Holding) : bool := key_eqb k (holding_key h).

(** What one group contributes. *)
Definition signal_of (total : Z) (k : GroupKey) (hs : list Holding) (sg : Signal) : Prop :=
  sig_market_slug sg = fst k /\ sig_direction sg = snd k /\
  sig_num_traders sg = Z.of_nat (List.length hs) /\
  sig_conviction sg = inject_Z (Z.of_nat (List.length hs)) / inject_Z total.

(** The wallet has a position in the group. *)
Definition holds (k : GroupKey) (wp : string * list Position) : bool :=
  existsb (fun pos => key_eqb (position_key pos) k) (snd wp).

(** Every wallet has a scored trader and holds at most one position per
    (market, outcome). *)
Definition no_duplicates (scores : list TraderScore) (positions : Positions) : Prop :=
  Forall (fun wp => find_trader scores (fst wp) <> None /\
                    NoDup (map position_key (snd wp))) positions.

(** The wallets whose positions sit in the group of a signal. *)
Definition wallets_of_group (positions : Positions) (sg : Signal) : list string :=
  map fst
      (filter (fun '(_, ps) =>
                 existsb (fun pos => key_eqb (market_slug pos, outcome pos)
                                             (sig_market_slug sg, sig_direction sg))
                         ps)
              positions).

(** The conviction of a signal as the specification states it: the number of
    participants of the group over the number of participants considered,
    between 0 and 1. *)
Definition conviction_as_specified (positions : Positions) (sg : Signal) : Prop :=
  sig_conviction sg
  == inject_Z (Z.of_nat (List.length (wallets_of_group positions sg)))
     / inject_Z (Z.of_nat (List.length positions)) /\
  0 <= sig_conviction sg <= 1.

Definition one_trader : TraderScore :=
  {| ts_wallet := "0xabc";
     ts_username := "whale_01";
     ts_pnl := 50000;
     ts_volume := 400000;
     ts_win_rate := 0;
     ts_consistency := 1;
     ts_final_score := 8 # 10 |}.

Definition holding_of (shares entry : Q) : Position :=
  {| wallet := "0xabc";
     market_slug := "fed-decision-in-march";
     market_title := "Fed decision in March?";
     outcome := "Yes";
     size := shares;
     avg_price := entry;
     current_price := 6 # 10;
     initial_value := shares * entry;
     current_value := shares * (6 # 10);
     pnl := shares * ((6 # 10) - entry);
     pnl_percent := 0 |}.

(** One participant, listed with two positions on the same outcome of the
    same market. *)
Definition one_wallet_two_positions : Positions :=
  [ ("0xabc"%string, [holding_of 1000 (1 # 2); holding_of 500 (55 # 100)]) ].

(** *** The other operations of the generator *)

(** [sorted(xs, key=..., reverse=True)] for a key compared by [lt]:
    descending and stable. *)
Fixpoint insert_by {A : Type} (lt : A -> A -> bool) (x : A) (sorted : list A) : list A :=
  match sorted with
  | [] => [x]
  | y :: rest => if lt x y then y :: insert_by lt x rest else x :: y :: rest
  end.

Definition sorted_desc_by {A : Type} (lt : A -> A -> bool) (xs : list A) : list A :=
  fold_right (insert_by lt) [] xs.

(** [polymarket.Trader]. *)
Record Trader := {
  tr_rank : Z;
  tr_wallet : string;
  tr_username : option string;
  tr_volume : Q;
  tr_pnl : Q;
  tr_profile_image : option string;
  tr_x_username : option string;
  tr_verified : bool
}.

(** [username or wallet[:10]]: the wallet prefix replaces a missing or empty
    name.  Wallets are ASCII, one byte per character. *)
Definition display_name (t : Trader) : string :=
  match tr_username t with
  | Some (String c s) => String c s
  | _ => substring 0 10 (tr_wallet t)
  end.

(** The body of the loop of [score_traders] for a trader that qualifies. *)
Definition score_trader (t : Trader) : TraderScore :=
  let efficiency := if Qlt_bool 0 (tr_volume t) then tr_pnl t / tr_volume t else 0 in
  let pnl_score := py_min (tr_pnl t / 100000) 1 in
  let efficiency_score := py_min (efficiency / (10 # 100)) 1 in
  let final_score := pnl_score * (4 # 10) + efficiency_score * (6 # 10) in
  {| ts_wallet := tr_wallet t;
     ts_username := display_name t;
     ts_pnl := tr_pnl t;
     ts_volume := tr_volume t;
     ts_win_rate := 0;
     ts_consistency := efficiency_score;
     ts_final_score := final_score |}.

Definition score_lt (a b : TraderScore) : bool :=
  Qlt_bool (ts_final_score a) (ts_final_score b).

(** [score_traders]: the new value of [self.trader_scores]. *)
Definition score_traders (traders : list Trader) (min_pnl : Q) : list TraderScore :=
  sorted_desc_by score_lt
    (map score_trader (filter (fun t => negb (Qlt_bool (tr_pnl t) min_pnl)) traders)).

(** [evaluate_entry_quality]. *)
Definition evaluate_entry_quality (avg_entry current : Q) : string * Q :=
  if Qle_bool avg_entry 0 || Qle_bool current 0 then ("unknown"%string, 1 # 2)
  else
    let price_move := (current - avg_entry) / avg_entry in
    if Qlt_bool price_move (15 # 100) then ("good"%string, 1)
    else if Qlt_bool price_move (50 # 100) then ("fair"%string, 7 # 10)
    else if Qlt_bool price_move 1 then ("late"%string, 4 # 10)
    else ("very_late"%string, 1 # 10).

(** [filter_resolved_markets]. *)
Definition filter_resolved_markets (signals : list Signal) : list Signal :=
  filter (fun sg => negb (Qle_bool (98 # 100) (sig_current_price sg)
                          || Qle_bool (sig_current_price sg) (2 # 100)))
         signals.

(** The supporting traders [apply_ars_scoring] collects for a signal. *)
Definition supporting_traders_of (trader_scores : list TraderScore)
  (positions : Positions) (sg : Signal) : list Stabilizer.SupportingTrader :=
  flat_map
    (fun '(w, ps) =>
       match find_trader trader_scores w with
       | None => []
       | Some t =>
           map (fun pos =>
                  {| Stabilizer.st_wallet := Some w;
                     Stabilizer.st_position_size := Some (current_value pos);
                     Stabilizer.st_pnl := Some (pnl pos);
                     Stabilizer.st_win_rate := Some (ts_consistency t) |})
               (filter (fun pos => String.eqb (market_slug pos) (sig_market_slug sg)
                                   && String.eqb (outcome pos) (sig_direction sg))
                       ps)
       end)
    positions.

Definition ars_lt (a b : Signal) : bool := Qlt_bool (sig_ars_score a) (sig_ars_score b).

(** The body of the loop of [apply_ars_scoring]: the signal with its three
    ARS fields set. *)
Definition score_signal (cfg : Stabilizer.ARSConfig) (state : Stabilizer.RiskState)
  (now : Z) (trader_scores : list TraderScore) (positions : Positions) (sg : Signal)
  : Outcome Signal :=
  let supporting := supporting_traders_of trader_scores positions sg in
  let '(entry_quality, entry_score) :=
    evaluate_entry_quality (sig_avg_entry_price sg) (sig_current_price sg) in
  match Stabilizer.process_signal cfg state now (sig_market_slug sg)
          (sig_market_title sg) (sig_direction sg) supporting None 0 with
  | Raised exn => Raised exn
  | Returned ars_signal =>
      Returned
        {| sig_market_slug := sig_market_slug sg;
           sig_market_title := sig_market_title sg;
           sig_direction := sig_direction sg;
           sig_conviction := sig_conviction sg;
           sig_num_traders := sig_num_traders sg;
           sig_total_size := sig_total_size sg;
           sig_avg_entry_price := sig_avg_entry_price sg;
           sig_current_price := sig_current_price sg;
           sig_expected_edge := sig_expected_edge sg;
           sig_traders := sig_traders sg;
           sig_ars_score :=
             Stabilizer.ars_conviction ars_signal * (4 # 10)
             + entry_score * (3 # 10) + sig_conviction sg * (3 # 10);
           sig_recommended_size := Stabilizer.recommended_size ars_signal;
           sig_entry_quality := entry_quality |}
  end.

Fixpoint score_signals (cfg : Stabilizer.ARSConfig) (state : Stabilizer.RiskState)
  (now : Z) (trader_scores : list TraderScore) (positions : Positions)
  (signals : list Signal) : Outcome (list Signal) :=
  match signals with
  | [] => Returned []
  | sg :: rest =>
      match score_signal cfg state now trader_scores positions sg with
      | Raised exn => Raised exn
      | Returned scored =>
          match score_signals cfg state now trader_scores positions rest with
          | Raised exn => Raised exn
          | Returned others => Returned (scored :: others)
          end
      end
  end.

(** [apply_ars_scoring]; the signals are updated in place in the source, the
    embedding returns the updated ones. *)
Definition apply_ars_scoring (cfg : Stabilizer.ARSConfig) (state : Stabilizer.RiskState)
  (now : Z) (trader_scores : list TraderScore) (positions : Positions)
  (signals : list Signal) : Outcome (list Signal) :=
  match score_signals cfg state now trader_scores positions signals with
  | Raised exn => Raised exn
  | Returned scored => Returned (sorted_desc_by ars_lt scored)
  end.

(** The trader qualifies for scoring. *)
Definition qualifies (min_pnl : Q) (t : Trader) : bool :=
  negb (Qlt_bool (tr_pnl t) min_pnl).

(** The (market, outcome) of a signal. *)
Definition signal_key (sg : Signal) : GroupKey := (sig_market_slug sg, sig_direction sg).

(** A signal ranks no lower than another: more conviction, or the same
    conviction and no less total size. *)
Definition ranks_before (a b : Signal) : Prop :=
  sig_conviction b < sig_conviction a
  \/ (sig_conviction a == sig_conviction b /\ sig_total_size b <= sig_total_size a).

(** The price lies strictly between 0.02 and 0.98. *)
Definition unresolved (sg : Signal) : Prop :=
  2 # 100 < sig_current_price sg /\ sig_current_price sg < 98 # 100.

Definition entry_qualities : list string :=
  ["good"; "fair"; "late"; "very_late"; "unknown"]%string.

(** Two wallets, each with one position on the same outcome, and a third
    wallet elsewhere. *)
Definition three_traders : list TraderScore :=
  [ one_trader;
    {| ts_wallet := "0xdef"; ts_username := "shark_02"; ts_pnl := 30000;
       ts_volume := 300000; ts_win_rate := 0; ts_consistency := 1;
       ts_final_score := 72 # 100 |};
    {| ts_wallet := "0x123"; ts_username := "prof_03"; ts_pnl := 20000;
       ts_volume := 400000; ts_win_rate := 0; ts_consistency := 1 # 2;
       ts_final_score := 38 # 100 |} ].

Definition position_on (w slug : string) (shares entry : Q) : Position :=
  {| wallet := w;
     market_slug := slug;
     market_title := slug;
     outcome := "Yes";
     size := shares;
     avg_price := entry;
     current_price := 6 # 10;
     initial_value := shares * entry;
     current_value := shares * (6 # 10);
     pnl := shares * ((6 # 10) - entry);
     pnl_percent := 0 |}.

Definition three_wallets : Positions :=
  [ ("0xabc"%string, [position_on "0xabc" "fed-decision-in-march" 1000 (1 # 2)]);
    ("0xdef"%string, [position_on "0xdef" "fed-decision-in-march" 500 (55 # 100);
                      position_on "0xdef" "btc-above-100k" 200 (4 # 10)]);
    ("0x123"%string, [position_on "0x123" "btc-above-100k" 300 (45 # 100)]) ].

(** In a descending order [a] may stand before [b]. *)
Definition not_before {A : Type} (lt : A -> A -> bool) (a b : A) : Prop :=
  lt a b = false.

(** What [score_signal] leaves of a signal, and what it sets. *)
Definition scored_from (cfg : Stabilizer.ARSConfig) (sg scored : Signal) : Prop :=
  signal_key scored = signal_key sg /\
  sig_conviction scored = sig_conviction sg /\
  In (sig_entry_quality scored) entry_qualities /\
  sig_conviction sg * (3 # 10) + (3 # 100) <= sig_ars_score scored
    <= sig_conviction sg * (3 # 10) + (7 # 10) /\
  (Stabilizer.min_position_size cfg <= Stabilizer.max_position_size cfg ->
   Stabilizer.min_position_size cfg <= sig_recommended_size scored
     <= Stabilizer.max_position_size cfg).

(** Every position of the mapping satisfies [P]. *)
Definition every_position (P : Position -> Prop) (positions : Positions) : Prop :=
  Forall (fun wp => Forall P (snd wp)) positions.

End Signals.

(** ** live_trader.py *)

Module LiveTrader.

(** [c.lower()] for an ASCII letter; direction labels are ASCII. *)
Definition ascii_lower (c : ascii) : ascii :=
  let n := nat_of_ascii c in
  if ((65 <=? n) && (n <=? 90))%nat then ascii_of_nat (n + 32) else c.

(** [s.lower()] on ASCII text. *)
Fixpoint str_lower (s : string) : string :=
  match s with
  | EmptyString => EmptyString
  | String c rest => String (ascii_lower c) (str_lower rest)
  end.

(** [polymarket_signal_to_predictor]; [fresh_hex] is [uuid.uuid4().hex] and
    [generated] the default of [generated_at]. *)
Definition polymarket_signal_to_predictor (sg : Signals.Signal)
  (signal_id : option string) (fresh_hex generated : string)
  : Governance.PredictorSignal :=
  {| Governance.signal_id :=
       match signal_id with
       | Some (String c rest) => String c rest
       | _ => "sig_" ++ substring 0 8 fresh_hex
       end;
     Governance.market_slug := Signals.sig_market_slug sg;
     Governance.market_title := Signals.sig_market_title sg;
     Governance.direction := str_lower (Signals.sig_direction sg);
     Governance.conviction := Signals.sig_conviction sg;
     Governance.num_traders := Signals.sig_num_traders sg;
     Governance.total_size := Signals.sig_total_size sg;
     Governance.avg_entry_price := Signals.sig_avg_entry_price sg;
     Governance.current_price := Signals.sig_current_price sg;
     Governance.expected_edge := Signals.sig_expected_edge sg;
     Governance.entry_quality := Signals.sig_entry_quality sg;
     Governance.ars_score := Signals.sig_ars_score sg;
     Governance.recommended_size := Signals.sig_recommended_size sg;
     Governance.traders := Signals.sig_traders sg;
     Governance.generated_at := generated |}.

(** The allow-list of the default configuration and of the live trader. *)
Definition good_or_fair : list string := ["good"; "fair"]%string.



End LiveTrader.

(** * Facts about the Python and numpy operations *)

Lemma Qlt_bool_iff x y : Qlt_bool x y = true <-> x < y.
Proof.
  unfold Qlt_bool. rewrite negb_true_iff.
  split; intro H.
  - apply Qnot_le_lt. intro L. apply Qle_bool_iff in L. congruence.
  - destruct (Qle_bool y x) eqn:E; [|reflexivity].
    apply Qle_bool_iff in E. exfalso. exact (Qlt_not_le _ _ H E).
Qed.

Lemma Qlt_bool_false_iff x y : Qlt_bool x y = false <-> y <= x.
Proof.
  unfold Qlt_bool. rewrite negb_false_iff. apply Qle_bool_iff.
Qed.


Lemma py_max_lower a b : a <= py_max a b /\ b <= py_max a b.
Proof.
  unfold py_max. destruct (Qlt_bool a b) eqn:E.
  - apply Qlt_bool_iff in E. lra.
  - apply Qlt_bool_false_iff in E. lra.
Qed.

Lemma py_max_upper a b c : a <= c -> b <= c -> py_max a b <= c.
Proof. unfold py_max. now destruct (Qlt_bool a b). Qed.

Lemma py_min_upper a b : py_min a b <= a /\ py_min a b <= b.
Proof.
  unfold py_min. destruct (Qlt_bool b a) eqn:E.
  - apply Qlt_bool_iff in E. lra.
  - apply Qlt_bool_false_iff in E. lra.
Qed.

(** The comparison of [np_std_gt] is the comparison of the square root of
    the variance, over the reals. *)
Lemma np_std_gt_sqrt xs t :
  np_std_gt xs t = true <-> (Q2R t < sqrt (Q2R (np_var xs)))%R.
Proof.
  unfold np_std_gt. set (v := np_var xs).
  destruct (Qlt_bool t 0) eqn:N; simpl.
  - apply Qlt_bool_iff in N. apply Qlt_Rlt in N. rewrite RMicromega.Q2R_0 in N.
    split; [intros _|reflexivity].
    apply Rlt_le_trans with 0%R; [exact N|apply sqrt_pos].
  - apply Qlt_bool_false_iff in N. apply Qle_Rle in N.
    rewrite RMicromega.Q2R_0 in N.
    rewrite Qlt_bool_iff. split; intro H.
    + apply Qlt_Rlt in H. rewrite Q2R_mult in H.
      rewrite <- (sqrt_square (Q2R t)) by exact N.
      apply sqrt_lt_1_alt. split; [|exact H].
      apply Rmult_le_pos; exact N.
    + apply Rlt_Qlt. rewrite Q2R_mult.
      destruct (Rle_lt_dec (Q2R v) 0) as [V|V].
      * rewrite (sqrt_neg_0 _ V) in H. exfalso.
        apply (Rlt_irrefl 0). now apply Rle_lt_trans with (Q2R t).
      * rewrite <- (sqrt_sqrt (Q2R v)) by now apply Rlt_le.
        apply Rmult_le_0_lt_compat; auto.
Qed.

(** * Properties of the governance engine *)

Module GovernanceSpec.
Import Governance.


(** ** Basic facts about the pipeline *)

Lemma check_drawdown_config e : config (fst (_check_drawdown e)) = config e.
Proof. unfold _check_drawdown. simpl. now destruct (_ && _). Qed.

Lemma check_drawdown_tracker e :
  spend_tracker (fst (_check_drawdown e)) = spend_tracker e.
Proof. unfold _check_drawdown. simpl. now destruct (_ && _). Qed.

Lemma check_drawdown_passed e :
  passed (snd (_check_drawdown e))
  = Qlt_bool (get_drawdown (spend_tracker e)) (drawdown_kill_switch_pct (config e)).
Proof. reflexivity. Qed.

Lemma check_drawdown_active e :
  kill_switch_active (fst (_check_drawdown e))
  = kill_switch_active e || negb (passed (snd (_check_drawdown e))).
Proof.
  rewrite check_drawdown_passed. unfold _check_drawdown. simpl.
  destruct (Qlt_bool _ _), (kill_switch_active e) eqn:A; simpl; auto.
Qed.

Lemma evaluate_signal_rules e env s :
  rules_evaluated (snd (evaluate_signal e env s)) = battery e env s.
Proof.
  unfold evaluate_signal, battery.
  destruct (_check_drawdown e) as [e1 ev2]. reflexivity.
Qed.

Lemma evaluate_signal_decides e env s :
  decision (snd (evaluate_signal e env s)) = decide (battery e env s).
Proof.
  unfold evaluate_signal, battery.
  destruct (_check_drawdown e) as [e1 ev2]. reflexivity.
Qed.

Lemma evaluate_signal_order e env s :
  order_request (snd (evaluate_signal e env s))
  = if decision_eqb (decision (snd (evaluate_signal e env s))) APPROVED
    then Some (build_order_request e s) else None.
Proof.
  unfold evaluate_signal.
  destruct (_check_drawdown e) as [e1 ev2]. reflexivity.
Qed.

Lemma evaluate_signal_active e env s :
  kill_switch_active (fst (evaluate_signal e env s))
  = kill_switch_active (fst (_check_drawdown e)).
Proof.
  unfold evaluate_signal.
  destruct (_check_drawdown e) as [e1 ev2]. reflexivity.
Qed.

Lemma evaluate_signal_tracker e env s :
  spend_tracker (fst (evaluate_signal e env s)) = spend_tracker e.
Proof.
  rewrite <- (check_drawdown_tracker e). unfold evaluate_signal.
  destruct (_check_drawdown e) as [e1 ev2]. reflexivity.
Qed.


Lemma evaluate_signal_audit e env s :
  audit_log (fst (evaluate_signal e env s))
  = audit_log e ++ [to_audit_entry (snd (evaluate_signal e env s))].
Proof.
  unfold evaluate_signal, _check_drawdown.
  destruct (_ && _); reflexivity.
Qed.

Lemma decision_eqb_eq a b : decision_eqb a b = true <-> a = b.
Proof. destruct a, b; simpl; split; congruence. Qed.

(** [decide] against the decision rule in words. *)
Lemma existsb_failed_kill_switch evs :
  existsb failed_kill_switch evs = true <-> kill_switch_failure evs.
Proof.
  rewrite existsb_exists. unfold kill_switch_failure, failed_kill_switch.
  split; intros [ev [Hin H]]; exists ev; split; auto.
  - apply andb_true_iff in H. destruct H as [T P].
    apply String.eqb_eq in T. now apply negb_true_iff in P.
  - destruct H as [T P]. rewrite T, P. reflexivity.
Qed.

Lemma filter_failed_nonempty evs :
  filter (fun ev => negb (passed ev)) evs <> [] <-> some_failure evs.
Proof.
  unfold some_failure. split.
  - intro H. destruct (filter _ evs) as [|ev l] eqn:E; [congruence|].
    assert (I : In ev (filter (fun ev => negb (passed ev)) evs))
      by (rewrite E; now left).
    apply filter_In in I. destruct I as [I P].
    exists ev. split; auto. now apply negb_true_iff in P.
  - intros [ev [I P]] E.
    assert (J : In ev (filter (fun ev => negb (passed ev)) evs))
      by (apply filter_In; split; auto; now rewrite P).
    rewrite E in J. exact J.
Qed.

Lemma decide_kill_switched evs :
  decide evs = KILL_SWITCHED <-> kill_switch_failure evs.
Proof.
  rewrite <- existsb_failed_kill_switch. unfold decide.
  destruct (existsb failed_kill_switch evs); [tauto|].
  destruct (filter _ evs); split; congruence.
Qed.

Lemma decide_blocked evs :
  decide evs = BLOCKED <-> (~ kill_switch_failure evs /\ some_failure evs).
Proof.
  rewrite <- existsb_failed_kill_switch, <- filter_failed_nonempty. unfold decide.
  destruct (existsb failed_kill_switch evs).
  - split; [congruence|]. intros [H _]. now elim H.
  - destruct (filter _ evs).
    + split; [congruence|]. intros [_ H]. congruence.
    + split; [|reflexivity]. intros _. split; congruence.
Qed.

Lemma decide_approved evs :
  decide evs = APPROVED <-> ~ some_failure evs.
Proof.
  split.
  - intros H F.
    assert (K : ~ kill_switch_failure evs).
    { intro K. apply decide_kill_switched in K. congruence. }
    assert (B : decide evs = BLOCKED) by (apply decide_blocked; auto).
    congruence.
  - intro H. unfold decide.
    destruct (existsb failed_kill_switch evs) eqn:E.
    + apply existsb_failed_kill_switch in E.
      destruct E as [ev [I [_ P]]]. elim H. now exists ev.
    + destruct (filter _ evs) eqn:F; [reflexivity|].
      elim H. apply filter_failed_nonempty. congruence.
Qed.

Lemma decide_never_requires_approval evs : decide evs <> REQUIRES_APPROVAL.
Proof.
  unfold decide. destruct (existsb _ _); [congruence|].
  destruct (filter _ _); congruence.
Qed.

(** ** The kill switch along a run *)

Lemma active_forces_kill_switched e env s :
  kill_switch_active e = true ->
  decision (snd (evaluate_signal e env s)) = KILL_SWITCHED.
Proof.
  intro A. rewrite evaluate_signal_decides. apply decide_kill_switched.
  exists (_check_kill_switch e). split; [now left|].
  split; [reflexivity|]. simpl. now rewrite A.
Qed.

Lemma drawdown_forces_kill_switched e env s :
  passed (snd (_check_drawdown e)) = false ->
  decision (snd (evaluate_signal e env s)) = KILL_SWITCHED.
Proof.
  intro P. rewrite evaluate_signal_decides. apply decide_kill_switched.
  exists (snd (_check_drawdown e)). split; [right; now left|].
  split; [reflexivity|exact P].
Qed.

Lemma drawdown_reached_fails e :
  drawdown_reached e -> passed (snd (_check_drawdown e)) = false.
Proof.
  intro H. rewrite check_drawdown_passed. now apply Qlt_bool_false_iff.
Qed.

Lemma evaluate_keeps_active e env s :
  kill_switch_active e = true ->
  kill_switch_active (fst (evaluate_signal e env s)) = true.
Proof.
  intro A. rewrite evaluate_signal_active, check_drawdown_active, A. reflexivity.
Qed.

Lemma step_evaluate e env s :
  step e (OpEvaluate env s)
  = (fst (evaluate_signal e env s), Some (snd (evaluate_signal e env s))).
Proof. unfold step. destruct (evaluate_signal e env s); reflexivity. Qed.

Lemma step_keeps_active e o :
  kill_switch_active e = true -> is_reset o = false ->
  kill_switch_active (fst (step e o)) = true.
Proof.
  intros A R. destruct o; try discriminate R.
  - rewrite step_evaluate. now apply evaluate_keeps_active.
  - unfold step, execute_approved_trade.
    destruct (negb _); [exact A|].
    destruct (order_request r); exact A.
  - reflexivity.
  - exact A.
  - exact A.
Qed.

Lemma step_result_kill_switched e o r :
  kill_switch_active e = true -> snd (step e o) = Some r ->
  decision r = KILL_SWITCHED.
Proof.
  intros A H. destruct o; try discriminate H.
  - rewrite step_evaluate in H. inversion H; subst.
    now apply active_forces_kill_switched.
  - unfold step in H.
    destruct (execute_approved_trade e x r0) as [[? ?]|?]; discriminate.
Qed.

Lemma run_latched ops : forall e,
  kill_switch_active e = true -> no_reset ops ->
  all_kill_switched (snd (run e ops)) /\ kill_switch_active (fst (run e ops)) = true.
Proof.
  induction ops as [|o ops IH]; intros e A N; simpl.
  - split; [constructor|exact A].
  - inversion N as [|? ? R N']; subst.
    pose proof (step_keeps_active e o A R) as A'.
    pose proof (step_result_kill_switched e o) as K.
    destruct (step e o) as [e' r]. simpl in *.
    destruct (IH e' A' N') as [F A''].
    destruct (run e' ops) as [e'' rs]. simpl in *.
    split; [|exact A''].
    destruct r as [x|]; [constructor; auto|exact F].
Qed.

(** ** The scenarios of the specification *)

(** Scenario A: a $15 trade against a $500 balance, nothing spent yet, switch
    off, within trading hours: approved, no failed rule. *)
Example scenario_approved :
  let r := snd (evaluate_signal default_engine env_10h
                  (scenario_signal "good" (3 # 100))) in
  decision r = APPROVED /\ failed_rule_ids r = [] /\
  option_map total_cost_cents (order_request r) = Some 1500%Z.
Proof. vm_compute. repeat split. Qed.

(** Scenario B: the same signal with entry quality very_late: blocked by the
    entry-quality filter alone. *)
Example scenario_blocked_by_entry_quality :
  let r := snd (evaluate_signal default_engine env_10h
                  (scenario_signal "very_late" (3 # 100))) in
  decision r = BLOCKED /\ failed_rule_ids r = ["entry_quality_filter"%string] /\
  order_request r = None.
Proof. vm_compute. repeat split. Qed.

(** Scenario D: $48 of the $50 daily cap spent, a new trade of $5: the daily
    limit fails alone and the signal is blocked. *)
Example scenario_blocked_by_daily_limit :
  let r := snd (evaluate_signal engine_after_spending env_10h
                  (scenario_signal "good" (112 # 10000))) in
  decision r = BLOCKED /\ failed_rule_ids r = ["daily_spend_limit"%string] /\
  total_cost_cents (build_order_request engine_after_spending
                      (scenario_signal "good" (112 # 10000))) = 500%Z.
Proof. vm_compute. repeat split. Qed.

(** ** C1: the whole battery runs on every call *)

(** C1. For every engine state, environment and signal, [evaluate_signal]
    returns one result whose [rules_evaluated] holds exactly eleven
    evaluations, those of the fixed battery in its order (kill switch,
    drawdown, consecutive losses, entry quality, ARS score, conviction,
    per-trade, daily, weekly, balance, trading hours), whatever the decision;
    the call appends exactly the audit entry of that result to the log. *)
Theorem evaluate_signal_runs_whole_battery e env s :
  let r := snd (evaluate_signal e env s) in
  List.length (rules_evaluated r) = 11%nat /\
  map rule_id (rules_evaluated r) = rule_battery /\
  audit_log (fst (evaluate_signal e env s)) = audit_log e ++ [to_audit_entry r].
Proof.
  cbv zeta. rewrite evaluate_signal_audit, evaluate_signal_rules.
  repeat split; reflexivity.
Qed.

(** ** C2: the decision rule *)

(** C2. The decision of the result is kill_switched exactly when an
    evaluation typed KILL_SWITCH failed, blocked exactly when none of those
    failed but some evaluation failed, approved exactly when no evaluation
    failed; and the order request is present exactly when the decision is
    approved. *)
Theorem evaluate_signal_decision_rule e env s :
  let r := snd (evaluate_signal e env s) in
  (decision r = KILL_SWITCHED <-> kill_switch_failure (rules_evaluated r)) /\
  (decision r = BLOCKED <->
     ~ kill_switch_failure (rules_evaluated r) /\ some_failure (rules_evaluated r)) /\
  (decision r = APPROVED <-> ~ some_failure (rules_evaluated r)) /\
  (order_request r <> None <-> decision r = APPROVED).
Proof.
  cbv zeta.
  rewrite evaluate_signal_order, evaluate_signal_rules, evaluate_signal_decides.
  split; [apply decide_kill_switched|].
  split; [apply decide_blocked|].
  split; [apply decide_approved|].
  destruct (decide (battery e env s)); simpl; split; congruence.
Qed.

(** ** C3: the kill switch is latched *)

(** C3. Along any sequence of operations without a reset: if the kill switch
    is active, every evaluation returns kill_switched and the switch stays
    active; if the drawdown has reached the threshold, the next evaluation
    fails its drawdown check (the second evaluation), is decided
    kill_switched whatever the other checks say, leaves the switch active,
    and every later evaluation is kill_switched too; and an explicit
    activation makes the switch active. *)
Theorem kill_switch_latched e env s ops :
  no_reset ops ->
  (kill_switch_active e = true ->
     all_kill_switched (snd (run e ops)) /\
     kill_switch_active (fst (run e ops)) = true) /\
  (drawdown_reached e ->
     let e1 := fst (evaluate_signal e env s) in
     let r1 := snd (evaluate_signal e env s) in
     (exists ev, nth_error (rules_evaluated r1) 1 = Some ev /\
                 rule_id ev = "drawdown_monitor"%string /\ passed ev = false) /\
     decision r1 = KILL_SWITCHED /\
     kill_switch_active e1 = true /\
     all_kill_switched (snd (run e1 ops)) /\
     kill_switch_active (fst (run e1 ops)) = true) /\
  (forall uuid now why,
     kill_switch_active (activate_kill_switch e uuid now why) = true).
Proof.
  intro N. split; [|split].
  - intro A. now apply run_latched.
  - intro D. cbv zeta.
    pose proof (drawdown_reached_fails e D) as P.
    assert (A1 : kill_switch_active (fst (evaluate_signal e env s)) = true).
    { rewrite evaluate_signal_active, check_drawdown_active, P.
      now destruct (kill_switch_active e). }
    split.
    { exists (snd (_check_drawdown e)). rewrite evaluate_signal_rules.
      repeat split; auto. }
    split; [now apply drawdown_forces_kill_switched|].
    split; [exact A1|].
    now apply run_latched.
  - reflexivity.
Qed.

(** The latch at work: the engine in a 25% drawdown, the first demo signal
    (every check but the drawdown monitor passes), then more activity. *)
Lemma kill_switch_latched_witness :
  no_reset later_activity /\
  drawdown_reached engine_in_drawdown /\
  map passed (rules_evaluated (snd (evaluate_signal engine_in_drawdown env_10h demo_signal)))
  = [true; false; true; true; true; true; true; true; true; true; true] /\
  decision (snd (evaluate_signal engine_in_drawdown env_10h demo_signal))
  = KILL_SWITCHED /\
  all_kill_switched
    (snd (run (fst (evaluate_signal engine_in_drawdown env_10h demo_signal))
              later_activity)).
Proof.
  assert (N : no_reset later_activity) by (repeat constructor).
  assert (D : drawdown_reached engine_in_drawdown)
    by (unfold drawdown_reached; vm_compute; discriminate).
  destruct (kill_switch_latched engine_in_drawdown env_10h demo_signal
              later_activity N) as [_ [H _]].
  destruct (H D) as [_ [K [_ [L _]]]].
  split; [exact N|]. split; [exact D|].
  split; [vm_compute; reflexivity|].
  split; [exact K|exact L].
Defined.

(** After the explicit reset the engine approves again. *)
Example reset_unlatches :
  map decision
      (snd (run (fst (evaluate_signal engine_in_drawdown env_10h demo_signal))
                recovery_with_reset))
  = [APPROVED].
Proof. vm_compute. reflexivity. Qed.

(** ** C6: the derived order request *)

Lemma py_int_nonneg x : 0 <= x -> py_int x = Qfloor x.
Proof.
  destruct x as [n d]. unfold Qle, py_int, Qfloor. simpl. intro H.
  apply Z.quot_div_nonneg; lia.
Qed.

Lemma py_int_neg x : x < 0 -> py_int x = Qceiling x.
Proof.
  destruct x as [n d]. unfold Qlt, py_int, Qceiling, Qfloor, Qopp. simpl. intro H.
  assert (E : n = (- (- n))%Z) by lia. rewrite E at 1.
  rewrite Z.quot_opp_l by lia. f_equal.
  apply Z.quot_div_nonneg; lia.
Qed.


Lemma clamp_py_int_floor x m : Z.max 1 (Z.min (py_int x) m) = clamp (Qfloor x) 1 m.
Proof.
  unfold clamp. destruct (Qlt_le_dec x 0) as [N|P].
  - rewrite (py_int_neg x N).
    assert (F : (Qfloor x <= Qceiling x)%Z).
    { unfold Qceiling. pose proof (Qfloor_le x). pose proof (Qle_ceiling x). 
      apply Qfloor_resp_le in H0. rewrite Qfloor_Z in H0. exact H0. }
    assert (C : (Qceiling x <= 0)%Z).
    { change 0%Z with (Qceiling 0). apply Qceiling_resp_le. lra. }
    lia.
  - now rewrite (py_int_nonneg x P).
Qed.

Lemma py_max_Qmax a b : py_max a b == Qmax a b.
Proof.
  unfold py_max. destruct (Qlt_bool a b) eqn:E.
  - apply Qlt_bool_iff in E. symmetry. apply Q.max_r. lra.
  - apply Qlt_bool_false_iff in E. symmetry. apply Q.max_l. exact E.
Qed.

Lemma order_contracts_clamped e s :
  order_contracts e s
  = clamp (Qfloor (affordable_contracts e s)) 1 (max_position_contracts (config e)).
Proof.
  unfold order_contracts. rewrite clamp_py_int_floor. f_equal.
  apply Qfloor_comp. unfold affordable_contracts.
  now rewrite py_max_Qmax.
Qed.



(** ** C7: evaluating a signal twice *)

Section SameView.
Variables a b : Engine.
Hypothesis same_config : config a = config b.
Hypothesis same_tracker : spend_tracker a = spend_tracker b.











End SameView.






(** ** C8: recording an execution that was not approved *)

(** C8 (as stated, refuted).  Recording the blocked result of the third demo
    signal raises nothing: the call returns. *)
Lemma execute_blocked_is_not_rejected :
  decision blocked_result = BLOCKED /\
  ~ execution_rejected default_engine exec_env_10h blocked_result.
Proof.
  split; [vm_compute; reflexivity|].
  intros [exn H]. vm_compute in H. discriminate H.
Qed.

(** C8 (amended).  Recording execution for a result whose decision is not
    approved is silently ignored: the call returns that result as it is, no
    exception is raised, and the engine (balance, spend ledger,
    consecutive-loss counter included) is unchanged. *)
Theorem execute_not_approved_is_ignored e x r :
  decision r <> APPROVED ->
  execute_approved_trade e x r = Returned (e, r).
Proof.
  intro H. unfold execute_approved_trade.
  destruct (decision_eqb (decision r) APPROVED) eqn:E; [|reflexivity].
  apply decision_eqb_eq in E. now elim H.
Qed.

Lemma execute_not_approved_is_ignored_witness :
  decision blocked_result <> APPROVED /\
  execute_approved_trade default_engine exec_env_10h blocked_result
  = Returned (default_engine, blocked_result).
Proof.
  assert (H : decision blocked_result <> APPROVED)
    by (vm_compute; discriminate).
  split; [exact H|].
  exact (execute_not_approved_is_ignored default_engine exec_env_10h
           blocked_result H).
Defined.

(** ** C10: the consecutive-loss rule halts without latching *)

Lemma check_consecutive_losses_passed e :
  passed (_check_consecutive_losses e)
  = (consecutive_losses (spend_tracker e) <? consecutive_loss_limit (config e))%Z.
Proof. reflexivity. Qed.

Lemma consecutive_losses_fail e :
  (consecutive_loss_limit (config e) <= consecutive_losses (spend_tracker e))%Z ->
  passed (_check_consecutive_losses (fst (_check_drawdown e))) = false.
Proof.
  intro H.
  rewrite check_consecutive_losses_passed, check_drawdown_config,
    check_drawdown_tracker.
  apply Z.ltb_ge. exact H.
Qed.

(** C10.  When the consecutive-loss counter has reached its limit, every
    evaluation is decided kill_switched, because the third evaluation, typed
    KILL_SWITCH, fails; this failure does not latch the switch (with the
    switch off and the drawdown below its threshold, the switch is still off
    after the call); and an approval without any reset can follow once the
    counter is back under the limit: after five losses the first demo signal
    is kill_switched, and approved again after one more recorded trade that
    is not a loss. *)
Theorem consecutive_losses_halt_without_latch e env s :
  (consecutive_loss_limit (config e) <= consecutive_losses (spend_tracker e))%Z ->
  let e1 := fst (evaluate_signal e env s) in
  let r1 := snd (evaluate_signal e env s) in
  decision r1 = KILL_SWITCHED /\
  (exists ev, nth_error (rules_evaluated r1) 2 = Some ev /\
              rule_id ev = "consecutive_losses"%string /\
              rule_type ev = "KILL_SWITCH"%string /\ passed ev = false) /\
  (kill_switch_active e = false -> ~ drawdown_reached e ->
   kill_switch_active e1 = false) /\
  (let ops := losing_streak
                ++ [OpEvaluate env_10h demo_signal;
                    OpRecordTrade 36000000000 0 0;
                    OpEvaluate env_10h demo_signal] in
   no_reset ops /\
   map decision (snd (run default_engine ops)) = [KILL_SWITCHED; APPROVED] /\
   kill_switch_active (fst (run default_engine ops)) = false).
Proof.
  intro H. cbv zeta.
  pose proof (consecutive_losses_fail e H) as P.
  split.
  { rewrite evaluate_signal_decides. apply decide_kill_switched.
    exists (_check_consecutive_losses (fst (_check_drawdown e))).
    split; [right; right; now left|]. split; [reflexivity|exact P]. }
  split.
  { exists (_check_consecutive_losses (fst (_check_drawdown e))).
    rewrite evaluate_signal_rules. repeat split; auto. }
  split.
  { intros A D. rewrite evaluate_signal_active, check_drawdown_active, A.
    rewrite check_drawdown_passed.
    destruct (Qlt_bool _ _) eqn:E; [reflexivity|].
    apply Qlt_bool_false_iff in E. now elim D. }
  split; [repeat constructor|].
  split; vm_compute; reflexivity.
Qed.

Lemma consecutive_losses_halt_without_latch_witness :
  (consecutive_loss_limit (config engine_after_losses)
   <= consecutive_losses (spend_tracker engine_after_losses))%Z /\
  decision (snd (evaluate_signal engine_after_losses env_10h demo_signal))
  = KILL_SWITCHED /\
  kill_switch_active (fst (evaluate_signal engine_after_losses env_10h demo_signal))
  = false.
Proof.
  assert (H : (consecutive_loss_limit (config engine_after_losses)
               <= consecutive_losses (spend_tracker engine_after_losses))%Z)
    by (vm_compute; discriminate).
  destruct (consecutive_losses_halt_without_latch engine_after_losses env_10h
              demo_signal H) as [K [_ [L _]]].
  split; [exact H|]. split; [exact K|].
  apply L; [reflexivity|].
  unfold drawdown_reached. vm_compute. intro N. now apply N.
Defined.

End GovernanceSpec.

(** * Properties of the risk stabilizer *)

Module StabilizerSpec.
Import Stabilizer.

(** ** C4: the recommended position size *)

Lemma calculate_position_size_returns cfg dd conviction regime exposure :
  ~ max_total_drawdown cfg == 0 ->
  exists x,
    calculate_position_size cfg dd conviction regime exposure
    = Returned (py_max (py_min (py_min x (1 - exposure)) (max_position_size cfg))
                       (min_position_size cfg)).
Proof.
  intro NZ. unfold calculate_position_size, py_div.
  destruct (Qeq_bool (max_total_drawdown cfg) 0) eqn:E.
  { apply Qeq_bool_iff in E. now elim NZ. }
  destruct (Qlt_bool _ dd); eexists; reflexivity.
Qed.

(** C4 (as stated, refuted).  With the portfolio fully committed the size is
    the configured minimum, 1%, above the remaining capacity of 0. *)
Lemma position_size_exceeds_capacity :
  0 <= 1 <= 1 /\
  calculate_position_size default_config 0 (1 # 2) CALM 1 = Returned (1 # 100) /\
  ~ sizing_as_specified default_config 0 (1 # 2) CALM 1.
Proof.
  split; [split; discriminate|].
  split; [reflexivity|].
  intros [size [E [_ C]]].
  vm_compute in E. inversion E; subst. vm_compute in C. now apply C.
Qed.

(** C4 (amended).  For a configuration with minPositionSize <= maxPositionSize
    (and a non-zero maxTotalDrawdown, so that the drawdown factor is defined),
    for every conviction, regime, drawdown and exposure, the position-sizing
    operation returns a size within [minPositionSize, maxPositionSize]; the
    size does not exceed the remaining capacity 1 - currentExposure whenever
    that capacity is at least minPositionSize, and is minPositionSize itself
    when the capacity is smaller. *)
Theorem position_size_bounds cfg dd conviction regime exposure :
  min_position_size cfg <= max_position_size cfg ->
  ~ max_total_drawdown cfg == 0 ->
  exists size,
    calculate_position_size cfg dd conviction regime exposure = Returned size /\
    min_position_size cfg <= size <= max_position_size cfg /\
    (min_position_size cfg <= 1 - exposure -> size <= 1 - exposure) /\
    (1 - exposure < min_position_size cfg -> size == min_position_size cfg).
Proof.
  intros B NZ.
  destruct (calculate_position_size_returns cfg dd conviction regime exposure NZ)
    as [x ->].
  eexists. split; [reflexivity|].
  set (m := py_min (py_min x (1 - exposure)) (max_position_size cfg)).
  assert (M1 : m <= max_position_size cfg) by apply py_min_upper.
  assert (M2 : m <= 1 - exposure).
  { apply Qle_trans with (py_min x (1 - exposure)); apply py_min_upper. }
  destruct (py_max_lower m (min_position_size cfg)) as [L1 L2].
  repeat split.
  - exact L2.
  - now apply py_max_upper.
  - intro H. now apply py_max_upper.
  - intro H. unfold py_max.
    destruct (Qlt_bool m (min_position_size cfg)) eqn:E; [reflexivity|].
    apply Qlt_bool_false_iff in E. lra.
Qed.

Lemma position_size_bounds_witness :
  min_position_size default_config <= max_position_size default_config /\
  ~ max_total_drawdown default_config == 0 /\
  exists size,
    calculate_position_size default_config (8 # 100) (9 # 10) TRENDING (9 # 10)
    = Returned size /\
    min_position_size default_config <= size <= max_position_size default_config /\
    size <= 1 - (9 # 10).
Proof.
  assert (B : min_position_size default_config <= max_position_size default_config)
    by discriminate.
  assert (NZ : ~ max_total_drawdown default_config == 0) by discriminate.
  destruct (position_size_bounds default_config (8 # 100) (9 # 10) TRENDING (9 # 10)
              B NZ) as [size [E [I [C _]]]].
  split; [exact B|]. split; [exact NZ|].
  exists size. split; [exact E|]. split; [exact I|].
  apply C. discriminate.
Defined.

(** ** C9: regime detection *)












End StabilizerSpec.

(** * Properties of the consensus aggregator *)

Module SignalsSpec.
Import Signals.

(** ** Grouping, totality and counting *)

Lemma key_eqb_eq a b : key_eqb a b = true <-> a = b.
Proof.
  destruct a, b. unfold key_eqb. simpl.
  rewrite andb_true_iff, !String.eqb_eq. split; [intros [-> ->]|intro H; inversion H]; auto.
Qed.

Lemma key_eqb_refl a : key_eqb a a = true.
Proof. now apply key_eqb_eq. Qed.

Lemma key_eqb_neq a b : key_eqb a b = false <-> a <> b.
Proof.
  split; intro H.
  - intro E. apply key_eqb_eq in E. congruence.
  - destruct (key_eqb a b) eqn:E; [|reflexivity]. apply key_eqb_eq in E. now elim H.
Qed.

Lemma group_positions_regroup_from scores positions : forall groups,
  fold_left
    (fun groups '(w, ps) =>
       match find_trader scores w with
       | None => groups
       | Some t =>
           fold_left
             (fun groups pos =>
                group_append (market_slug pos, outcome pos)
                             {| trader := t; position := pos |} groups)
             ps groups
       end)
    positions groups
  = regroup (all_holdings scores positions) groups.
Proof.
  induction positions as [|[w ps] rest IH]; intro groups; [reflexivity|].
  unfold all_holdings, regroup in *. simpl flat_map. rewrite fold_left_app.
  simpl fold_left at 1. rewrite IH. f_equal.
  unfold holdings_of. simpl fst. simpl snd.
  destruct (find_trader scores w) as [t|]; [|reflexivity].
  clear. revert groups. induction ps as [|pos ps IH]; intro groups; [reflexivity|].
  simpl. apply IH.
Qed.

Lemma group_positions_regroup scores positions :
  group_positions scores positions = regroup (all_holdings scores positions) [].
Proof. apply group_positions_regroup_from. Qed.

Lemma holdings_at_append k k' h groups :
  holdings_at k (group_append k' h groups)
  = if key_eqb k k' then holdings_at k groups ++ [h] else holdings_at k groups.
Proof.
  induction groups as [|[k0 hs] rest IH].
  - unfold holdings_at. simpl.
    destruct (key_eqb k' k) eqn:E.
    + apply key_eqb_eq in E. subst. now rewrite key_eqb_refl.
    + apply key_eqb_neq in E.
      assert (N : key_eqb k k' = false) by (apply key_eqb_neq; congruence).
      now rewrite N.
  - simpl. destruct (key_eqb k0 k') eqn:E0.
    + apply key_eqb_eq in E0. subst k0. unfold holdings_at. simpl.
      destruct (key_eqb k' k) eqn:E.
      * apply key_eqb_eq in E. subst. now rewrite key_eqb_refl.
      * apply key_eqb_neq in E.
        assert (N : key_eqb k k' = false) by (apply key_eqb_neq; congruence).
        now rewrite N.
    + unfold holdings_at in *. simpl.
      destruct (key_eqb k0 k) eqn:E; [|exact IH].
      apply key_eqb_eq in E. subst k0.
      apply key_eqb_neq in E0.
      assert (N : key_eqb k k' = false) by (apply key_eqb_neq; congruence).
      now rewrite N.
Qed.

Lemma holdings_at_regroup k hs : forall groups,
  holdings_at k (regroup hs groups) = holdings_at k groups ++ filter (in_group k) hs.
Proof.
  induction hs as [|h hs IH]; intro groups.
  - simpl. now rewrite app_nil_r.
  - unfold regroup in *. simpl. rewrite IH, holdings_at_append.
    unfold in_group at 2. destruct (key_eqb k (holding_key h)).
    + now rewrite <- app_assoc.
    + reflexivity.
Qed.

Lemma keys_append k h groups :
  map fst (group_append k h groups)
  = if existsb (fun k0 => key_eqb k0 k) (map fst groups) then map fst groups
    else map fst groups ++ [k].
Proof.
  induction groups as [|[k0 hs] rest IH]; [reflexivity|].
  simpl. destruct (key_eqb k0 k) eqn:E; [reflexivity|].
  simpl. rewrite IH. now destruct (existsb _ _).
Qed.

Lemma keys_append_nodup k h groups :
  NoDup (map fst groups) -> NoDup (map fst (group_append k h groups)).
Proof.
  intro N. rewrite keys_append.
  destruct (existsb _ _) eqn:E; [exact N|].
  apply NoDup_app; [exact N|repeat constructor; intros []|].
  intros x I [->|[]].
  assert (T : existsb (fun k0 => key_eqb k0 x) (map fst groups) = true).
  { apply existsb_exists. exists x. split; [exact I|apply key_eqb_refl]. }
  congruence.
Qed.

Lemma regroup_nodup hs : forall groups,
  NoDup (map fst groups) -> NoDup (map fst (regroup hs groups)).
Proof.
  induction hs as [|h hs IH]; intros groups N; [exact N|].
  unfold regroup in *. simpl. apply IH. now apply keys_append_nodup.
Qed.

Lemma holdings_at_member k hs groups :
  NoDup (map fst groups) -> In (k, hs) groups -> holdings_at k groups = hs.
Proof.
  induction groups as [|[k0 hs0] rest IH]; intros N I; [destruct I|].
  inversion N as [|? ? NI N']; subst. unfold holdings_at. simpl.
  destruct I as [E|I].
  - inversion E; subst. now rewrite key_eqb_refl.
  - destruct (key_eqb k0 k) eqn:E.
    + apply key_eqb_eq in E. subst k0. elim NI.
      change k with (fst (k, hs)). now apply in_map.
    + now apply IH.
Qed.

Lemma regroup_member scores positions k hs :
  In (k, hs) (group_positions scores positions) ->
  hs = filter (in_group k) (all_holdings scores positions).
Proof.
  intro I. rewrite group_positions_regroup in I.
  rewrite <- (holdings_at_member k hs _ (regroup_nodup _ [] (NoDup_nil _)) I).
  now rewrite holdings_at_regroup.
Qed.

Lemma group_append_nonempty k h groups :
  Forall (fun g => snd g <> []) groups ->
  Forall (fun g => snd g <> []) (group_append k h groups).
Proof.
  induction 1 as [|[k0 hs] rest P F IH]; simpl.
  - repeat constructor. discriminate.
  - destruct (key_eqb k0 k).
    + constructor; [|exact F]. simpl. now destruct hs.
    + constructor; auto.
Qed.

Lemma regroup_nonempty hs : forall groups,
  Forall (fun g => snd g <> []) groups ->
  Forall (fun g => snd g <> []) (regroup hs groups).
Proof.
  induction hs as [|h hs IH]; intros groups F; [exact F|].
  unfold regroup in *. simpl. apply IH. now apply group_append_nonempty.
Qed.

Lemma group_positions_nonempty scores positions :
  Forall (fun g => snd g <> []) (group_positions scores positions).
Proof. rewrite group_positions_regroup. apply regroup_nonempty. constructor. Qed.

Lemma inject_Z_nonzero z : z <> 0%Z -> Qeq_bool (inject_Z z) 0 = false.
Proof.
  intro H. destruct (Qeq_bool (inject_Z z) 0) eqn:E; [|reflexivity].
  apply Qeq_bool_iff in E. unfold Qeq in E. simpl in E. lia.
Qed.

Lemma signal_of_group_returns total mt mc k hs :
  total <> 0%Z -> hs <> [] ->
  exists o, signal_of_group total mt mc (k, hs) = Returned o /\
            forall sg, o = Some sg -> signal_of total k hs sg.
Proof.
  intros T N. destruct k as [slug out]. unfold signal_of_group, py_div.
  rewrite (inject_Z_nonzero total T).
  destruct (_ <? mt)%Z; [eexists; split; [reflexivity|discriminate]|].
  destruct (Qlt_bool _ mc); [eexists; split; [reflexivity|discriminate]|].
  destruct hs as [|h0 hs]; [now elim N|].
  eexists. split; [reflexivity|].
  intros sg E. inversion E; subst. repeat split.
Qed.

Lemma signals_of_groups_returns total mt mc groups :
  total <> 0%Z -> Forall (fun g => snd g <> []) groups ->
  exists sigs, signals_of_groups total mt mc groups = Returned sigs /\
               forall sg, In sg sigs ->
                 exists k hs, In (k, hs) groups /\ signal_of total k hs sg.
Proof.
  intros T. induction 1 as [|[k hs] rest N F IH].
  - exists []. split; [reflexivity|intros sg []].
  - destruct IH as [sigs [E S]].
    destruct (signal_of_group_returns total mt mc k hs T N) as [o [Eo So]].
    cbn [signals_of_groups]. rewrite Eo, E.
    eexists. split; [reflexivity|].
    intros sg I. destruct o as [sg0|].
    + destruct I as [<-|I].
      * exists k, hs. split; [now left|now apply So].
      * destruct (S sg I) as [k' [hs' [I' P]]]. exists k', hs'. split; [now right|exact P].
    + destruct (S sg I) as [k' [hs' [I' P]]]. exists k', hs'. split; [now right|exact P].
Qed.

Lemma insert_desc_in x s sorted : In x (insert_desc s sorted) <-> x = s \/ In x sorted.
Proof.
  induction sorted as [|y rest IH]; simpl.
  - intuition.
  - destruct (key_lt _ _); simpl; rewrite ?IH; intuition.
Qed.

Lemma sorted_desc_in x signals : In x (sorted_desc signals) <-> In x signals.
Proof.
  induction signals as [|s rest IH]; simpl; [tauto|].
  rewrite insert_desc_in, IH. intuition.
Qed.

(** Every call returns; each signal comes from a group of the first loop and
    its conviction is the size of the group over the number of wallets. *)
Lemma aggregate_signals_returns scores positions mt mc :
  exists sigs,
    aggregate_signals scores positions mt mc = Returned sigs /\
    forall sg, In sg sigs ->
      exists hs,
        hs = filter (in_group (sig_market_slug sg, sig_direction sg))
                    (all_holdings scores positions) /\
        hs <> [] /\
        signal_of (Z.of_nat (List.length positions))
                  (sig_market_slug sg, sig_direction sg) hs sg.
Proof.
  unfold aggregate_signals. destruct positions as [|wp rest].
  - exists []. split; [reflexivity|intros sg []].
  - set (positions := wp :: rest).
    assert (T : Z.of_nat (List.length positions) <> 0%Z) by (simpl; lia).
    destruct (signals_of_groups_returns _ mt mc _ T
                (group_positions_nonempty scores positions)) as [sigs [E S]].
    rewrite E. eexists. split; [reflexivity|].
    intros sg I. apply (proj1 (sorted_desc_in _ _)) in I.
    destruct (S sg I) as [k [hs [G P]]].
    pose proof (group_positions_nonempty scores positions) as NE.
    rewrite Forall_forall in NE. specialize (NE _ G). simpl in NE.
    destruct P as (P1 & P2 & P3 & P4).
    assert (K : (sig_market_slug sg, sig_direction sg) = k)
      by (rewrite P1, P2; now destruct k).
    exists hs. rewrite K. split; [now apply regroup_member|].
    split; [exact NE|]. repeat split; auto.
Qed.

Lemma filter_nodup_key k ps :
  NoDup (map position_key ps) ->
  List.length (filter (fun pos => key_eqb k (position_key pos)) ps)
  = if existsb (fun pos => key_eqb (position_key pos) k) ps then 1%nat else 0%nat.
Proof.
  induction ps as [|pos ps IH]; intro N; [reflexivity|].
  inversion N as [|? ? NI N']; subst. simpl.
  destruct (key_eqb k (position_key pos)) eqn:E.
  - apply key_eqb_eq in E. rewrite <- E, key_eqb_refl. simpl.
    rewrite (IH N').
    destruct (existsb _ ps) eqn:X; [|reflexivity].
    apply existsb_exists in X. destruct X as [p [I K]].
    apply key_eqb_eq in K. elim NI. rewrite <- E, <- K. now apply in_map.
  - apply key_eqb_neq in E.
    assert (F : key_eqb (position_key pos) k = false) by (apply key_eqb_neq; congruence).
    rewrite F. simpl. now apply IH.
Qed.

Lemma filter_holdings_of scores k wp :
  find_trader scores (fst wp) <> None ->
  NoDup (map position_key (snd wp)) ->
  List.length (filter (in_group k) (holdings_of scores wp))
  = if holds k wp then 1%nat else 0%nat.
Proof.
  intros T N. unfold holdings_of, holds.
  destruct (find_trader scores (fst wp)) as [t|]; [|now elim T].
  rewrite <- (filter_nodup_key k _ N).
  clear. induction (snd wp) as [|pos ps IH]; [reflexivity|].
  simpl. unfold in_group at 1, holding_key. simpl position.
  destruct (key_eqb k (position_key pos)); simpl; now rewrite IH.
Qed.

Lemma count_participants scores positions k :
  no_duplicates scores positions ->
  List.length (filter (in_group k) (all_holdings scores positions))
  = List.length (filter (holds k) positions).
Proof.
  induction 1 as [|wp rest [T N] F IH]; [reflexivity|].
  unfold all_holdings in *. simpl flat_map.
  rewrite filter_app, length_app, IH, (filter_holdings_of scores k wp T N).
  simpl. now destruct (holds k wp).
Qed.

Lemma wallets_of_group_holds positions sg :
  List.length (wallets_of_group positions sg)
  = List.length (filter (holds (sig_market_slug sg, sig_direction sg)) positions).
Proof.
  unfold wallets_of_group. rewrite length_map. f_equal.
  apply filter_ext. intros [w ps]. reflexivity.
Qed.

Lemma ratio_in_unit_interval (n t : nat) :
  (0 < t)%nat -> (n <= t)%nat ->
  0 <= inject_Z (Z.of_nat n) / inject_Z (Z.of_nat t) <= 1.
Proof.
  intros T N.
  assert (P : 0 < inject_Z (Z.of_nat t)).
  { change 0 with (inject_Z 0). rewrite <- Zlt_Qlt. lia. }
  split.
  - apply Qle_shift_div_l; [exact P|]. rewrite Qmult_0_l.
    change 0 with (inject_Z 0). rewrite <- Zle_Qle. lia.
  - apply Qle_shift_div_r; [exact P|]. rewrite Qmult_1_l.
    rewrite <- Zle_Qle. lia.
Qed.

(** Without duplicates the conviction is as specified. *)
Lemma conviction_without_duplicates scores positions mt mc :
  no_duplicates scores positions ->
  exists sigs,
    aggregate_signals scores positions mt mc = Returned sigs /\
    forall sg, In sg sigs -> conviction_as_specified positions sg.
Proof.
  intro ND.
  destruct (aggregate_signals_returns scores positions mt mc) as [sigs [E S]].
  exists sigs. split; [exact E|].
  intros sg I. destruct (S sg I) as [hs [H [NE (_ & _ & _ & C)]]].
  assert (L : List.length hs = List.length (wallets_of_group positions sg)).
  { rewrite H, count_participants by exact ND. now rewrite wallets_of_group_holds. }
  unfold conviction_as_specified. rewrite C, L. split; [reflexivity|].
  apply ratio_in_unit_interval.
  - destruct positions; [|simpl; lia].
    rewrite H in NE. now elim NE.
  - rewrite wallets_of_group_holds. apply filter_length_le.
Qed.

(** ** C5: the conviction of an emitted signal *)

(** C5 (the code departs from it).  One participant holding two positions on
    the same outcome of the same market is counted twice: the only signal
    emitted has [num_traders] 2 and conviction 2/1 = 2, although its group
    has one participant out of one; the conviction is neither that ratio nor
    inside [0,1]. *)
Theorem conviction_counts_positions_not_participants :
  exists sg,
    aggregate_signals [one_trader] one_wallet_two_positions 2 (1 # 10)
    = Returned [sg] /\
    List.length one_wallet_two_positions = 1%nat /\
    wallets_of_group one_wallet_two_positions sg = ["0xabc"%string] /\
    sig_num_traders sg = 2%Z /\
    sig_conviction sg == 2 /\
    ~ conviction_as_specified one_wallet_two_positions sg.
Proof.
  eexists. split; [vm_compute; reflexivity|].
  split; [reflexivity|]. split; [reflexivity|]. split; [reflexivity|].
  split; [reflexivity|].
  intros [_ [_ H]]. vm_compute in H. now apply H.
Qed.

End SignalsSpec.

(** * Further properties of the governance engine *)

Module GovernanceMore.
Import Governance GovernanceSpec.

(** ** The spend tracker *)

(** X1.  After [record_trade] the balance does not exceed the peak balance, the
    peak balance has not fallen, and the drawdown read from the tracker is not
    negative, whatever the amount and the P&L of the trade. *)
Theorem record_trade_keeps_balance_under_peak now t amount pnl :
  let t' := record_trade now t amount pnl in
  current_balance t' <= peak_balance t' /\
  peak_balance t <= peak_balance t' /\
  0 <= get_drawdown t'.
Proof.
  cbv zeta. unfold record_trade, get_drawdown. simpl.
  set (b := current_balance t - inject_Z amount / 100).
  destruct (Qlt_bool (peak_balance t) b) eqn:E.
  - apply Qlt_bool_iff in E. repeat split; try lra.
    destruct (Qle_bool b 0); [lra|].
    setoid_replace (b - b) with 0 by ring. unfold Qdiv. rewrite Qmult_0_l. lra.
  - apply Qlt_bool_false_iff in E. repeat split; try lra.
    destruct (Qle_bool (peak_balance t) 0) eqn:P; [lra|].
    assert (0 < peak_balance t).
    { apply Qnot_le_lt. intro L. apply Qle_bool_iff in L. congruence. }
    apply Qle_shift_div_l; [assumption|]. lra.
Qed.

(** X2.  [get_drawdown] is 0 while the peak balance is not positive, and lies
    between 0 and 1 while the balance lies between 0 and the peak balance. *)
Theorem get_drawdown_in_unit_interval t :
  (peak_balance t <= 0 -> get_drawdown t = 0) /\
  (0 <= current_balance t <= peak_balance t -> 0 <= get_drawdown t <= 1).
Proof.
  unfold get_drawdown. split.
  - intro H. apply Qle_bool_iff in H. now rewrite H.
  - intros [L U]. destruct (Qle_bool (peak_balance t) 0) eqn:P; [lra|].
    assert (0 < peak_balance t).
    { apply Qnot_le_lt. intro K. apply Qle_bool_iff in K. congruence. }
    split.
    + apply Qle_shift_div_l; [assumption|]. lra.
    + apply Qle_shift_div_r; [assumption|]. lra.
Qed.

Lemma get_drawdown_in_unit_interval_witness :
  0 <= current_balance (spend_tracker engine_in_drawdown)
    <= peak_balance (spend_tracker engine_in_drawdown) /\
  0 <= get_drawdown (spend_tracker engine_in_drawdown) <= 1.
Proof.
  assert (H : 0 <= current_balance (spend_tracker engine_in_drawdown)
                <= peak_balance (spend_tracker engine_in_drawdown))
    by (split; discriminate).
  split; [exact H|].
  exact (proj2 (get_drawdown_in_unit_interval (spend_tracker engine_in_drawdown)) H).
Defined.

Lemma py_sum_int_from xs : forall a, fold_left Z.add xs a = (a + py_sum_int xs)%Z.
Proof.
  unfold py_sum_int. induction xs as [|x xs IH]; intro a; simpl; [lia|].
  rewrite IH, (IH x). lia.
Qed.

Lemma py_sum_int_app xs ys : py_sum_int (xs ++ ys) = (py_sum_int xs + py_sum_int ys)%Z.
Proof.
  unfold py_sum_int at 1. rewrite fold_left_app.
  fold (py_sum_int xs). apply py_sum_int_from.
Qed.

Lemma py_sum_from xs : forall a, fold_left Qplus xs a == a + py_sum xs.
Proof.
  unfold py_sum. induction xs as [|x xs IH]; intro a; simpl; [ring|].
  rewrite IH, (IH (0 + x)). ring.
Qed.

Lemma py_sum_app xs ys : py_sum (xs ++ ys) == py_sum xs + py_sum ys.
Proof.
  unfold py_sum at 1. rewrite fold_left_app.
  fold (py_sum xs). apply py_sum_from.
Qed.

Lemma get_spend_since_record now t amount pnl since :
  get_spend_since (record_trade now t amount pnl) since
  = (get_spend_since t since + if (since <=? now)%Z then amount else 0)%Z.
Proof.
  unfold get_spend_since, record_trade. simpl transactions.
  rewrite filter_app, map_app, py_sum_int_app. f_equal.
  simpl. destruct (since <=? now)%Z; reflexivity.
Qed.

(** A recorded trade adds its amount to the daily and to the weekly spend
    exactly while its timestamp lies inside the window. *)
Lemma recorded_trade_counts_inside_the_window now t amount pnl later :
  get_daily_spend later (record_trade now t amount pnl)
  = (get_daily_spend later t
     + if (later - microseconds_per_day <=? now)%Z then amount else 0)%Z /\
  get_weekly_spend later (record_trade now t amount pnl)
  = (get_weekly_spend later t
     + if (later - 7 * microseconds_per_day <=? now)%Z then amount else 0)%Z.
Proof.
  unfold get_daily_spend, get_weekly_spend. rewrite !get_spend_since_record.
  replace (later - 1 * microseconds_per_day)%Z with (later - microseconds_per_day)%Z
    by lia.
  split; reflexivity.
Qed.

Lemma record_trades_snoc t trades tr :
  record_trades t (trades ++ [tr])
  = record_trade (tr_now tr) (record_trades t trades) (tr_amount_cents tr) (tr_pnl tr).
Proof. unfold record_trades. now rewrite fold_left_app. Qed.

Lemma record_trades_transactions trades : forall t,
  transactions (record_trades t trades) = transactions t ++ map transaction_of trades.
Proof.
  induction trades as [|tr trades IH]; intro t; simpl.
  - now rewrite app_nil_r.
  - unfold record_trades in *. simpl. rewrite IH. simpl.
    now rewrite <- app_assoc.
Qed.

Lemma record_trades_balance trades : forall t,
  current_balance (record_trades t trades)
  == current_balance t - cents_to_dollars (py_sum_int (map tr_amount_cents trades)).
Proof.
  unfold cents_to_dollars.
  induction trades as [|tr trades IH]; intro t.
  - simpl. unfold py_sum_int. simpl. unfold Qdiv. rewrite Qmult_0_l. ring.
  - unfold record_trades in *. simpl fold_left. rewrite IH. simpl current_balance.
    simpl map. change (tr_amount_cents tr :: map tr_amount_cents trades)
      with ([tr_amount_cents tr] ++ map tr_amount_cents trades).
    rewrite py_sum_int_app, inject_Z_plus.
    unfold py_sum_int at 2. simpl. field.
Qed.

Lemma record_trades_pnl trades : forall t,
  total_pnl (record_trades t trades) == total_pnl t + py_sum (map tr_pnl trades).
Proof.
  induction trades as [|tr trades IH]; intro t.
  - simpl. unfold py_sum. simpl. ring.
  - unfold record_trades in *. simpl fold_left. rewrite IH. simpl total_pnl.
    simpl map. change (tr_pnl tr :: map tr_pnl trades)
      with ([tr_pnl tr] ++ map tr_pnl trades).
    rewrite py_sum_app. unfold py_sum at 2. simpl. ring.
Qed.

(** X3.  After any sequence of [record_trade] calls the ledger is the old ledger
    followed by one transaction per call, in call order; the balance has
    fallen by the recorded amounts (in dollars) and the P&L has only been added
    to [total_pnl], never to the balance; the spend since any instant has
    grown by the amounts recorded at or after that instant. *)
Theorem record_trades_ledger t trades since :
  let t' := record_trades t trades in
  transactions t' = transactions t ++ map transaction_of trades /\
  current_balance t'
  == current_balance t - cents_to_dollars (py_sum_int (map tr_amount_cents trades)) /\
  total_pnl t' == total_pnl t + py_sum (map tr_pnl trades) /\
  get_spend_since t' since
  = (get_spend_since t since + py_sum_int (amounts_since since trades))%Z.
Proof.
  cbv zeta. split; [apply record_trades_transactions|].
  split; [apply record_trades_balance|].
  split; [apply record_trades_pnl|].
  unfold get_spend_since, amounts_since.
  rewrite record_trades_transactions, filter_app, map_app, py_sum_int_app. f_equal.
  f_equal. induction trades as [|tr trades IH]; [reflexivity|].
  simpl. destruct (since <=? tr_now tr)%Z; simpl; now rewrite IH.
Qed.

Lemma py_sum_int_cons x xs : py_sum_int (x :: xs) = (x + py_sum_int xs)%Z.
Proof. unfold py_sum_int. simpl. apply py_sum_int_from. Qed.

Lemma py_sum_int_nonneg xs : Forall (fun x => (0 <= x)%Z) xs -> (0 <= py_sum_int xs)%Z.
Proof.
  induction 1 as [|x xs H F IH]; [reflexivity|].
  rewrite py_sum_int_cons. lia.
Qed.

Lemma get_spend_since_antitone t since since' :
  nonnegative_ledger t -> (since <= since')%Z ->
  (0 <= get_spend_since t since' <= get_spend_since t since)%Z.
Proof.
  unfold nonnegative_ledger, get_spend_since. intros N L.
  induction N as [|x xs H F IH]; [unfold py_sum_int; simpl; lia|].
  simpl filter.
  destruct (since' <=? tx_timestamp x)%Z eqn:E'.
  - assert (E : (since <=? tx_timestamp x)%Z = true)
      by (apply Z.leb_le in E'; apply Z.leb_le; lia).
    rewrite E. simpl map. rewrite !py_sum_int_cons. lia.
  - destruct (since <=? tx_timestamp x)%Z; [|exact IH].
    simpl map. rewrite py_sum_int_cons. lia.
Qed.

(** X4.  While no recorded amount is negative, the daily spend read at an instant
    is not negative and does not exceed the weekly spend read at the same
    instant. *)
Theorem daily_spend_within_weekly_spend now t :
  nonnegative_ledger t ->
  (0 <= get_daily_spend now t <= get_weekly_spend now t)%Z.
Proof.
  intro N. unfold get_daily_spend, get_weekly_spend.
  apply get_spend_since_antitone; [exact N|]. unfold microseconds_per_day. lia.
Qed.

Lemma leading_losses_app_all xs ys :
  forallb is_loss xs = true ->
  leading_losses (xs ++ ys) = (List.length xs + leading_losses ys)%nat.
Proof.
  induction xs as [|x xs IH]; intro H; [reflexivity|].
  simpl in *. apply andb_true_iff in H. destruct H as [H1 H2].
  rewrite H1. now rewrite IH.
Qed.

Lemma leading_losses_app_stop xs ys :
  forallb is_loss xs = false ->
  leading_losses (xs ++ ys) = leading_losses xs.
Proof.
  induction xs as [|x xs IH]; intro H; [discriminate|].
  simpl in *. destruct (is_loss x); [|reflexivity].
  simpl in H. now rewrite IH.
Qed.

Lemma forallb_rev {A} (f : A -> bool) xs : forallb f (rev xs) = forallb f xs.
Proof.
  induction xs as [|x xs IH]; [reflexivity|].
  simpl. rewrite forallb_app, IH. simpl. rewrite andb_true_r. apply andb_comm.
Qed.

(** X5.  After a sequence of [record_trade] calls [consecutive_losses] is the
    number of losing trades (P&L below 0) since the last trade that was not
    one; when every trade of the sequence lost, it is the earlier count plus
    the length of the sequence.  A trade with P&L 0 resets the count. *)
Theorem consecutive_losses_count_the_trailing_losses t trades :
  consecutive_losses (record_trades t trades)
  = if forallb is_loss (map tr_pnl trades)
    then (consecutive_losses t + Z.of_nat (List.length trades))%Z
    else Z.of_nat (trailing_losses (map tr_pnl trades)).
Proof.
  induction trades as [|tr trades IH] using rev_ind.
  - simpl. lia.
  - rewrite record_trades_snoc. simpl consecutive_losses.
    rewrite map_app, forallb_app. simpl map. simpl forallb.
    unfold trailing_losses. rewrite rev_app_distr. simpl rev. simpl app.
    simpl leading_losses. fold (is_loss (tr_pnl tr)).
    destruct (is_loss (tr_pnl tr)) eqn:L.
    + rewrite andb_true_r, IH, length_app. simpl List.length.
      destruct (forallb is_loss (map tr_pnl trades)); [lia|].
      unfold trailing_losses. lia.
    + rewrite andb_false_r. reflexivity.
Qed.

(** ** Approval *)

Lemma existsb_eqb_In x xs : existsb (String.eqb x) xs = true <-> In x xs.
Proof.
  rewrite existsb_exists. split.
  - intros [y [I E]]. apply String.eqb_eq in E. now subst.
  - intro I. exists x. split; [exact I|apply String.eqb_refl].
Qed.

Lemma all_passed_iff evs :
  ~ some_failure evs <-> Forall (fun ev => passed ev = true) evs.
Proof.
  unfold some_failure. rewrite Forall_forall. split.
  - intros H ev I. destruct (passed ev) eqn:P; [reflexivity|].
    elim H. now exists ev.
  - intros H [ev [I P]]. rewrite (H ev I) in P. discriminate.
Qed.

Lemma battery_passed_iff e env s :
  Forall (fun ev => passed ev = true) (battery e env s) <-> approvable e env s.
Proof.
  unfold battery, approvable.
  pose proof (check_drawdown_config e) as C.
  pose proof (check_drawdown_tracker e) as T.
  set (e1 := fst (_check_drawdown e)) in *.
  set (cost := total_cost_cents (build_order_request e s)).
  repeat rewrite Forall_cons_iff.
  unfold _check_kill_switch, _check_consecutive_losses, _check_entry_quality,
    _check_ars_score, _check_conviction, _check_per_trade_limit,
    _check_daily_limit, _check_weekly_limit, _check_balance,
    _check_trading_hours.
  rewrite check_drawdown_passed. cbn [passed].
  rewrite C, T.
  rewrite negb_true_iff, Qlt_bool_iff, Z.ltb_lt, existsb_eqb_In, !Qle_bool_iff,
    !Z.leb_le, andb_true_iff, Z.leb_le, Z.ltb_lt.
  intuition.
Qed.

(** X6.  [evaluate_signal] approves a signal exactly when all of these hold: the
    kill switch is off; the drawdown is strictly below the threshold; the
    consecutive losses are strictly below their limit; the entry quality is in
    the allow-list; the ARS score and the conviction are at least their minima;
    the cost of the order is at most the per-trade cap; the daily and the
    weekly spend plus the cost are at most their caps; the cost is at most the
    balance in whole cents; and the hour lies in the trading window, start
    included and end excluded. *)
Theorem approved_iff_every_condition_holds e env s :
  decision (snd (evaluate_signal e env s)) = APPROVED <-> approvable e env s.
Proof.
  rewrite evaluate_signal_decides, decide_approved, all_passed_iff.
  apply battery_passed_iff.
Qed.

(** ** Evaluation followed by execution *)

Lemma evaluate_then_execute e env s x :
  execute_approved_trade (fst (evaluate_signal e env s)) x
                         (snd (evaluate_signal e env s))
  = if decision_eqb (decision (snd (evaluate_signal e env s))) APPROVED
    then Returned
           (with_spend_tracker (fst (evaluate_signal e env s))
              (record_trade (now_trade x) (spend_tracker e)
                            (total_cost_cents (build_order_request e s)) 0),
            with_execution (snd (evaluate_signal e env s))
              {| status := "executed";
                 order_id := exec_uuid x;
                 filled_at := now_filled x;
                 cost_cents := total_cost_cents (build_order_request e s) |})
    else Returned (fst (evaluate_signal e env s), snd (evaluate_signal e env s)).
Proof.
  unfold execute_approved_trade.
  rewrite evaluate_signal_order, evaluate_signal_tracker.
  now destruct (decision_eqb _ _).
Qed.

(** X7.  [execute_approved_trade] on the result of [evaluate_signal] always
    returns.  When the signal was approved it records exactly the cost of the
    order with P&L 0: the consecutive losses are reset to 0, the balance falls
    by the cost, the execution result carries the same cost and the kill
    switch is left alone.  Otherwise the engine and the result are unchanged. *)
Theorem executing_an_evaluation_never_raises e env s x :
  let e1 := fst (evaluate_signal e env s) in
  let r := snd (evaluate_signal e env s) in
  let cost := total_cost_cents (build_order_request e s) in
  exists e' r',
    execute_approved_trade e1 x r = Returned (e', r') /\
    (decision r = APPROVED ->
     spend_tracker e' = record_trade (now_trade x) (spend_tracker e) cost 0 /\
     consecutive_losses (spend_tracker e') = 0%Z /\
     current_balance (spend_tracker e')
     == current_balance (spend_tracker e) - cents_to_dollars cost /\
     option_map cost_cents (execution_result r') = Some cost /\
     kill_switch_active e' = kill_switch_active e1) /\
    (decision r <> APPROVED -> e' = e1 /\ r' = r).
Proof.
  cbv zeta. rewrite evaluate_then_execute.
  destruct (decision_eqb _ APPROVED) eqn:E.
  - apply decision_eqb_eq in E. eexists. eexists. split; [reflexivity|].
    split; [|congruence]. intros _. simpl. repeat split; reflexivity.
  - eexists. eexists. split; [reflexivity|]. split; [|auto].
    intro A. apply decision_eqb_eq in A. congruence.
Qed.

Lemma order_price_nonneg s : 0 <= current_price s -> (0 <= order_price_cents s)%Z.
Proof.
  intro P. unfold order_price_cents.
  assert (H : 0 <= current_price s * 100) by (apply Qmult_le_0_compat; [exact P|discriminate]).
  rewrite (py_int_nonneg _ H). change 0%Z with (Qfloor 0).
  now apply Qfloor_resp_le.
Qed.

Lemma order_cost_nonneg e s :
  0 <= current_price s -> (0 <= total_cost_cents (build_order_request e s))%Z.
Proof.
  intro P. simpl. apply Z.mul_nonneg_nonneg; [now apply order_price_nonneg|].
  unfold order_contracts. lia.
Qed.

Lemma record_trade_nonnegative_ledger now t amount pnl :
  nonnegative_ledger t -> (0 <= amount)%Z ->
  nonnegative_ledger (record_trade now t amount pnl).
Proof.
  unfold nonnegative_ledger, record_trade. simpl. intros N A.
  apply Forall_app. split; [exact N|]. now repeat constructor.
Qed.

(** X8.  Caps are kept by execution.  When a signal is approved and executed
    (the ledger holding no negative amount, the price not negative), the daily
    and the weekly spend read at any later instant stay within their caps, a
    balance that was not negative stays so, and the ledger still holds no
    negative amount. *)
Theorem executed_trade_stays_within_the_caps e env s x later :
  decision (snd (evaluate_signal e env s)) = APPROVED ->
  nonnegative_ledger (spend_tracker e) ->
  0 <= current_price s ->
  (now_daily env <= later)%Z -> (now_weekly env <= later)%Z ->
  exists e' r',
    execute_approved_trade (fst (evaluate_signal e env s)) x
                           (snd (evaluate_signal e env s)) = Returned (e', r') /\
    (get_daily_spend later (spend_tracker e')
     <= max_daily_spend_cents (config e))%Z /\
    (get_weekly_spend later (spend_tracker e')
     <= max_weekly_spend_cents (config e))%Z /\
    (0 <= current_balance (spend_tracker e) ->
     0 <= current_balance (spend_tracker e')) /\
    nonnegative_ledger (spend_tracker e').
Proof.
  intros A N P Ld Lw.
  assert (Q : approvable e env s).
  { apply battery_passed_iff, all_passed_iff, decide_approved.
    now rewrite <- evaluate_signal_decides. }
  destruct Q as (_ & _ & _ & _ & _ & _ & _ & D & W & B & _).
  pose proof (order_cost_nonneg e s P) as C.
  rewrite evaluate_then_execute.
  apply decision_eqb_eq in A. rewrite A.
  eexists. eexists. split; [reflexivity|].
  cbn [spend_tracker with_spend_tracker fst].
  set (cost := total_cost_cents (build_order_request e s)) in *.
  unfold get_daily_spend at 1, get_weekly_spend at 1.
  rewrite !get_spend_since_record.
  fold (get_daily_spend later (spend_tracker e)).
  fold (get_weekly_spend later (spend_tracker e)).
  split; [|split; [|split]].
  - assert (M : (get_daily_spend later (spend_tracker e)
                 <= get_daily_spend (now_daily env) (spend_tracker e))%Z).
    { unfold get_daily_spend. apply get_spend_since_antitone; [exact N|lia]. }
    destruct (_ <=? _)%Z; lia.
  - assert (M : (get_weekly_spend later (spend_tracker e)
                 <= get_weekly_spend (now_weekly env) (spend_tracker e))%Z).
    { unfold get_weekly_spend. apply get_spend_since_antitone; [exact N|lia]. }
    destruct (_ <=? _)%Z; lia.
  - intro Bal. simpl.
    assert (H : 0 <= current_balance (spend_tracker e) * 100)
      by (apply Qmult_le_0_compat; [exact Bal|discriminate]).
    rewrite (py_int_nonneg _ H) in B.
    pose proof (Qfloor_le (current_balance (spend_tracker e) * 100)) as F.
    assert (I : inject_Z cost <= current_balance (spend_tracker e) * 100).
    { apply Qle_trans with (inject_Z (Qfloor (current_balance (spend_tracker e) * 100)));
        [|exact F]. now rewrite <- Zle_Qle. }
    assert (J : inject_Z cost / 100 <= current_balance (spend_tracker e)).
    { apply Qle_shift_div_r; [reflexivity|exact I]. }
    lra.
  - now apply record_trade_nonnegative_ledger.
Qed.

(** ** Counters and the audit log along a run *)

Lemma evaluate_signal_counters e env s :
  let e1 := fst (evaluate_signal e env s) in
  let approved := decision_eqb (decision (snd (evaluate_signal e env s))) APPROVED in
  total_signals_processed e1 = (total_signals_processed e + 1)%Z /\
  total_approved e1 = (total_approved e + if approved then 1 else 0)%Z /\
  total_blocked e1 = (total_blocked e + if approved then 0 else 1)%Z.
Proof.
  cbv zeta. unfold evaluate_signal, _check_drawdown.
  destruct (_ && _); cbn [fst snd total_signals_processed total_approved
                          total_blocked decision];
    destruct (decision_eqb _ _); repeat split; lia.
Qed.

Lemma step_counters e o :
  let e1 := fst (step e o) in
  counters_consistent e ->
  counters_consistent e1 /\
  total_signals_processed e1
  = (total_signals_processed e + if is_evaluate o then 1 else 0)%Z.
Proof.
  cbv zeta. unfold counters_consistent. intros (S & A & B).
  destruct o.
  - rewrite step_evaluate. cbn [fst is_evaluate].
    destruct (evaluate_signal_counters e env s) as (P & Q & R).
    rewrite P, Q, R. destruct (decision_eqb _ _); lia.
  - unfold step, execute_approved_trade.
    destruct (negb _); [cbn; lia|].
    destruct (order_request r); cbn; lia.
  - cbn. lia.
  - cbn. lia.
  - cbn. lia.
  - cbn. lia.
Qed.

Lemma run_cons e o ops :
  run e (o :: ops)
  = (fst (run (fst (step e o)) ops),
     match snd (step e o) with
     | Some r => r :: snd (run (fst (step e o)) ops)
     | None => snd (run (fst (step e o)) ops)
     end).
Proof.
  simpl. destruct (step e o) as [e' r]. simpl.
  now destruct (run e' ops).
Qed.

Lemma step_result_iff_evaluate e o :
  (exists r, snd (step e o) = Some r /\ is_evaluate o = true)
  \/ (snd (step e o) = None /\ is_evaluate o = false).
Proof.
  destruct o; try (right; split; reflexivity).
  - left. rewrite step_evaluate. eexists. split; reflexivity.
  - right. split; [|reflexivity]. unfold step.
    now destruct (execute_approved_trade e x r) as [[? ?]|?].
Qed.

Lemma run_counters ops : forall e,
  counters_consistent e ->
  counters_consistent (fst (run e ops)) /\
  total_signals_processed (fst (run e ops))
  = (total_signals_processed e
     + Z.of_nat (List.length (filter is_evaluate ops)))%Z /\
  List.length (snd (run e ops)) = List.length (filter is_evaluate ops).
Proof.
  induction ops as [|o ops IH]; intros e C.
  - simpl. repeat split; try apply C; lia.
  - rewrite run_cons. cbn [fst snd filter].
    destruct (step_counters e o C) as [C' P].
    destruct (IH _ C') as (C'' & P' & L).
    split; [exact C''|]. rewrite P', P.
    destruct (step_result_iff_evaluate e o) as [[r [E T]]|[E T]];
      rewrite E, T; cbn [List.length]; split; lia.
Qed.

(** X9.  Starting from consistent counters, over any sequence of engine
    operations the counters stay consistent: approved plus blocked equals
    processed, the processed count grows by the number of evaluations, one
    result is produced per evaluation, and the approval rate of [get_stats]
    lies between 0 and 1. *)
Theorem counters_add_up e ops now_d now_w :
  counters_consistent e ->
  let e' := fst (run e ops) in
  counters_consistent e' /\
  total_signals_processed e'
  = (total_signals_processed e
     + Z.of_nat (List.length (filter is_evaluate ops)))%Z /\
  List.length (snd (run e ops)) = List.length (filter is_evaluate ops) /\
  0 <= st_approval_rate (get_stats now_d now_w e') <= 1.
Proof.
  intro C. cbv zeta.
  destruct (run_counters ops e C) as (C' & P & L).
  split; [exact C'|]. split; [exact P|]. split; [exact L|].
  destruct C' as (S & A & B). cbn [get_stats st_approval_rate].
  set (a := total_approved (fst (run e ops))) in *.
  set (n := total_signals_processed (fst (run e ops))) in *.
  assert (D : 0 < inject_Z (Z.max n 1)).
  { change 0 with (inject_Z 0). rewrite <- Zlt_Qlt. lia. }
  split.
  - apply Qle_shift_div_l; [exact D|]. rewrite Qmult_0_l.
    change 0 with (inject_Z 0). rewrite <- Zle_Qle. exact A.
  - apply Qle_shift_div_r; [exact D|]. rewrite Qmult_1_l.
    rewrite <- Zle_Qle. lia.
Qed.

Lemma step_audit e o :
  audit_log (fst (step e o))
  = audit_log e
    ++ match o with
       | OpEvaluate env s => [to_audit_entry (snd (evaluate_signal e env s))]
       | OpActivate uuid now why => [AuditKillSwitchActivated uuid now why]
       | OpReset uuid now by_ => [AuditKillSwitchReset uuid now by_]
       | _ => []
       end.
Proof.
  destruct o.
  - rewrite step_evaluate. apply evaluate_signal_audit.
  - unfold step, execute_approved_trade. rewrite app_nil_r.
    destruct (negb _); [reflexivity|].
    now destruct (order_request r).
  - reflexivity.
  - reflexivity.
  - cbn. now rewrite app_nil_r.
  - cbn. now rewrite app_nil_r.
Qed.

(** X10.  The audit log is append-only.  Over any sequence of operations the old
    log is a prefix of the new one; one entry is added per evaluation, kill
    switch activation and kill switch reset, none by an execution; and the
    evaluation entries added are the audit entries of the results returned, in
    order. *)
Theorem audit_log_is_append_only ops : forall e,
  exists suffix,
    audit_log (fst (run e ops)) = audit_log e ++ suffix /\
    List.length suffix = List.length (filter is_audited ops) /\
    filter is_evaluation_entry suffix = map to_audit_entry (snd (run e ops)).
Proof.
  induction ops as [|o ops IH]; intro e.
  - exists []. simpl. rewrite app_nil_r. repeat split.
  - destruct (IH (fst (step e o))) as (suffix & A & L & F).
    rewrite run_cons. cbn [fst snd]. rewrite A, step_audit, <- app_assoc.
    eexists. split; [reflexivity|].
    rewrite length_app, filter_app, F, L.
    destruct o; cbn [is_audited filter List.length app is_evaluation_entry].
    + rewrite step_evaluate. cbn [snd map]. split; reflexivity.
    + split; [reflexivity|]. unfold step.
      now destruct (execute_approved_trade e x r) as [[? ?]|?].
    + split; reflexivity.
    + split; reflexivity.
    + split; reflexivity.
    + split; reflexivity.
Qed.

Lemma filter_nil_iff {A} (f : A -> bool) xs :
  filter f xs = [] <-> List.length (filter f xs) = 0%nat.
Proof. destruct (filter f xs); simpl; split; congruence. Qed.

(** X11.  The last entry of the audit log after [evaluate_signal] is the audit
    entry of the result it returns.  The entry carries the decision, reports
    11 rules checked, and reports no failed rule, no blocking rule and an order
    value exactly when the decision is APPROVED. *)
Theorem audit_entry_of_an_evaluation e env s :
  let r := snd (evaluate_signal e env s) in
  let a := to_audit_entry r in
  last (audit_log (fst (evaluate_signal e env s))) a = a /\
  entry_decision a = Some (decision_value (decision r)) /\
  entry_rules_checked a = Some 11%nat /\
  (entry_rules_failed a = Some 0%nat <-> decision r = APPROVED) /\
  (entry_blocking_rules a = Some [] <-> decision r = APPROVED) /\
  (entry_order_value a <> None <-> decision r = APPROVED).
Proof.
  cbv zeta. rewrite evaluate_signal_audit, last_last.
  unfold to_audit_entry. cbn [entry_decision entry_rules_checked
    entry_rules_failed entry_blocking_rules entry_order_value].
  rewrite evaluate_signal_order, evaluate_signal_rules, evaluate_signal_decides.
  split; [reflexivity|]. split; [reflexivity|]. split; [reflexivity|].
  rewrite decide_approved, <- filter_failed_nonempty.
  set (failed := filter (fun ev => negb (passed ev)) (battery e env s)).
  split; [|split].
  - destruct failed; simpl; split; intro H; try congruence. now elim H.
  - destruct failed; simpl; split; intro H; try congruence. now elim H.
  - subst failed. rewrite filter_failed_nonempty, <- decide_approved.
    destruct (decide (battery e env s)); simpl; split; congruence.
Qed.

(** ** The size of the order *)

(** X12.  When the price is at least one cent and the recommended fraction of the
    balance buys at least one contract, the order holds at least one contract
    and no more than the configured maximum (one, when the maximum is below
    one), no more than the fraction affords, and costs at most the recommended
    fraction of the balance. *)
Theorem order_cost_within_recommended_fraction e s :
  1 # 100 <= current_price s ->
  1 <= affordable_contracts e s ->
  let o := build_order_request e s in
  (1 <= count o <= max_position_contracts (config e)
   \/ count o = 1 /\ max_position_contracts (config e) < 1)%Z /\
  inject_Z (count o) <= affordable_contracts e s /\
  cents_to_dollars (total_cost_cents o)
  <= recommended_size s * current_balance (spend_tracker e).
Proof.
  intros P A. cbv zeta. cbn [count total_cost_cents price build_order_request].
  rewrite order_contracts_clamped. unfold clamp.
  set (x := affordable_contracts e s) in *.
  set (m := max_position_contracts (config e)).
  assert (F1 : (1 <= Qfloor x)%Z).
  { change 1%Z with (Qfloor 1). now apply Qfloor_resp_le. }
  pose proof (Qfloor_le x) as F2.
  set (n := Z.max 1 (Z.min (Qfloor x) m)).
  assert (N1 : (1 <= n <= Qfloor x)%Z) by (unfold n; lia).
  assert (N2 : inject_Z n <= x).
  { apply Qle_trans with (inject_Z (Qfloor x)); [|exact F2].
    rewrite <- Zle_Qle. lia. }
  split; [unfold n; lia|]. split; [exact N2|].
  assert (P0 : 0 <= current_price s) by lra.
  pose proof (order_price_nonneg s P0) as C0.
  assert (C1 : inject_Z (order_price_cents s) <= current_price s * 100).
  { unfold order_price_cents. rewrite py_int_nonneg.
    - apply Qfloor_le.
    - apply Qmult_le_0_compat; [exact P0|discriminate]. }
  assert (X : x * current_price s
              == recommended_size s * current_balance (spend_tracker e)).
  { unfold x, affordable_contracts. rewrite Q.max_l by exact P. field. lra. }
  rewrite <- X. unfold cents_to_dollars. rewrite inject_Z_mult.
  apply Qle_shift_div_r; [reflexivity|].
  assert (Cq : 0 <= inject_Z (order_price_cents s)).
  { change 0 with (inject_Z 0). now rewrite <- Zle_Qle. }
  assert (Nq : 0 <= inject_Z n).
  { change 0 with (inject_Z 0). rewrite <- Zle_Qle. lia. }
  apply Qle_trans with (current_price s * 100 * inject_Z n).
  - apply Qmult_le_compat_r; [exact C1|exact Nq].
  - setoid_replace (x * current_price s * 100) with (x * (current_price s * 100))
      by ring.
    setoid_replace (current_price s * 100 * inject_Z n)
      with (inject_Z n * (current_price s * 100)) by ring.
    apply Qmult_le_compat_r; [exact N2|].
    apply Qmult_le_0_compat; [exact P0|discriminate].
Qed.

(** ** Witnesses *)

Lemma daily_spend_within_weekly_spend_witness :
  nonnegative_ledger (spend_tracker engine_after_spending) /\
  (0 <= get_daily_spend 36000000000 (spend_tracker engine_after_spending)
     <= get_weekly_spend 36000000000 (spend_tracker engine_after_spending))%Z.
Proof.
  assert (N : nonnegative_ledger (spend_tracker engine_after_spending))
    by (repeat constructor; discriminate).
  split; [exact N|].
  exact (daily_spend_within_weekly_spend 36000000000
           (spend_tracker engine_after_spending) N).
Defined.

Lemma executed_trade_stays_within_the_caps_witness :
  decision (snd (evaluate_signal default_engine env_10h demo_signal)) = APPROVED /\
  exists e' r',
    execute_approved_trade (fst (evaluate_signal default_engine env_10h demo_signal))
      exec_env_10h (snd (evaluate_signal default_engine env_10h demo_signal))
    = Returned (e', r') /\
    (get_daily_spend 36000000001 (spend_tracker e') <= 5000)%Z.
Proof.
  assert (A : decision (snd (evaluate_signal default_engine env_10h demo_signal))
              = APPROVED) by (vm_compute; reflexivity).
  assert (N : nonnegative_ledger (spend_tracker default_engine)) by constructor.
  assert (P : 0 <= current_price demo_signal) by discriminate.
  assert (Ld : (now_daily env_10h <= 36000000001)%Z) by discriminate.
  assert (Lw : (now_weekly env_10h <= 36000000001)%Z) by discriminate.
  destruct (executed_trade_stays_within_the_caps default_engine env_10h demo_signal
              exec_env_10h 36000000001 A N P Ld Lw) as (e' & r' & E & D & _).
  split; [exact A|]. exists e', r'. split; [exact E|exact D].
Defined.

Lemma counters_add_up_witness :
  counters_consistent default_engine /\
  counters_consistent (fst (run default_engine later_activity)) /\
  total_signals_processed (fst (run default_engine later_activity)) = 2%Z.
Proof.
  assert (C : counters_consistent default_engine)
    by (repeat split; discriminate).
  destruct (counters_add_up default_engine later_activity 0 0 C) as (C' & P & _).
  split; [exact C|]. split; [exact C'|exact P].
Defined.

Lemma order_cost_within_recommended_fraction_witness :
  1 # 100 <= current_price demo_signal /\
  1 <= affordable_contracts default_engine demo_signal /\
  cents_to_dollars (total_cost_cents (build_order_request default_engine demo_signal))
  <= recommended_size demo_signal * current_balance (spend_tracker default_engine).
Proof.
  assert (P : 1 # 100 <= current_price demo_signal) by discriminate.
  assert (A : 1 <= affordable_contracts default_engine demo_signal)
    by (vm_compute; discriminate).
  split; [exact P|]. split; [exact A|].
  exact (proj2 (proj2 (order_cost_within_recommended_fraction default_engine
                         demo_signal P A))).
Defined.

End GovernanceMore.

(** * Further properties of the risk stabilizer *)

Module StabilizerMore.
Import Stabilizer StabilizerSpec.

(** ** Outlier filtering *)

(** The comparison of [z_score_below] is the comparison of the z-score, over
    the reals. *)
Lemma z_score_below_sqrt x mean var t :
  0 < var ->
  z_score_below x mean var t = true
  <-> (Rabs ((Q2R x - Q2R mean) / sqrt (Q2R var)) < Q2R t)%R.
Proof.
  intro V. apply Qlt_Rlt in V. rewrite RMicromega.Q2R_0 in V.
  assert (S : (0 < sqrt (Q2R var))%R) by now apply sqrt_lt_R0.
  replace (Rabs ((Q2R x - Q2R mean) / sqrt (Q2R var)))
    with (Rabs (Q2R x - Q2R mean) / sqrt (Q2R var))%R.
  2:{ unfold Rdiv. rewrite Rabs_mult. f_equal. symmetry. apply Rabs_pos_eq.
      apply Rlt_le. now apply Rinv_0_lt_compat. }
  unfold z_score_below. rewrite andb_true_iff, !Qlt_bool_iff.
  set (d := (Q2R x - Q2R mean)%R).
  assert (E : Q2R ((x - mean) * (x - mean)) = Rsqr d).
  { unfold d, Rsqr. now rewrite Q2R_mult, Q2R_minus. }
  assert (F : Q2R (t * t * var) = Rsqr (Q2R t * sqrt (Q2R var))).
  { rewrite !Q2R_mult, Rsqr_mult, Rsqr_sqrt by now apply Rlt_le. reflexivity. }
  split.
  - intros [T H]. apply Qlt_Rlt in T, H. rewrite RMicromega.Q2R_0 in T.
    rewrite E, F in H. apply Rsqr_lt_abs_0 in H.
    rewrite (Rabs_pos_eq (Q2R t * _)) in H
      by (apply Rmult_le_pos; now apply Rlt_le).
    apply (Rmult_lt_reg_r (sqrt (Q2R var))); [exact S|].
    unfold Rdiv. rewrite Rmult_assoc, Rinv_l, Rmult_1_r; [exact H|].
    now apply Rgt_not_eq.
  - intro H.
    assert (H' : (Rabs d < Q2R t * sqrt (Q2R var))%R).
    { apply (Rmult_lt_compat_r (sqrt (Q2R var))) in H; [|exact S].
      unfold Rdiv in H. rewrite Rmult_assoc, Rinv_l, Rmult_1_r in H; [exact H|].
      now apply Rgt_not_eq. }
    assert (T : (0 < Q2R t)%R).
    { apply (Rmult_lt_reg_r (sqrt (Q2R var))); [exact S|].
      rewrite Rmult_0_l. apply Rle_lt_trans with (Rabs d); [apply Rabs_pos|exact H']. }
    split.
    + apply Rlt_Qlt. now rewrite RMicromega.Q2R_0.
    + apply Rlt_Qlt. rewrite E, F. apply Rsqr_lt_abs_1.
      rewrite (Rabs_pos_eq (Q2R t * _)); [exact H'|].
      apply Rmult_le_pos; now apply Rlt_le.
Qed.

Lemma select_all_true {A} (xs : list A) : select xs (map (fun _ => true) xs) = xs.
Proof.
  unfold select. induction xs as [|x xs IH]; [reflexivity|].
  simpl. now rewrite IH.
Qed.

Lemma select_cons {A} (x : A) xs (b : bool) mask :
  select (x :: xs) (b :: mask) = if b then x :: select xs mask else select xs mask.
Proof. unfold select. simpl. now destruct b. Qed.

Lemma select_length_le {A} (xs : list A) mask :
  (List.length (select xs mask) <= List.length xs)%nat.
Proof.
  revert mask. induction xs as [|x xs IH]; intros [|b mask]; simpl; try lia.
  rewrite select_cons. specialize (IH mask). destruct b; simpl; lia.
Qed.

Lemma select_same_length {A B} (xs : list A) (ys : list B) mask :
  List.length xs = List.length ys ->
  List.length (select xs mask) = List.length (select ys mask).
Proof.
  revert ys mask. induction xs as [|x xs IH]; intros [|y ys] mask H;
    try discriminate; [reflexivity|].
  destruct mask as [|b mask]; [reflexivity|].
  rewrite !select_cons. injection H as H. specialize (IH ys mask H).
  destruct b; simpl; now rewrite IH.
Qed.

Lemma select_incl {A} (xs : list A) mask x : In x (select xs mask) -> In x xs.
Proof.
  revert mask. induction xs as [|y xs IH]; intros [|b mask]; simpl; try tauto.
  rewrite select_cons. destruct b; simpl; intros H.
  - destruct H; [now left|right; eauto].
  - right. eauto.
Qed.

(** Picking labels by the index of the kept flags is picking them by flag. *)
Lemma select_by_index mask : forall (pre labels : list string),
  List.length labels = List.length mask ->
  let kept := select (seq (List.length pre) (List.length mask)) mask in
  forallb (fun i => (i <? List.length (pre ++ labels))%nat) kept = true /\
  map (fun i => nth i (pre ++ labels) ""%string) kept = select labels mask.
Proof.
  induction mask as [|b mask IH]; intros pre labels H; cbv zeta.
  - destruct labels; [|discriminate]. split; reflexivity.
  - destruct labels as [|l labels]; [discriminate|]. injection H as H.
    cbn [List.length seq]. rewrite !select_cons.
    specialize (IH (pre ++ [l]) labels H). cbv zeta in IH.
    assert (EL : List.length (pre ++ [l]) = S (List.length pre))
      by (rewrite length_app; simpl; lia).
    assert (EA : (pre ++ [l]) ++ labels = pre ++ l :: labels)
      by now rewrite <- app_assoc.
    rewrite EL, EA in IH.
    destruct IH as [F M]. destruct b.
    + cbn [forallb map]. rewrite F, M. split.
      * rewrite andb_true_r. apply Nat.ltb_lt. rewrite length_app. simpl. lia.
      * f_equal. rewrite app_nth2 by lia. now rewrite Nat.sub_diag.
    + split; assumption.
Qed.

Lemma select_all_true_with {A B : Type} (xs : list A) (ys : list B) :
  List.length xs = List.length ys -> select xs (map (fun _ => true) ys) = xs.
Proof.
  revert ys. induction xs as [|x xs IH]; intros [|y ys] L; try discriminate;
    [reflexivity|].
  unfold select in *. simpl. f_equal. apply IH. now injection L.
Qed.

Lemma filter_outliers_with_labels cfg values labels :
  List.length labels = List.length values ->
  filter_outliers cfg values (Some labels)
  = Returned (select values (keep_mask cfg values),
              select labels (keep_mask cfg values)).
Proof.
  intro L. unfold filter_outliers, keep_mask.
  destruct (_ <? _)%Z.
  { now rewrite select_all_true, (select_all_true_with labels values L). }
  destruct values as [|v0 vs].
  { destruct labels; [|discriminate]. now destruct (Qeq_bool _ 0). }
  set (values := v0 :: vs) in *.
  destruct (Qeq_bool _ 0).
  { now rewrite select_all_true, (select_all_true_with labels values L). }
  set (mask := map _ values).
  assert (LM : List.length labels = List.length mask)
    by (unfold mask; now rewrite length_map).
  fold (select values mask).
  destruct labels as [|l labels]; [discriminate|].
  destruct (select_by_index mask [] (l :: labels) LM) as [F M].
  change (List.length (@nil string)) with 0%nat in F, M.
  change ([] ++ l :: labels) with (l :: labels) in F, M.
  cbv beta iota zeta.
  fold (select (seq 0 (List.length mask)) mask). rewrite F, M. reflexivity.
Qed.

Lemma filter_outliers_without_labels cfg values :
  filter_outliers cfg values None
  = Returned (select values (keep_mask cfg values), []).
Proof.
  unfold filter_outliers, keep_mask.
  destruct (_ <? _)%Z; [now rewrite select_all_true|].
  destruct values as [|v0 vs]; [now destruct (Qeq_bool _ 0)|].
  destruct (Qeq_bool _ 0); [now rewrite select_all_true|].
  reflexivity.
Qed.

Lemma filter_outliers_values cfg values labels vals labs :
  filter_outliers cfg values labels = Returned (vals, labs) ->
  vals = select values (keep_mask cfg values).
Proof.
  unfold filter_outliers, keep_mask.
  destruct (_ <? _)%Z.
  { rewrite select_all_true. congruence. }
  destruct values as [|v0 vs].
  { destruct (Qeq_bool _ 0); cbn; congruence. }
  set (values := v0 :: vs) in *.
  destruct (Qeq_bool _ 0).
  { rewrite select_all_true. congruence. }
  fold (select values (map (fun x => z_score_below x (np_mean values) (np_var values)
                                        (outlier_std_threshold cfg)) values)).
  destruct (match labels with Some l => l | None => [] end); [congruence|].
  destruct (forallb _ _); congruence.
Qed.

Lemma py_sum_cons x xs : py_sum (x :: xs) == x + py_sum xs.
Proof.
  unfold py_sum. simpl.
  assert (H : forall l a, fold_left Qplus l a == a + fold_left Qplus l 0).
  { induction l as [|y l IH]; intro a; simpl; [ring|].
    rewrite IH, (IH (0 + y)). ring. }
  rewrite H. ring.
Qed.

Lemma py_sum_nonneg xs : Forall (fun x => 0 <= x) xs -> 0 <= py_sum xs.
Proof.
  induction 1 as [|x xs H F IH]; [discriminate|].
  rewrite py_sum_cons. lra.
Qed.

Lemma square_nonneg (d : Q) : 0 <= d * d.
Proof.
  destruct (Qlt_le_dec d 0) as [N|P].
  - setoid_replace (d * d) with ((- d) * (- d)) by ring.
    apply Qmult_le_0_compat; lra.
  - now apply Qmult_le_0_compat.
Qed.

Lemma inject_nat_pos (n : nat) : (0 < n)%nat -> 0 < inject_Z (Z.of_nat n).
Proof. intro H. change 0 with (inject_Z 0). rewrite <- Zlt_Qlt. lia. Qed.

Lemma np_var_times_length xs :
  xs <> [] ->
  np_var xs * inject_Z (Z.of_nat (List.length xs))
  == py_sum (map (squared_deviation (np_mean xs)) xs).
Proof.
  intro N. unfold np_var, np_mean at 1. rewrite length_map.
  fold (squared_deviation (np_mean xs)).
  change (fun x => (x - np_mean xs) * (x - np_mean xs))
    with (squared_deviation (np_mean xs)).
  field. intro Z0.
  assert (P : 0 < inject_Z (Z.of_nat (List.length xs))).
  { apply inject_nat_pos. destruct xs; [now elim N|simpl; lia]. }
  rewrite Z0 in P. discriminate.
Qed.

Lemma np_var_nonneg xs : 0 <= np_var xs.
Proof.
  unfold np_var, np_mean at 1. rewrite length_map.
  destruct xs as [|x xs]; [discriminate|].
  apply Qle_shift_div_l; [apply inject_nat_pos; simpl; lia|].
  rewrite Qmult_0_l. apply py_sum_nonneg.
  apply Forall_forall. intros y I. apply in_map_iff in I.
  destruct I as [z [<- _]]. apply square_nonneg.
Qed.

(** Chebyshev: the values whose squared deviation reaches [c] are at most
    the sum of the squared deviations over [c]. *)
Lemma far_values_are_few m c xs :
  0 <= c ->
  inject_Z (Z.of_nat (List.length
     (filter (fun x => negb (Qlt_bool (squared_deviation m x) c)) xs))) * c
  <= py_sum (map (squared_deviation m) xs).
Proof.
  intro C. induction xs as [|x xs IH].
  - cbn. unfold Qmult, Qle. simpl. lia.
  - simpl map. rewrite py_sum_cons. simpl filter.
    pose proof (square_nonneg (x - m)) as S. fold (squared_deviation m x) in S.
    destruct (Qlt_bool (squared_deviation m x) c) eqn:E; simpl negb; cbv iota.
    + lra.
    + apply Qlt_bool_false_iff in E. cbn [List.length].
      rewrite Nat2Z.inj_succ, <- Z.add_1_r, inject_Z_plus.
      setoid_replace ((inject_Z (Z.of_nat (List.length
          (filter (fun x0 => negb (Qlt_bool (squared_deviation m x0) c)) xs)))
                       + inject_Z 1) * c)
        with (inject_Z (Z.of_nat (List.length
          (filter (fun x0 => negb (Qlt_bool (squared_deviation m x0) c)) xs))) * c + c)
        by ring.
      lra.
Qed.

Lemma select_complement {A} (f : A -> bool) xs :
  (List.length (select xs (map f xs))
   + List.length (filter (fun x => negb (f x)) xs) = List.length xs)%nat.
Proof.
  induction xs as [|x xs IH]; [reflexivity|].
  simpl map. rewrite select_cons. simpl filter.
  destruct (f x); simpl; lia.
Qed.

Lemma keep_mask_drops_few cfg values :
  0 < outlier_std_threshold cfg ->
  let kept := select values (keep_mask cfg values) in
  inject_Z (Z.of_nat (List.length values - List.length kept))
  * (outlier_std_threshold cfg * outlier_std_threshold cfg)
  <= inject_Z (Z.of_nat (List.length values)).
Proof.
  intro T. cbv zeta.
  set (t := outlier_std_threshold cfg) in *.
  assert (T2 : 0 < t * t) by (apply Qmult_lt_0_compat; exact T).
  assert (Trivial : forall n : nat,
             inject_Z (Z.of_nat (n - n)) * (t * t) <= inject_Z (Z.of_nat n)).
  { intro n. rewrite Nat.sub_diag. change (inject_Z (Z.of_nat 0)) with 0.
    rewrite Qmult_0_l. change 0 with (inject_Z 0). rewrite <- Zle_Qle. lia. }
  unfold keep_mask.
  destruct (_ <? _)%Z; [rewrite select_all_true; apply Trivial|].
  destruct (Qeq_bool (np_var values) 0) eqn:V0;
    [rewrite select_all_true; apply Trivial|].
  destruct values as [|v0 rest]; [apply Trivial|].
  set (values := v0 :: rest) in *.
  assert (NE : values <> []) by discriminate.
  set (m := np_mean values). set (var := np_var values) in *.
  assert (V : 0 < var).
  { pose proof (np_var_nonneg values) as P. fold var in P.
    destruct (Qle_lt_or_eq _ _ P) as [L|E]; [exact L|].
    symmetry in E. apply Qeq_bool_iff in E. congruence. }
  set (c := t * t * var).
  assert (C : 0 <= c) by (apply Qlt_le_weak, Qmult_lt_0_compat; assumption).
  set (f := fun x => z_score_below x m var t).
  change (map (fun x => z_score_below x m var (outlier_std_threshold cfg)) values)
    with (map f values).
  pose proof (select_complement f values) as SC.
  replace (List.length values - List.length (select values (map f values)))%nat
    with (List.length (filter (fun x => negb (f x)) values)) by lia.
  assert (EF : filter (fun x => negb (f x)) values
               = filter (fun x => negb (Qlt_bool (squared_deviation m x) c)) values).
  { apply filter_ext. intro x. unfold f, z_score_below.
    apply Qlt_bool_iff in T. now rewrite T. }
  rewrite EF.
  pose proof (far_values_are_few m c values C) as F.
  pose proof (np_var_times_length values NE) as VL.
  fold var m in VL.
  set (d := inject_Z (Z.of_nat (List.length
              (filter (fun x => negb (Qlt_bool (squared_deviation m x) c)) values)))) in *.
  set (n := inject_Z (Z.of_nat (List.length values))) in *.
  set (total := py_sum (map (squared_deviation m) values)) in *.
  assert (G : d * (t * t) * var <= n * var).
  { unfold c in F.
    setoid_replace (d * (t * t) * var) with (d * (t * t * var)) by ring.
    setoid_replace (n * var) with (var * n) by ring.
    apply Qle_trans with total; [exact F|].
    apply Qle_lteq. right. symmetry. exact VL. }
  exact (proj1 (Qmult_le_r _ _ var V) G).
Qed.

(** X13.  [filter_outliers] with a positive threshold t keeps the values in their
    order and drops at most n / t^2 of n values; with a threshold above 1 it
    never empties a sample that was not empty. *)
Theorem filter_outliers_drops_few cfg values labels vals labs :
  0 < outlier_std_threshold cfg ->
  filter_outliers cfg values labels = Returned (vals, labs) ->
  vals = select values (keep_mask cfg values) /\
  (List.length vals <= List.length values)%nat /\
  inject_Z (Z.of_nat (List.length values - List.length vals))
  * (outlier_std_threshold cfg * outlier_std_threshold cfg)
  <= inject_Z (Z.of_nat (List.length values)) /\
  (1 < outlier_std_threshold cfg -> values <> [] -> vals <> []).
Proof.
  intros T R. apply filter_outliers_values in R. subst vals.
  split; [reflexivity|]. split; [apply select_length_le|].
  pose proof (keep_mask_drops_few cfg values T) as D. cbv zeta in D.
  split; [exact D|].
  intros T1 NE E. rewrite E in D. simpl List.length in D.
  rewrite Nat.sub_0_r in D.
  set (t := outlier_std_threshold cfg) in *.
  set (n := inject_Z (Z.of_nat (List.length values))) in *.
  assert (N : 0 < n).
  { apply inject_nat_pos. destruct values; [now elim NE|simpl; lia]. }
  assert (T2 : 1 < t * t).
  { apply Qlt_trans with (1 * t); [lra|].
    apply Qmult_lt_compat_r; lra. }
  assert (K : n * 1 < n * (t * t)) by (apply Qmult_lt_l; assumption).
  lra.
Qed.

(** ** Position sizing *)

Lemma calculate_position_size_value cfg dd conviction regime exposure :
  ~ max_total_drawdown cfg == 0 ->
  calculate_position_size cfg dd conviction regime exposure
  = Returned (py_max (py_min (py_min (unclamped_size cfg dd conviction regime)
                                     (1 - exposure))
                             (max_position_size cfg))
                     (min_position_size cfg)).
Proof.
  intro NZ. unfold calculate_position_size, unclamped_size, drawdown_factor, py_div.
  destruct (Qeq_bool (max_total_drawdown cfg) 0) eqn:E.
  { apply Qeq_bool_iff in E. now elim NZ. }
  now destruct (Qlt_bool _ dd).
Qed.

Lemma py_min_mono a a' b b' : a <= a' -> b <= b' -> py_min a b <= py_min a' b'.
Proof.
  intros A B. unfold py_min.
  destruct (Qlt_bool b a) eqn:E, (Qlt_bool b' a') eqn:E';
    rewrite ?Qlt_bool_iff, ?Qlt_bool_false_iff in *; lra.
Qed.

Lemma py_max_mono a a' b b' : a <= a' -> b <= b' -> py_max a b <= py_max a' b'.
Proof.
  intros A B. unfold py_max.
  destruct (Qlt_bool a b) eqn:E, (Qlt_bool a' b') eqn:E';
    rewrite ?Qlt_bool_iff, ?Qlt_bool_false_iff in *; lra.
Qed.

Lemma clamped_size_bounds x r lo hi :
  lo <= hi -> lo <= py_max (py_min (py_min x r) hi) lo <= hi.
Proof.
  intro B. split; [apply py_max_lower|].
  apply py_max_upper; [apply py_min_upper|exact B].
Qed.

Lemma drawdown_factor_nonneg cfg dd :
  0 <= drawdown_reduction_rate cfg -> 0 <= drawdown_factor cfg dd.
Proof.
  intro R. unfold drawdown_factor. destruct (Qlt_bool _ dd); [|discriminate].
  apply Qle_trans with (drawdown_reduction_rate cfg); [exact R|apply py_max_lower].
Qed.

(** X14.  With non-negative base size, conviction scaling, regime factor and
    reduction floor and a total drawdown limit other than 0,
    [calculate_position_size] returns for every conviction and exposure, and
    more conviction or less current exposure never lowers the size. *)
Theorem position_size_is_monotone cfg dd c1 c2 regime e1 e2 :
  0 <= base_position_size cfg -> 0 <= conviction_scaling cfg ->
  0 <= regime_factor_of cfg regime -> 0 <= drawdown_reduction_rate cfg ->
  ~ max_total_drawdown cfg == 0 ->
  c1 <= c2 -> e2 <= e1 ->
  exists s1 s2,
    calculate_position_size cfg dd c1 regime e1 = Returned s1 /\
    calculate_position_size cfg dd c2 regime e2 = Returned s2 /\
    s1 <= s2.
Proof.
  intros B S F R NZ C E.
  rewrite !calculate_position_size_value by exact NZ.
  eexists. eexists. split; [reflexivity|]. split; [reflexivity|].
  apply py_max_mono; [|apply Qle_refl].
  apply py_min_mono; [|apply Qle_refl].
  apply py_min_mono; [|lra].
  unfold unclamped_size.
  pose proof (drawdown_factor_nonneg cfg dd R) as D.
  set (b := base_position_size cfg) in *. set (k := conviction_scaling cfg) in *.
  set (f := regime_factor_of cfg regime) in *. set (d := drawdown_factor cfg dd) in *.
  assert (P : 0 <= b * k * (c2 - c1) * f * d).
  { repeat apply Qmult_le_0_compat; try assumption. lra. }
  setoid_replace (b * (1 + (c2 - (1 # 2)) * k) * f * d)
    with (b * (1 + (c1 - (1 # 2)) * k) * f * d + b * k * (c2 - c1) * f * d) by ring.
  lra.
Qed.

Lemma drawdown_factor_at_most_one cfg dd :
  0 <= dd -> 0 < max_total_drawdown cfg -> drawdown_reduction_rate cfg <= 1 ->
  drawdown_factor cfg dd <= 1.
Proof.
  intros D M R. unfold drawdown_factor. destruct (Qlt_bool _ dd); [|apply Qle_refl].
  apply py_max_upper; [|exact R].
  assert (0 <= dd / max_total_drawdown cfg).
  { apply Qle_shift_div_l; [exact M|]. lra. }
  lra.
Qed.

(** X15.  A drawdown never raises the position size: with a positive total
    drawdown limit, a daily limit that is not negative, a reduction floor of at
    most 1 and a size that is not negative before the clamps, the size at
    drawdown [dd >= 0] is at most the size at drawdown 0. *)
Theorem drawdown_never_raises_the_size cfg dd conviction regime exposure :
  0 <= dd -> 0 < max_total_drawdown cfg -> 0 <= max_daily_drawdown cfg ->
  drawdown_reduction_rate cfg <= 1 ->
  0 <= unclamped_size cfg 0 conviction regime ->
  exists s0 s,
    calculate_position_size cfg 0 conviction regime exposure = Returned s0 /\
    calculate_position_size cfg dd conviction regime exposure = Returned s /\
    s <= s0.
Proof.
  intros D M Md R U.
  assert (NZ : ~ max_total_drawdown cfg == 0) by lra.
  rewrite !calculate_position_size_value by exact NZ.
  eexists. eexists. split; [reflexivity|]. split; [reflexivity|].
  apply py_max_mono; [|apply Qle_refl].
  apply py_min_mono; [|apply Qle_refl].
  apply py_min_mono; [|apply Qle_refl].
  pose proof (drawdown_factor_at_most_one cfg dd D M R) as F.
  assert (F0 : drawdown_factor cfg 0 = 1).
  { unfold drawdown_factor.
    assert (H : Qlt_bool (max_daily_drawdown cfg / 2) 0 = false).
    { apply Qlt_bool_false_iff. apply Qle_shift_div_l; [reflexivity|]. lra. }
    now rewrite H. }
  unfold unclamped_size in *. rewrite F0 in *.
  set (x := base_position_size cfg * (1 + (conviction - (1 # 2)) * conviction_scaling cfg)
            * regime_factor_of cfg regime) in *.
  assert (X : 0 <= x) by lra.
  setoid_replace (x * 1) with (x * drawdown_factor cfg dd
                               + x * (1 - drawdown_factor cfg dd)) by ring.
  assert (0 <= x * (1 - drawdown_factor cfg dd))
    by (apply Qmult_le_0_compat; lra).
  lra.
Qed.

(** ** Processing a signal *)

Lemma np_clip_bounds x lo hi : lo <= hi -> lo <= np_clip x lo hi <= hi.
Proof.
  intro H. unfold np_clip. split.
  - unfold py_min. destruct (Qlt_bool hi (py_max x lo)); [exact H|apply py_max_lower].
  - apply py_min_upper.
Qed.

Lemma process_signal_value cfg state now id title dir traders prices exposure :
  ~ max_total_drawdown cfg == 0 ->
  exists sg,
    process_signal cfg state now id title dir traders prices exposure = Returned sg /\
    0 <= ars_conviction sg <= 1 /\
    recommended_size sg
    = py_max (py_min (py_min (unclamped_size cfg (current_drawdown state)
                                (ars_conviction sg) (process_signal_regime cfg prices))
                             (1 - exposure))
                     (max_position_size cfg))
             (min_position_size cfg).
Proof.
  intro NZ. unfold process_signal.
  set (sizes := map (fun t => get_or (st_position_size t) 0) traders).
  set (wallets := map (fun t => get_or (st_wallet t) ""%string) traders).
  assert (L : List.length wallets = List.length sizes)
    by (unfold wallets, sizes; now rewrite !length_map).
  rewrite (filter_outliers_with_labels cfg sizes wallets L).
  rewrite calculate_position_size_value by exact NZ.
  eexists. split; [reflexivity|]. cbn [ars_conviction recommended_size].
  split; [apply np_clip_bounds; discriminate|reflexivity].
Qed.

(** X16.  With [min_position_size <= max_position_size] and a total drawdown
    limit other than 0, [process_signal] returns a signal for any traders and
    prices: both convictions lie in [0, 1], the recommended size lies between
    the minimum and the maximum size, the source traders are wallets of the
    given traders, the metadata counts the traders given and the traders kept
    with their difference as outliers removed, and the regime is the one
    detected from the prices. *)
Theorem process_signal_is_bounded cfg state now id title dir traders prices exposure :
  min_position_size cfg <= max_position_size cfg ->
  ~ max_total_drawdown cfg == 0 ->
  exists sg,
    process_signal cfg state now id title dir traders prices exposure = Returned sg /\
    0 <= raw_conviction sg <= 1 /\
    0 <= ars_conviction sg <= 1 /\
    min_position_size cfg <= recommended_size sg <= max_position_size cfg /\
    (forall w, In w (source_traders sg) ->
               In w (map (fun t => get_or (st_wallet t) ""%string) traders)) /\
    (0 <= meta_num_traders_filtered sg <= meta_num_traders_original sg)%Z /\
    meta_outliers_removed sg
    = (meta_num_traders_original sg - meta_num_traders_filtered sg)%Z /\
    meta_num_traders_original sg = Z.of_nat (List.length traders) /\
    meta_regime sg = process_signal_regime cfg prices.
Proof.
  intros B NZ. unfold process_signal.
  set (sizes := map (fun t => get_or (st_position_size t) 0) traders).
  set (wallets := map (fun t => get_or (st_wallet t) ""%string) traders).
  assert (L : List.length wallets = List.length sizes)
    by (unfold wallets, sizes; now rewrite !length_map).
  rewrite (filter_outliers_with_labels cfg sizes wallets L).
  rewrite calculate_position_size_value by exact NZ.
  eexists. split; [reflexivity|]. cbn [raw_conviction ars_conviction recommended_size
    source_traders meta_num_traders_filtered meta_num_traders_original
    meta_outliers_removed meta_regime].
  split; [|split; [|split; [|split; [|split]]]].
  - unfold py_min.
    assert (N : 0 <= inject_Z (Z.of_nat (List.length traders)) / 10).
    { apply Qle_shift_div_l; [reflexivity|]. rewrite Qmult_0_l.
      change 0 with (inject_Z 0). rewrite <- Zle_Qle. lia. }
    destruct (Qlt_bool 1 _) eqn:E; [split; discriminate|].
    apply Qlt_bool_false_iff in E. split; assumption.
  - apply np_clip_bounds. discriminate.
  - now apply clamped_size_bounds.
  - intros w I. now apply select_incl in I.
  - pose proof (select_length_le wallets (keep_mask cfg sizes)) as K.
    assert (List.length wallets = List.length traders)
      by (unfold wallets; now rewrite length_map).
    lia.
  - repeat split.
Qed.

(** ** Drawdown tracking *)

(** X17.  After [update_drawdown] the drawdown is not negative; it is the daily
    loss while the daily P&L is negative; a gain on a day that is not in loss
    never raises it; and the daily P&L restarts from the given P&L exactly when
    the date has moved past the last reset. *)
Theorem update_drawdown_never_negative state now_check now_reset pnl :
  let s' := update_drawdown state now_check now_reset pnl in
  0 <= current_drawdown s' /\
  (daily_pnl s' < 0 -> current_drawdown s' == - daily_pnl s') /\
  (0 <= daily_pnl s' -> 0 <= pnl -> 0 <= current_drawdown state ->
   current_drawdown s' <= current_drawdown state) /\
  ((date_of (last_reset state) < date_of now_check)%Z ->
   daily_pnl s' = pnl /\ last_reset s' = now_reset) /\
  ((date_of now_check <= date_of (last_reset state))%Z ->
   daily_pnl s' = daily_pnl state + pnl /\ last_reset s' = last_reset state).
Proof.
  cbv zeta. unfold update_drawdown.
  destruct (date_of (last_reset state) <? date_of now_check)%Z eqn:Day;
    cbn [current_drawdown daily_pnl last_reset].
  - apply Z.ltb_lt in Day.
    split; [|split; [|split; [|split; [auto|intro; exfalso; lia]]]].
    + destruct (Qlt_bool pnl 0); [apply Qabs_nonneg|apply py_max_lower].
    + intro N. apply Qlt_bool_iff in N. rewrite N. apply Qabs_neg. 
      apply Qlt_bool_iff in N. lra.
    + intros P Pn D. apply Qlt_bool_false_iff in P. rewrite P.
      apply py_max_upper; lra.
  - apply Z.ltb_ge in Day.
    split; [|split; [|split; [|split; [intro; exfalso; lia|auto]]]].
    + destruct (Qlt_bool _ 0); [apply Qabs_nonneg|apply py_max_lower].
    + intro N. apply Qlt_bool_iff in N. rewrite N. apply Qabs_neg.
      apply Qlt_bool_iff in N. lra.
    + intros P Pn D. apply Qlt_bool_false_iff in P. rewrite P.
      apply py_max_upper; lra.
Qed.

(** X18.  [should_stop_trading] stops exactly when the drawdown has reached the
    daily or the total limit, and gives no reason otherwise.  When the daily
    limit is not above the total limit, the reason given is always the daily
    one: the total limit is never reported. *)
Theorem should_stop_trading_at_the_lower_limit cfg state :
  (fst (should_stop_trading cfg state) = true
   <-> max_daily_drawdown cfg <= current_drawdown state
       \/ max_total_drawdown cfg <= current_drawdown state) /\
  (fst (should_stop_trading cfg state) = false ->
   snd (should_stop_trading cfg state) = []) /\
  (max_daily_drawdown cfg <= max_total_drawdown cfg ->
   fst (should_stop_trading cfg state) = true ->
   snd (should_stop_trading cfg state) = daily_limit_message state).
Proof.
  unfold should_stop_trading.
  destruct (Qle_bool (max_daily_drawdown cfg) (current_drawdown state)) eqn:D.
  - apply Qle_bool_iff in D. cbn. repeat split; auto; discriminate.
  - assert (ND : ~ max_daily_drawdown cfg <= current_drawdown state).
    { intro H. apply Qle_bool_iff in H. congruence. }
    destruct (Qle_bool (max_total_drawdown cfg) (current_drawdown state)) eqn:T.
    + apply Qle_bool_iff in T. cbn. split; [split; auto|].
      split; [discriminate|]. intros O _. elim ND. lra.
    + assert (NT : ~ max_total_drawdown cfg <= current_drawdown state).
      { intro H. apply Qle_bool_iff in H. congruence. }
      cbn. split; [split; [discriminate|tauto]|]. split; [reflexivity|discriminate].
Qed.

(** ** Witnesses *)

Lemma filter_outliers_drops_few_witness :
  0 < outlier_std_threshold default_config /\
  filter_outliers default_config sizes_with_outlier None
  = Returned ([1; 1; 1; 1; 1; 1], []) /\
  inject_Z (Z.of_nat (7 - 6)) * (2 * 2) <= inject_Z (Z.of_nat 7).
Proof.
  assert (T : 0 < outlier_std_threshold default_config) by reflexivity.
  assert (R : filter_outliers default_config sizes_with_outlier None
              = Returned ([1; 1; 1; 1; 1; 1], [])) by (vm_compute; reflexivity).
  split; [exact T|]. split; [exact R|].
  exact (proj1 (proj2 (proj2 (filter_outliers_drops_few default_config
                                sizes_with_outlier None _ _ T R)))).
Defined.

Lemma position_size_is_monotone_witness :
  1 # 4 <= 3 # 4 /\ 1 # 10 <= 2 # 10 /\
  exists s1 s2,
    calculate_position_size default_config 0 (1 # 4) TRENDING (2 # 10) = Returned s1 /\
    calculate_position_size default_config 0 (3 # 4) TRENDING (1 # 10) = Returned s2 /\
    s1 <= s2.
Proof.
  assert (C : 1 # 4 <= 3 # 4) by discriminate.
  assert (E : 1 # 10 <= 2 # 10) by discriminate.
  split; [exact C|]. split; [exact E|].
  apply (position_size_is_monotone default_config 0 (1 # 4) (3 # 4) TRENDING
           (2 # 10) (1 # 10)); try discriminate; assumption.
Defined.

Lemma drawdown_never_raises_the_size_witness :
  0 <= 8 # 100 /\
  0 <= unclamped_size default_config 0 (9 # 10) CALM /\
  exists s0 s,
    calculate_position_size default_config 0 (9 # 10) CALM 0 = Returned s0 /\
    calculate_position_size default_config (8 # 100) (9 # 10) CALM 0 = Returned s /\
    s <= s0.
Proof.
  assert (D : 0 <= 8 # 100) by discriminate.
  assert (U : 0 <= unclamped_size default_config 0 (9 # 10) CALM)
    by (vm_compute; discriminate).
  split; [exact D|]. split; [exact U|].
  apply (drawdown_never_raises_the_size default_config (8 # 100) (9 # 10) CALM 0);
    try assumption; try reflexivity; discriminate.
Defined.

Lemma process_signal_is_bounded_witness :
  min_position_size default_config <= max_position_size default_config /\
  ~ max_total_drawdown default_config == 0 /\
  exists sg,
    process_signal default_config (new_state 0) 0 "test-market"
      "Will it rain tomorrow?" "yes" demo_traders (Some demo_prices) (2 # 10)
    = Returned sg /\
    0 <= ars_conviction sg <= 1 /\
    min_position_size default_config <= recommended_size sg
      <= max_position_size default_config.
Proof.
  assert (B : min_position_size default_config <= max_position_size default_config)
    by discriminate.
  assert (NZ : ~ max_total_drawdown default_config == 0) by discriminate.
  destruct (process_signal_is_bounded default_config (new_state 0) 0 "test-market"
              "Will it rain tomorrow?" "yes" demo_traders (Some demo_prices) (2 # 10)
              B NZ) as (sg & E & _ & A & S & _).
  split; [exact B|]. split; [exact NZ|].
  exists sg. split; [exact E|]. split; [exact A|exact S].
Defined.

End StabilizerMore.

(** * Further properties of the signal generator *)

Module SignalsMore.
Import Signals SignalsSpec.

(** ** Sorting in descending order *)

Section SortedDesc.
Variable A : Type.
Variable lt : A -> A -> bool.

Hypothesis lt_asym : forall a b, lt a b = true -> lt b a = false.
Hypothesis not_before_trans :
  forall a b c, not_before lt a b -> not_before lt b c -> not_before lt a c.

Lemma insert_by_perm x l : Permutation (insert_by lt x l) (x :: l).
Proof.
  induction l as [|y l IH]; [reflexivity|].
  simpl. destruct (lt x y); [|reflexivity].
  rewrite IH. apply perm_swap.
Qed.

Lemma sorted_desc_by_perm l : Permutation (sorted_desc_by lt l) l.
Proof.
  induction l as [|x l IH]; [reflexivity|].
  simpl. rewrite insert_by_perm. now constructor.
Qed.

Lemma insert_by_sorted x l :
  StronglySorted (not_before lt) l -> StronglySorted (not_before lt) (insert_by lt x l).
Proof.
  induction 1 as [|y l S IH F]; simpl.
  - repeat constructor.
  - destruct (lt x y) eqn:E.
    + constructor; [exact IH|].
      apply Forall_forall. intros z I.
      apply (Permutation_in _ (insert_by_perm x l)) in I.
      destruct I as [<-|I]; [now apply lt_asym|].
      rewrite Forall_forall in F. now apply F.
    + constructor; [now constructor|].
      constructor; [exact E|].
      apply Forall_forall. intros z I. rewrite Forall_forall in F.
      apply (not_before_trans x y z); [exact E|now apply F].
Qed.

Lemma sorted_desc_by_sorted l : StronglySorted (not_before lt) (sorted_desc_by lt l).
Proof.
  induction l as [|x l IH]; [constructor|].
  simpl. now apply insert_by_sorted.
Qed.

End SortedDesc.

Lemma sorted_desc_is_sorted_desc_by signals :
  sorted_desc signals
  = sorted_desc_by (fun a b => key_lt (sort_key a) (sort_key b)) signals.
Proof.
  unfold sorted_desc, sorted_desc_by. induction signals as [|s rest IH]; [reflexivity|].
  simpl. rewrite IH. generalize (fold_right
    (insert_by (fun a b => key_lt (sort_key a) (sort_key b))) [] rest).
  induction l as [|y l IHl]; [reflexivity|].
  simpl. now rewrite IHl.
Qed.

Lemma Qlt_bool_asym x y : Qlt_bool x y = true -> Qlt_bool y x = false.
Proof. rewrite Qlt_bool_iff, Qlt_bool_false_iff. lra. Qed.

Lemma Qlt_bool_not_before_trans x y z :
  Qlt_bool x y = false -> Qlt_bool y z = false -> Qlt_bool x z = false.
Proof. rewrite !Qlt_bool_false_iff. lra. Qed.

Lemma key_lt_false a b :
  key_lt a b = false <-> fst b < fst a \/ (fst a == fst b /\ snd b <= snd a).
Proof.
  unfold key_lt. rewrite orb_false_iff, andb_false_iff, !Qlt_bool_false_iff. split.
  - intros [L [E|S]].
    + left. destruct (Qle_lt_or_eq _ _ L) as [H|H]; [exact H|].
      symmetry in H. apply Qeq_bool_iff in H. congruence.
    + destruct (Qle_lt_or_eq _ _ L) as [H|H]; [now left|right].
      split; [now symmetry|exact S].
  - intros [L|[E S]].
    + split; [lra|]. left.
      destruct (Qeq_bool (fst a) (fst b)) eqn:Q; [|reflexivity].
      apply Qeq_bool_iff in Q. lra.
    + split; [lra|]. now right.
Qed.

Lemma key_lt_true a b :
  key_lt a b = true <-> fst a < fst b \/ (fst a == fst b /\ snd a < snd b).
Proof.
  unfold key_lt. rewrite orb_true_iff, andb_true_iff, !Qlt_bool_iff.
  now rewrite Qeq_bool_iff.
Qed.

Lemma key_lt_asym a b : key_lt a b = true -> key_lt b a = false.
Proof.
  rewrite key_lt_true, key_lt_false. intros [L|[E S]]; [now left|right].
  split; [now symmetry|lra].
Qed.

Lemma key_lt_not_before_trans a b c :
  key_lt a b = false -> key_lt b c = false -> key_lt a c = false.
Proof.
  rewrite !key_lt_false.
  intros [L|[E S]] [L'|[E' S']].
  - left. lra.
  - left. lra.
  - left. lra.
  - right. split; lra.
Qed.

Lemma StronglySorted_impl {A} (R R' : A -> A -> Prop) l :
  (forall a b, R a b -> R' a b) -> StronglySorted R l -> StronglySorted R' l.
Proof.
  intros H. induction 1 as [|x l S IH F]; constructor; [exact IH|].
  apply Forall_forall. intros y I. rewrite Forall_forall in F. auto.
Qed.

(** ** Scoring traders *)

Lemma py_min_cases a b : (py_min a b = a \/ py_min a b = b).
Proof. unfold py_min. destruct (Qlt_bool b a); auto. Qed.

Lemma score_trader_bounds t :
  ts_consistency (score_trader t) <= 1 /\
  ts_final_score (score_trader t) <= 1 /\
  (0 <= tr_pnl t -> 0 <= ts_final_score (score_trader t)).
Proof.
  unfold score_trader. cbn [ts_consistency ts_final_score].
  set (e := if Qlt_bool 0 (tr_volume t) then tr_pnl t / tr_volume t else 0).
  pose proof (py_min_upper (tr_pnl t / 100000) 1) as [_ P1].
  pose proof (py_min_upper (e / (10 # 100)) 1) as [_ E1].
  split; [exact E1|]. split; [lra|].
  intro P.
  assert (P0 : 0 <= py_min (tr_pnl t / 100000) 1).
  { destruct (py_min_cases (tr_pnl t / 100000) 1) as [-> | ->]; [|discriminate].
    apply Qle_shift_div_l; [reflexivity|]. lra. }
  assert (E0 : 0 <= e).
  { unfold e. destruct (Qlt_bool 0 (tr_volume t)) eqn:V; [|discriminate].
    apply Qlt_bool_iff in V. apply Qle_shift_div_l; [exact V|]. lra. }
  assert (E2 : 0 <= py_min (e / (10 # 100)) 1).
  { destruct (py_min_cases (e / (10 # 100)) 1) as [-> | ->]; [|discriminate].
    apply Qle_shift_div_l; [reflexivity|]. lra. }
  lra.
Qed.

(** X19.  [score_traders] returns the scores of exactly the traders whose P&L is
    at least [min_pnl], each once, in descending order of the final score; a
    final score is at most 1, and not negative when the P&L is not negative. *)
Theorem score_traders_ranks_the_qualified traders min_pnl :
  let scored := score_traders traders min_pnl in
  Permutation scored (map score_trader (filter (qualifies min_pnl) traders)) /\
  StronglySorted (fun a b => ts_final_score b <= ts_final_score a) scored /\
  Forall (fun s => min_pnl <= ts_pnl s /\
                   ts_final_score s <= 1 /\
                   (0 <= ts_pnl s -> 0 <= ts_final_score s)) scored.
Proof.
  cbv zeta. unfold score_traders.
  change (fun t => negb (Qlt_bool (tr_pnl t) min_pnl)) with (qualifies min_pnl).
  set (qualified := map score_trader (filter (qualifies min_pnl) traders)).
  pose proof (sorted_desc_by_perm _ score_lt qualified) as P.
  split; [exact P|]. split.
  - apply (StronglySorted_impl (not_before score_lt)).
    + intros a b H. unfold not_before, score_lt in H.
      now apply Qlt_bool_false_iff in H.
    + apply sorted_desc_by_sorted.
      * intros a b. apply Qlt_bool_asym.
      * intros a b c. apply Qlt_bool_not_before_trans.
  - apply (Permutation_Forall (Permutation_sym P)).
    apply Forall_forall. intros s I. unfold qualified in I.
    apply in_map_iff in I. destruct I as [t [<- I]].
    apply filter_In in I. destruct I as [_ Q].
    unfold qualifies in Q. apply negb_true_iff, Qlt_bool_false_iff in Q.
    pose proof (score_trader_bounds t) as (_ & F1 & F0).
    split; [exact Q|]. split; [exact F1|exact F0].
Qed.

(** ** Entry quality *)

Lemma price_move_below avg current bound :
  0 < avg ->
  (Qlt_bool ((current - avg) / avg) bound = true <-> current < (1 + bound) * avg).
Proof.
  intro A. rewrite Qlt_bool_iff. split; intro H.
  - apply (Qmult_lt_r _ _ avg A) in H.
    setoid_replace ((current - avg) / avg * avg) with (current - avg) in H
      by (field; lra).
    lra.
  - apply Qlt_shift_div_r; [exact A|]. lra.
Qed.

Lemma price_move_not_below avg current bound :
  0 < avg ->
  (Qlt_bool ((current - avg) / avg) bound = false <-> (1 + bound) * avg <= current).
Proof.
  intro A. pose proof (price_move_below avg current bound A) as H.
  destruct (Qlt_bool _ bound).
  - split; [discriminate|]. intro L. assert (current < (1 + bound) * avg) by now apply H.
    lra.
  - split; [|reflexivity]. intros _. apply Qnot_lt_le. intro L.
    apply H in L. discriminate.
Qed.

Lemma known_entry avg current :
  0 < avg -> 0 < current ->
  Qle_bool avg 0 || Qle_bool current 0 = false.
Proof.
  intros A C. apply orb_false_iff. split.
  - destruct (Qle_bool avg 0) eqn:E; [|reflexivity]. apply Qle_bool_iff in E. lra.
  - destruct (Qle_bool current 0) eqn:E; [|reflexivity]. apply Qle_bool_iff in E. lra.
Qed.


(** X21.  For a positive average entry price, the entry score never rises as the
    (positive) current price rises. *)
Theorem entry_quality_worsens_as_the_price_rises avg c1 c2 :
  0 < avg -> 0 < c1 -> c1 <= c2 ->
  snd (evaluate_entry_quality avg c2) <= snd (evaluate_entry_quality avg c1).
Proof.
  intros A C1 L. assert (C2 : 0 < c2) by lra.
  unfold evaluate_entry_quality.
  rewrite (known_entry avg c1 A C1), (known_entry avg c2 A C2).
  destruct (Qlt_bool ((c1 - avg) / avg) (15 # 100)) eqn:G1;
  destruct (Qlt_bool ((c1 - avg) / avg) (50 # 100)) eqn:F1;
  destruct (Qlt_bool ((c1 - avg) / avg) 1) eqn:L1;
  destruct (Qlt_bool ((c2 - avg) / avg) (15 # 100)) eqn:G2;
  destruct (Qlt_bool ((c2 - avg) / avg) (50 # 100)) eqn:F2;
  destruct (Qlt_bool ((c2 - avg) / avg) 1) eqn:L2;
  cbn [snd]; try discriminate;
  rewrite ?price_move_below, ?price_move_not_below in * by exact A;
  exfalso; lra.
Qed.

(** ** Resolved markets *)

(** [filter_resolved_markets] keeps exactly the signals priced strictly
    between 0.02 and 0.98; filtering twice changes nothing. *)
Lemma filter_resolved_markets_keeps_the_open_ones signals :
  (forall sg, In sg (filter_resolved_markets signals)
              <-> In sg signals /\ unresolved sg) /\
  filter_resolved_markets (filter_resolved_markets signals)
  = filter_resolved_markets signals /\
  (List.length (filter_resolved_markets signals) <= List.length signals)%nat.
Proof.
  unfold filter_resolved_markets.
  set (keep := fun sg => negb (Qle_bool (98 # 100) (sig_current_price sg)
                               || Qle_bool (sig_current_price sg) (2 # 100))).
  assert (K : forall sg, keep sg = true <-> unresolved sg).
  { intro sg. unfold keep, unresolved.
    rewrite negb_true_iff, orb_false_iff. split.
    - intros [H1 H2]. split; apply Qnot_le_lt; intro L;
        apply Qle_bool_iff in L; congruence.
    - intros [H1 H2]. split.
      + destruct (Qle_bool (98 # 100) _) eqn:E; [|reflexivity].
        apply Qle_bool_iff in E. lra.
      + destruct (Qle_bool _ (2 # 100)) eqn:E; [|reflexivity].
        apply Qle_bool_iff in E. lra. }
  split; [|split].
  - intro sg. rewrite filter_In, K. tauto.
  - induction signals as [|sg rest IH]; [reflexivity|].
    simpl. destruct (keep sg) eqn:E; [|exact IH].
    simpl. rewrite E. now f_equal.
  - apply filter_length_le.
Qed.

Lemma inject_pos_nat (n : nat) : (0 < n)%nat -> 0 < inject_Z (Z.of_nat n).
Proof. intro H. change 0 with (inject_Z 0). rewrite <- Zlt_Qlt. lia. Qed.

(** ** What the aggregator emits *)

Lemma signal_of_group_thresholds total mt mc k hs sg :
  signal_of_group total mt mc (k, hs) = Returned (Some sg) ->
  signal_key sg = k /\
  (mt <= sig_num_traders sg)%Z /\ mc <= sig_conviction sg /\
  sig_ars_score sg = 0 /\ sig_entry_quality sg = "unknown"%string.
Proof.
  destruct k as [slug out]. unfold signal_of_group, py_div.
  destruct (_ <? mt)%Z eqn:M; [discriminate|]. apply Z.ltb_ge in M.
  destruct (Qeq_bool _ 0); [discriminate|].
  destruct (Qlt_bool _ mc) eqn:C; [discriminate|]. apply Qlt_bool_false_iff in C.
  destruct hs as [|h0 hs]; [discriminate|].
  intro E. inversion E; subst. cbn. repeat split; assumption.
Qed.

Lemma signals_of_groups_members total mt mc groups : forall sigs,
  signals_of_groups total mt mc groups = Returned sigs ->
  (forall sg, In sg sigs ->
     exists k hs, In (k, hs) groups /\
                  signal_of_group total mt mc (k, hs) = Returned (Some sg)) /\
  (NoDup (map fst groups) -> NoDup (map signal_key sigs)).
Proof.
  induction groups as [|[k hs] rest IH]; intros sigs E.
  - simpl in E. inversion E; subst. split; [intros sg []|constructor].
  - cbn [signals_of_groups] in E.
    destruct (signal_of_group total mt mc (k, hs)) as [o|] eqn:G; [|discriminate].
    destruct (signals_of_groups total mt mc rest) as [others|] eqn:R; [|discriminate].
    destruct (IH others eq_refl) as [M N].
    inversion E; subst. split.
    + intros sg I. destruct o as [sg0|].
      * destruct I as [<-|I].
        -- exists k, hs. split; [now left|exact G].
        -- destruct (M sg I) as (k' & hs' & I' & G').
           exists k', hs'. split; [now right|exact G'].
      * destruct (M sg I) as (k' & hs' & I' & G').
        exists k', hs'. split; [now right|exact G'].
    + intro ND. cbn [map fst] in ND. inversion ND as [|? ? NI ND']; subst.
      destruct o as [sg0|]; [|now apply N].
      cbn [map]. constructor; [|now apply N].
      destruct (signal_of_group_thresholds _ _ _ _ _ _ G) as [K _].
      rewrite K. intro I. apply in_map_iff in I. destruct I as [sg [Ks I]].
      destruct (M sg I) as (k' & hs' & I' & G').
      destruct (signal_of_group_thresholds _ _ _ _ _ _ G') as [K' _].
      apply NI. rewrite <- Ks, K'. change k' with (fst (k', hs')). now apply in_map.
Qed.

Lemma group_positions_keys_nodup scores positions :
  NoDup (map fst (group_positions scores positions)).
Proof. rewrite group_positions_regroup. apply regroup_nodup. constructor. Qed.

(** X22.  [aggregate_signals] always returns, and every signal it emits has at
    least [min_traders] and at least one supporting position, a positive
    conviction of at least [min_conviction] that equals the number of
    supporting positions over the number of wallets, and entry quality
    unknown. *)
Theorem aggregate_signals_emits_qualifying_signals scores positions mt mc :
  exists sigs,
    aggregate_signals scores positions mt mc = Returned sigs /\
    Forall (fun sg =>
              (mt <= sig_num_traders sg)%Z /\ (1 <= sig_num_traders sg)%Z /\
              mc <= sig_conviction sg /\ 0 < sig_conviction sg /\
              sig_conviction sg * inject_Z (Z.of_nat (List.length positions))
              == inject_Z (sig_num_traders sg) /\
              sig_entry_quality sg = "unknown"%string) sigs.
Proof.
  destruct (aggregate_signals_returns scores positions mt mc) as [sigs [E S]].
  exists sigs. split; [exact E|].
  apply Forall_forall. intros sg I.
  destruct (S sg I) as (hs & H & NE & _ & _ & N & C).
  unfold aggregate_signals in E.
  destruct (signals_of_groups _ mt mc _) as [raw|] eqn:R; [|discriminate].
  inversion E; subst sigs.
  apply (proj1 (sorted_desc_in _ _)) in I.
  destruct (proj1 (signals_of_groups_members _ _ _ _ _ R) sg I) as (k & hs' & _ & G).
  destruct (signal_of_group_thresholds _ _ _ _ _ _ G) as (_ & T1 & T2 & _ & Q).
  assert (L : (0 < List.length hs)%nat) by (destruct hs; [now elim NE|simpl; lia]).
  assert (P : (0 < List.length positions)%nat).
  { destruct positions; [|simpl; lia]. rewrite H in NE. now elim NE. }
  pose proof (inject_pos_nat (List.length hs) L) as Lq.
  pose proof (inject_pos_nat (List.length positions) P) as Pq.
  split; [exact T1|]. split; [rewrite N; lia|]. split; [exact T2|].
  split.
  - rewrite C. apply Qlt_shift_div_l; [exact Pq|]. now rewrite Qmult_0_l.
  - split; [|exact Q]. rewrite C, N. field. lra.
Qed.

(** X23.  [aggregate_signals] emits at most one signal per (market, outcome), in
    descending order of conviction and, at equal conviction, of total size. *)
Theorem aggregate_signals_ranks_one_signal_per_outcome scores positions mt mc :
  exists sigs,
    aggregate_signals scores positions mt mc = Returned sigs /\
    StronglySorted ranks_before sigs /\
    NoDup (map signal_key sigs).
Proof.
  destruct (aggregate_signals_returns scores positions mt mc) as [sigs [E _]].
  exists sigs. split; [exact E|].
  unfold aggregate_signals in E.
  destruct (signals_of_groups _ mt mc _) as [raw|] eqn:R; [|discriminate].
  inversion E; subst sigs. rewrite sorted_desc_is_sorted_desc_by.
  set (lt := fun a b => key_lt (sort_key a) (sort_key b)).
  split.
  - apply (StronglySorted_impl (not_before lt)).
    + intros a b H. unfold not_before, lt in H. apply key_lt_false in H. exact H.
    + apply sorted_desc_by_sorted.
      * intros a b. apply key_lt_asym.
      * intros a b c. apply key_lt_not_before_trans.
  - apply (Permutation_NoDup (l := map signal_key raw)).
    + apply Permutation_map, Permutation_sym, sorted_desc_by_perm.
    + apply (proj2 (signals_of_groups_members _ _ _ _ _ R)).
      apply group_positions_keys_nodup.
Qed.

(** ** ARS scoring of the signals *)

Lemma entry_score_bounds avg current :
  1 # 10 <= snd (evaluate_entry_quality avg current) <= 1 /\
  In (fst (evaluate_entry_quality avg current)) entry_qualities.
Proof.
  unfold evaluate_entry_quality, entry_qualities.
  destruct (_ || _); [cbn; split; [split; discriminate|tauto]|].
  repeat (destruct (Qlt_bool _ _); [cbn; split; [split; discriminate|tauto]|]).
  cbn; split; [split; discriminate|tauto].
Qed.

Lemma score_signal_returns cfg state now scores positions sg :
  ~ Stabilizer.max_total_drawdown cfg == 0 ->
  exists scored,
    score_signal cfg state now scores positions sg = Returned scored /\
    scored_from cfg sg scored /\
    exists conviction,
      0 <= conviction <= 1 /\
      sig_recommended_size scored
      = py_max (py_min (py_min (Stabilizer.unclamped_size cfg
                                  (Stabilizer.current_drawdown state) conviction
                                  (Stabilizer.process_signal_regime cfg None))
                               (1 - 0))
                       (Stabilizer.max_position_size cfg))
               (Stabilizer.min_position_size cfg).
Proof.
  intro NZ. unfold score_signal.
  pose proof (entry_score_bounds (sig_avg_entry_price sg) (sig_current_price sg))
    as [[E0 E1] EQ].
  destruct (evaluate_entry_quality _ _) as [quality score]. cbn [fst snd] in *.
  destruct (StabilizerMore.process_signal_value cfg state now (sig_market_slug sg)
              (sig_market_title sg) (sig_direction sg)
              (supporting_traders_of scores positions sg) None 0 NZ)
    as (ars & P & [A0 A1] & R).
  rewrite P. eexists. split; [reflexivity|]. split.
  - unfold scored_from. cbn. split; [reflexivity|]. split; [reflexivity|].
    split; [exact EQ|]. split; [lra|].
    intro B. rewrite R. now apply StabilizerMore.clamped_size_bounds.
  - exists (Stabilizer.ars_conviction ars). split; [split; assumption|exact R].
Qed.

Lemma score_signals_returns cfg state now scores positions signals :
  ~ Stabilizer.max_total_drawdown cfg == 0 ->
  exists scored,
    score_signals cfg state now scores positions signals = Returned scored /\
    Forall2 (fun sg s =>
               score_signal cfg state now scores positions sg = Returned s)
            signals scored.
Proof.
  intro NZ. induction signals as [|sg rest IH].
  - exists []. split; [reflexivity|constructor].
  - destruct IH as (others & E & F).
    destruct (score_signal_returns cfg state now scores positions sg NZ)
      as (s & S & _).
    cbn [score_signals]. rewrite S, E. eexists. split; [reflexivity|].
    now constructor.
Qed.

(** X24.  With [min_position_size <= max_position_size], a total drawdown limit
    other than 0 and convictions in [0, 1], [apply_ars_scoring] returns one
    scored signal per given signal (the same markets and outcomes, none lost or
    added), in descending order of the ARS score; every score lies between
    0.03 and 1, every recommended size between the minimum and the maximum
    size, and every entry quality is one of the five labels. *)
Theorem apply_ars_scoring_scores_every_signal cfg state now scores positions signals :
  Stabilizer.min_position_size cfg <= Stabilizer.max_position_size cfg ->
  ~ Stabilizer.max_total_drawdown cfg == 0 ->
  Forall (fun sg => 0 <= sig_conviction sg <= 1) signals ->
  exists scored,
    apply_ars_scoring cfg state now scores positions signals = Returned scored /\
    Permutation (map signal_key scored) (map signal_key signals) /\
    StronglySorted (fun a b => sig_ars_score b <= sig_ars_score a) scored /\
    Forall (fun s =>
              3 # 100 <= sig_ars_score s <= 1 /\
              Stabilizer.min_position_size cfg <= sig_recommended_size s
                <= Stabilizer.max_position_size cfg /\
              In (sig_entry_quality s) entry_qualities) scored.
Proof.
  intros B NZ C.
  destruct (score_signals_returns cfg state now scores positions signals NZ)
    as (raw & E & F).
  unfold apply_ars_scoring. rewrite E. eexists. split; [reflexivity|].
  pose proof (sorted_desc_by_perm _ ars_lt raw) as P.
  assert (G : Forall2 (scored_from cfg) signals raw).
  { clear - F NZ. induction F as [|sg s signals raw S F IH]; constructor; [|exact IH].
    destruct (score_signal_returns cfg state now scores positions sg NZ)
      as (s' & S' & H & _).
    rewrite S in S'. inversion S'; subst. exact H. }
  split; [|split].
  - rewrite (Permutation_map signal_key P).
    clear - G. induction G as [|sg s signals raw H G IH]; [reflexivity|].
    cbn [map]. destruct H as [K _]. rewrite K. now constructor.
  - apply (StronglySorted_impl (not_before ars_lt)).
    + intros a b H. unfold not_before, ars_lt in H.
      now apply Qlt_bool_false_iff in H.
    + apply sorted_desc_by_sorted.
      * intros a b. apply Qlt_bool_asym.
      * intros a b c. apply Qlt_bool_not_before_trans.
  - apply (Permutation_Forall (Permutation_sym P)).
    clear - G B C. induction G as [|sg s signals raw H G IH]; constructor.
    + inversion C as [|? ? [C0 C1] C']; subst.
      destruct H as (_ & _ & Q & [A0 A1] & R).
      split; [split; lra|]. split; [now apply R|exact Q].
    + inversion C; subst. now apply IH.
Qed.

(** X25.  With the stock configuration ([create_ars()] and a fresh state)
    [apply_ars_scoring] returns for any signals, and every recommended size
    lies between 1% and 10% of the bankroll. *)
Theorem stock_generator_recommends_at_most_ten_percent now scores positions signals :
  exists scored,
    apply_ars_scoring (Stabilizer.create_ars false false) (Stabilizer.new_state now)
                      now scores positions signals = Returned scored /\
    Forall (fun s => 1 # 100 <= sig_recommended_size s <= 10 # 100) scored.
Proof.
  set (cfg := Stabilizer.create_ars false false).
  set (state := Stabilizer.new_state now).
  assert (NZ : ~ Stabilizer.max_total_drawdown cfg == 0) by discriminate.
  destruct (score_signals_returns cfg state now scores positions signals NZ)
    as (raw & E & F).
  unfold apply_ars_scoring. rewrite E. eexists. split; [reflexivity|].
  apply (Permutation_Forall (Permutation_sym (sorted_desc_by_perm _ ars_lt raw))).
  clear E. induction F as [|sg s signals raw S F IH]; constructor; [|exact IH].
  destruct (score_signal_returns cfg state now scores positions sg NZ)
    as (s' & S' & _ & a & [A0 A1] & R).
  rewrite S in S'. inversion S'; subst s'. rewrite R.
  assert (U : Stabilizer.unclamped_size cfg (Stabilizer.current_drawdown state) a
                (Stabilizer.process_signal_regime cfg None) == (1 # 10) * a).
  { unfold Stabilizer.unclamped_size. cbn. ring. }
  set (u := Stabilizer.unclamped_size _ _ _ _) in *.
  split; [apply py_max_lower|].
  apply py_max_upper; [|discriminate].
  apply Qle_trans with (py_min u (1 - 0)); [apply py_min_upper|].
  apply Qle_trans with u; [apply py_min_upper|]. lra.
Qed.

(** ** The average entry price of a signal *)

Lemma signal_of_group_average total mt mc k hs sg :
  signal_of_group total mt mc (k, hs) = Returned (Some sg) ->
  sig_avg_entry_price sg
  = (if Qlt_bool 0 (py_sum (map (fun h => size (position h)) hs))
     then py_sum (map (fun h => avg_price (position h) * size (position h)) hs)
          / py_sum (map (fun h => size (position h)) hs)
     else 0) /\
  sig_total_size sg = py_sum (map (fun h => current_value (position h)) hs).
Proof.
  destruct k as [slug out]. unfold signal_of_group, py_div.
  destruct (_ <? mt)%Z; [discriminate|].
  destruct (Qeq_bool _ 0); [discriminate|].
  destruct (Qlt_bool _ mc); [discriminate|].
  destruct hs as [|h0 hs]; [discriminate|].
  intro E. inversion E; subst. cbn. split; reflexivity.
Qed.

Lemma weighted_sum_between lo hi (hs : list Holding) :
  Forall (fun h => 0 < size (position h) /\ lo <= avg_price (position h) <= hi) hs ->
  0 <= py_sum (map (fun h => size (position h)) hs) /\
  lo * py_sum (map (fun h => size (position h)) hs)
  <= py_sum (map (fun h => avg_price (position h) * size (position h)) hs)
  <= hi * py_sum (map (fun h => size (position h)) hs).
Proof.
  induction 1 as [|h hs [S [L U]] F IH].
  - unfold py_sum. simpl. lra.
  - cbn [map]. rewrite !StabilizerMore.py_sum_cons.
    set (s := size (position h)) in *. set (p := avg_price (position h)) in *.
    set (S0 := py_sum (map (fun h => size (position h)) hs)) in *.
    set (W0 := py_sum (map (fun h => avg_price (position h) * size (position h)) hs)) in *.
    assert (A : 0 <= (p - lo) * s) by (apply Qmult_le_0_compat; lra).
    assert (B : 0 <= (hi - p) * s) by (apply Qmult_le_0_compat; lra).
    setoid_replace (lo * (s + S0)) with (p * s - (p - lo) * s + lo * S0) by ring.
    setoid_replace (hi * (s + S0)) with (p * s + (hi - p) * s + hi * S0) by ring.
    lra.
Qed.

Lemma holdings_come_from_positions scores positions h :
  In h (all_holdings scores positions) ->
  exists wp, In wp positions /\ In (position h) (snd wp).
Proof.
  unfold all_holdings. rewrite in_flat_map. intros [wp [I H]].
  exists wp. split; [exact I|]. unfold holdings_of in H.
  destruct (find_trader scores (fst wp)); [|destruct H].
  apply in_map_iff in H. destruct H as [pos [<- P]]. exact P.
Qed.

(** ** Conviction without duplicate positions *)

(** X26.  When every wallet has a scored trader and holds at most one position
    per (market, outcome), every emitted signal counts as [num_traders] the
    wallets holding the outcome, and its conviction is that number over the
    number of wallets, between 0 and 1. *)
Theorem conviction_is_the_share_of_wallets scores positions mt mc :
  no_duplicates scores positions ->
  exists sigs,
    aggregate_signals scores positions mt mc = Returned sigs /\
    Forall (fun sg =>
              sig_num_traders sg
              = Z.of_nat (List.length (wallets_of_group positions sg)) /\
              conviction_as_specified positions sg) sigs.
Proof.
  intro ND.
  destruct (aggregate_signals_returns scores positions mt mc) as [sigs [E S]].
  exists sigs. split; [exact E|].
  apply Forall_forall. intros sg I.
  destruct (S sg I) as [hs [H [NE (_ & _ & N & C)]]].
  assert (L : List.length hs = List.length (wallets_of_group positions sg)).
  { rewrite H, count_participants by exact ND. now rewrite wallets_of_group_holds. }
  split; [now rewrite N, L|].
  unfold conviction_as_specified. rewrite C, L. split; [reflexivity|].
  apply ratio_in_unit_interval.
  - destruct positions; [|simpl; lia].
    rewrite H in NE. now elim NE.
  - rewrite wallets_of_group_holds. apply filter_length_le.
Qed.

(** X27.  When every position has a positive size and an entry price between
    [lo] and [hi], the average entry price of every emitted signal lies
    between [lo] and [hi]. *)
Theorem average_entry_lies_between_the_entries scores positions mt mc lo hi :
  every_position (fun pos => 0 < size pos /\ lo <= avg_price pos <= hi) positions ->
  exists sigs,
    aggregate_signals scores positions mt mc = Returned sigs /\
    Forall (fun sg => lo <= sig_avg_entry_price sg <= hi) sigs.
Proof.
  intro EP.
  destruct (aggregate_signals_returns scores positions mt mc) as [sigs [E S]].
  exists sigs. split; [exact E|].
  apply Forall_forall. intros sg I.
  unfold aggregate_signals in E.
  destruct (signals_of_groups _ mt mc _) as [raw|] eqn:R; [|discriminate].
  inversion E; subst sigs. apply (proj1 (sorted_desc_in _ _)) in I.
  destruct (proj1 (signals_of_groups_members _ _ _ _ _ R) sg I) as (k & hs & G & SG).
  destruct (signal_of_group_average _ _ _ _ _ _ SG) as [A _].
  pose proof (regroup_member _ _ _ _ G) as M.
  assert (F : Forall (fun h => 0 < size (position h)
                               /\ lo <= avg_price (position h) <= hi) hs).
  { apply Forall_forall. intros h H. rewrite M in H. apply filter_In in H.
    destruct H as [H _].
    destruct (holdings_come_from_positions _ _ _ H) as (wp & Iw & Ip).
    unfold every_position in EP. rewrite Forall_forall in EP.
    specialize (EP wp Iw). rewrite Forall_forall in EP. exact (EP _ Ip). }
  pose proof (group_positions_nonempty scores positions) as NE.
  rewrite Forall_forall in NE. specialize (NE _ G). cbn [snd] in NE.
  destruct (weighted_sum_between lo hi hs F) as [S0 [L U]].
  rewrite A.
  destruct (Qlt_bool 0 _) eqn:P.
  - apply Qlt_bool_iff in P. split.
    + apply Qle_shift_div_l; [exact P|exact L].
    + apply Qle_shift_div_r; [exact P|exact U].
  - apply Qlt_bool_false_iff in P. exfalso.
    destruct hs as [|h hs]; [now elim NE|].
    inversion F as [|? ? [Sh _] F']; subst.
    destruct (weighted_sum_between lo hi hs F') as [S1 _].
    cbn [map] in P. rewrite StabilizerMore.py_sum_cons in P. lra.
Qed.

(** ** Witnesses *)

Lemma entry_quality_worsens_as_the_price_rises_witness :
  0 < 1 # 2 /\ 0 < 55 # 100 /\ 55 # 100 <= 8 # 10 /\
  snd (evaluate_entry_quality (1 # 2) (8 # 10))
  <= snd (evaluate_entry_quality (1 # 2) (55 # 100)).
Proof.
  assert (A : 0 < 1 # 2) by reflexivity.
  assert (C : 0 < 55 # 100) by reflexivity.
  assert (L : 55 # 100 <= 8 # 10) by discriminate.
  split; [exact A|]. split; [exact C|]. split; [exact L|].
  exact (entry_quality_worsens_as_the_price_rises (1 # 2) (55 # 100) (8 # 10) A C L).
Defined.

Lemma conviction_is_the_share_of_wallets_witness :
  no_duplicates three_traders three_wallets /\
  exists sigs,
    aggregate_signals three_traders three_wallets 2 (1 # 10) = Returned sigs /\
    Forall (fun sg =>
              sig_num_traders sg
              = Z.of_nat (List.length (wallets_of_group three_wallets sg)) /\
              conviction_as_specified three_wallets sg) sigs.
Proof.
  assert (ND : no_duplicates three_traders three_wallets).
  { repeat constructor; try discriminate; simpl; intuition discriminate. }
  split; [exact ND|].
  exact (conviction_is_the_share_of_wallets three_traders three_wallets 2 (1 # 10) ND).
Defined.

Lemma apply_ars_scoring_scores_every_signal_witness :
  exists raw scored,
    aggregate_signals three_traders three_wallets 2 (1 # 10) = Returned raw /\
    Forall (fun sg => 0 <= sig_conviction sg <= 1) raw /\
    apply_ars_scoring Stabilizer.default_config (Stabilizer.new_state 0) 0
                      three_traders three_wallets raw = Returned scored /\
    Forall (fun s => 3 # 100 <= sig_ars_score s <= 1) scored.
Proof.
  assert (B : Stabilizer.min_position_size Stabilizer.default_config
              <= Stabilizer.max_position_size Stabilizer.default_config)
    by discriminate.
  assert (NZ : ~ Stabilizer.max_total_drawdown Stabilizer.default_config == 0)
    by discriminate.
  eexists. 
  assert (C : Forall (fun sg => 0 <= sig_conviction sg <= 1)
                (sorted_desc
                   (match signals_of_groups 3 2 (1 # 10)
                            (group_positions three_traders three_wallets) with
                    | Returned l => l | Raised _ => [] end))).
  { vm_compute. repeat constructor; discriminate. }
  destruct (apply_ars_scoring_scores_every_signal Stabilizer.default_config
              (Stabilizer.new_state 0) 0 three_traders three_wallets _ B NZ C)
    as (scored & E & _ & _ & F).
  exists scored. split; [vm_compute; reflexivity|].
  split; [exact C|]. split; [exact E|].
  revert F. apply Forall_impl. intros s H. apply H.
Defined.

Lemma average_entry_lies_between_the_entries_witness :
  every_position (fun pos => 0 < size pos /\ 4 # 10 <= avg_price pos <= 55 # 100)
                 three_wallets /\
  exists sigs,
    aggregate_signals three_traders three_wallets 2 (1 # 10) = Returned sigs /\
    Forall (fun sg => 4 # 10 <= sig_avg_entry_price sg <= 55 # 100) sigs.
Proof.
  assert (EP : every_position
                 (fun pos => 0 < size pos /\ 4 # 10 <= avg_price pos <= 55 # 100)
                 three_wallets).
  { repeat constructor; discriminate. }
  split; [exact EP|].
  exact (average_entry_lies_between_the_entries three_traders three_wallets 2
           (1 # 10) (4 # 10) (55 # 100) EP).
Defined.

End SignalsMore.

(** * Properties across the pipeline *)

Module PipelineMore.

Import Governance.

Lemma approved_entry_quality_is_allowed e env s :
  decision (snd (evaluate_signal e env s)) = APPROVED ->
  In (entry_quality s) (allowed_signal_strengths (config e)).
Proof.
  intro A.
  assert (Q : approvable e env s).
  { apply GovernanceMore.battery_passed_iff, GovernanceMore.all_passed_iff,
      GovernanceSpec.decide_approved.
    now rewrite <- GovernanceSpec.evaluate_signal_decides. }
  apply Q.
Qed.

(** X28.  With the allow-list good/fair (the default one), no signal taken
    straight from [aggregate_signals] and converted by
    [polymarket_signal_to_predictor] is approved by [evaluate_signal]: its
    entry quality is still unknown until [apply_ars_scoring] has run. *)
Theorem unscored_signals_are_never_approved
  scores positions mt mc e env id hex generated :
  allowed_signal_strengths (config e) = LiveTrader.good_or_fair ->
  exists sigs,
    Signals.aggregate_signals scores positions mt mc = Returned sigs /\
    Forall (fun sg =>
              decision (snd (evaluate_signal e env
                (LiveTrader.polymarket_signal_to_predictor sg id hex generated)))
              <> APPROVED) sigs.
Proof.
  intro L.
  destruct (SignalsSpec.aggregate_signals_returns scores positions mt mc)
    as [sigs [E _]].
  exists sigs. split; [exact E|].
  unfold Signals.aggregate_signals in E.
  destruct (Signals.signals_of_groups _ mt mc _) as [raw|] eqn:R; [|discriminate].
  inversion E; subst sigs.
  apply Forall_forall. intros sg I A.
  apply (proj1 (SignalsSpec.sorted_desc_in _ _)) in I.
  destruct (proj1 (SignalsMore.signals_of_groups_members _ _ _ _ _ R) sg I)
    as (k & hs & _ & G).
  destruct (SignalsMore.signal_of_group_thresholds _ _ _ _ _ _ G)
    as (_ & _ & _ & _ & Q).
  apply approved_entry_quality_is_allowed in A. rewrite L in A.
  cbn [entry_quality LiveTrader.polymarket_signal_to_predictor] in A.
  rewrite Q in A. unfold LiveTrader.good_or_fair in A.
  simpl in A. intuition discriminate.
Qed.



(** ** Witnesses *)

Lemma unscored_signals_are_never_approved_witness :
  allowed_signal_strengths (config Governance.default_engine)
  = LiveTrader.good_or_fair /\
  exists sigs,
    Signals.aggregate_signals Signals.three_traders Signals.three_wallets 2 (1 # 10)
    = Returned sigs /\
    Forall (fun sg =>
              decision (snd (evaluate_signal Governance.default_engine
                Governance.env_10h
                (LiveTrader.polymarket_signal_to_predictor sg None "0123456789abcdef"
                   "")))
              <> APPROVED) sigs.
Proof.
  assert (L : allowed_signal_strengths (config Governance.default_engine)
              = LiveTrader.good_or_fair) by reflexivity.
  split; [exact L|].
  exact (unscored_signals_are_never_approved Signals.three_traders
           Signals.three_wallets 2 (1 # 10) Governance.default_engine
           Governance.env_10h None "0123456789abcdef" "" L).
Defined.


End PipelineMore.
